(** * EduBot server: face matching, grading and progress tracking

    A shallow embedding of the Express handlers of [server/routes/auth.js],
    [server/routes/user.js], [server/routes/faceRecognition.js],
    [server/routes/question.js] and [server/routes/subject.js], and of the
    Mongoose models of users and subjects they act on.

    Conventions.
    - A JavaScript number is an IEEE 754 binary64 value: Rocq's primitive
      [float], whose operations round as JavaScript's do.  The counters of the
      progress aggregate and the millisecond time stamps only ever hold
      integers far below 2^53, where binary64 arithmetic is exact; they are
      kept in [Z].
    - Strings are sequences of ASCII characters.
    - An [await]ed promise that rejects and a [throw] are both the [Throw]
      completion; [try]/[catch] is [try_catch].
    - The MongoDB collection of users is the list of its documents in natural
      order; [new Date()], [Math.random()], the bcrypt salt and the replies of
      the generative API are inputs of the handlers.
    - A handler takes the body as the client sent it, and the errors that the
      validation chain of its route found in it; the sanitizers of the chain
      are applied where the handler reads the body. *)

From Stdlib Require Import ZArith String Ascii List Bool Lia Floats DecimalString.
From Stdlib Require DecimalPos DecimalZ.
Import ListNotations.

Set Warnings "-register-all".

(** ** JavaScript values and built-ins *)

Module JS.

Definition number := float.

(** [a > b] on numbers; false as soon as one side is NaN. *)
Definition gt (a b : number) : bool := PrimFloat.ltb b a.

Definition Math_sqrt (x : number) : number := PrimFloat.sqrt x.

(** [Math.max(a, b)]: NaN if either argument is NaN, and +0 counts as larger
    than -0. *)
Definition Math_max (a b : number) : number :=
  if (PrimFloat.is_nan a || PrimFloat.is_nan b)%bool then PrimFloat.nan
  else if PrimFloat.ltb a b then b
  else if PrimFloat.ltb b a then a
  else if (PrimFloat.is_zero a && PrimFloat.get_sign a)%bool then b
  else a.

(** The [length] of an array, as a number (array lengths are below 2^32). *)
Definition length_number {A : Type} (l : list A) : number :=
  PrimFloat.of_uint63 (Uint63.of_Z (Z.of_nat (List.length l))).

(** The values a JSON body or [JSON.parse] can deliver, and [undefined]. *)
Inductive value : Type :=
| Undefined
| Null
| Bool (b : bool)
| Num (n : number)
| Str (s : string)
| Arr (items : list value)
| Obj (fields : list (string * value)).

Definition truthy (v : value) : bool :=
  match v with
  | Undefined | Null => false
  | Bool b => b
  | Num n => negb (PrimFloat.is_nan n || PrimFloat.is_zero n)
  | Str s => negb (String.eqb s EmptyString)
  | Arr _ | Obj _ => true
  end.

(** [a || b] *)
Definition or_else (a b : value) : value := if truthy a then a else b.

(** [a === b] for two values that were parsed separately: primitives compare
    by value, and two arrays or objects are never the same reference. *)
Definition strict_equals (a b : value) : bool :=
  match a, b with
  | Undefined, Undefined => true
  | Null, Null => true
  | Bool x, Bool y => Bool.eqb x y
  | Num x, Num y => PrimFloat.eqb x y
  | Str x, Str y => String.eqb x y
  | _, _ => false
  end.

Fixpoint lookup (key : string) (fields : list (string * value)) : value :=
  match fields with
  | [] => Undefined
  | (k, v) :: rest => if String.eqb k key then v else lookup key rest
  end.

(** Normal and abrupt completion of a computation. *)
Inductive completion (A : Type) : Type :=
| Normal (a : A)
| Throw (message : string).
Arguments Normal {A} a.
Arguments Throw {A} message.

Definition bind {A B : Type} (c : completion A) (k : A -> completion B) : completion B :=
  match c with
  | Normal a => k a
  | Throw m => Throw m
  end.

Definition try_catch {A : Type} (c : completion A) (handler : string -> completion A) : completion A :=
  match c with
  | Normal a => Normal a
  | Throw m => handler m
  end.

(** [v.key] for the property names the handlers read (none of them is a
    property of a string, number, boolean or array): reading a property of
    [null] or [undefined] throws a TypeError. *)
Definition get (v : value) (key : string) : completion value :=
  match v with
  | Undefined | Null => Throw "Cannot read properties of null or undefined"
  | Obj fields => Normal (lookup key fields)
  | _ => Normal Undefined
  end.

Definition is_space (c : ascii) : bool :=
  let n := nat_of_ascii c in ((9 <=? n) && (n <=? 13) || (n =? 32))%nat%bool.

Fixpoint trimStart (s : string) : string :=
  match s with
  | EmptyString => EmptyString
  | String c rest => if is_space c then trimStart rest else s
  end.

Fixpoint trimEnd (s : string) : string :=
  match s with
  | EmptyString => EmptyString
  | String c rest =>
      match trimEnd rest with
      | EmptyString => if is_space c then EmptyString else String c EmptyString
      | rest' => String c rest'
      end
  end.

Definition trim (s : string) : string := trimEnd (trimStart s).

Definition lower_char (c : ascii) : ascii :=
  let n := nat_of_ascii c in
  if ((65 <=? n) && (n <=? 90))%nat%bool then ascii_of_nat (n + 32) else c.

Fixpoint toLowerCase (s : string) : string :=
  match s with
  | EmptyString => EmptyString
  | String c rest => String (lower_char c) (toLowerCase rest)
  end.

End JS.

Notation "x <- c ;; k" := (JS.bind c (fun x => k))
  (at level 61, c at next level, right associativity).

(** ** Face descriptors: [calculateSimilarity] and [calculateFaceSimilarity] *)

Definition descriptor := list JS.number.

(** The threshold literal [0.6], that is the double 0x1.3333333333333p-1. *)
Definition threshold : JS.number := 0x1.3333333333333p-1%float.

(** The body of the loop shared by both scorers:
    [diff = d1[i] - d2[i]; sumSquaredDiff += diff * diff]. *)
Definition addSquaredDiff (sumSquaredDiff : JS.number) (p : JS.number * JS.number) : JS.number :=
  let diff := (fst p - snd p)%float in
  (sumSquaredDiff + diff * diff)%float.

(** [server/routes/auth.js], [calculateSimilarity]. *)
Definition calculateSimilarity (descriptor1 descriptor2 : descriptor) : JS.number :=
  if negb (Nat.eqb (List.length descriptor1) (List.length descriptor2)) then 0%float
  else
    let sumSquaredDiff := fold_left addSquaredDiff (combine descriptor1 descriptor2) 0%float in
    let distance := JS.Math_sqrt sumSquaredDiff in
    JS.Math_max 0%float (1 - distance / JS.Math_sqrt (JS.length_number descriptor1))%float.

(** [server/routes/faceRecognition.js], [calculateFaceSimilarity]. *)
Definition calculateFaceSimilarity (descriptor1 descriptor2 : descriptor) : JS.number :=
  if negb (Nat.eqb (List.length descriptor1) (List.length descriptor2)) then 0%float
  else
    let sumSquaredDiff := fold_left addSquaredDiff (combine descriptor1 descriptor2) 0%float in
    let distance := JS.Math_sqrt sumSquaredDiff in
    JS.Math_max 0%float (1 - distance / JS.Math_sqrt (JS.length_number descriptor1))%float.

(** A number in the closed interval from 0 to 1 (so: not NaN). *)
Definition in_unit_interval (x : JS.number) : bool :=
  (PrimFloat.leb 0%float x && PrimFloat.leb x 1%float)%bool.

(** ** Regular expressions, as far as the schema's [match] validator needs *)

Module Regex.

Inductive regex : Type :=
| Empty
| Eps
| Chr (p : ascii -> bool)
| Seq (r s : regex)
| Alt (r s : regex)
| Star (r : regex).

Definition Plus (r : regex) : regex := Seq r (Star r).
Definition Opt (r : regex) : regex := Alt Eps r.

Fixpoint nullable (r : regex) : bool :=
  match r with
  | Empty => false
  | Eps => true
  | Chr _ => false
  | Seq r s => nullable r && nullable s
  | Alt r s => nullable r || nullable s
  | Star _ => true
  end.

Fixpoint deriv (c : ascii) (r : regex) : regex :=
  match r with
  | Empty => Empty
  | Eps => Empty
  | Chr p => if p c then Eps else Empty
  | Seq r s =>
      if nullable r then Alt (Seq (deriv c r) s) (deriv c s) else Seq (deriv c r) s
  | Alt r s => Alt (deriv c r) (deriv c s)
  | Star r => Seq (deriv c r) (Star r)
  end.

(** [/^r$/.test(s)] *)
Fixpoint test (r : regex) (s : string) : bool :=
  match s with
  | EmptyString => nullable r
  | String c rest => test (deriv c r) rest
  end.

(** [\w] *)
Definition word (c : ascii) : bool :=
  let n := nat_of_ascii c in
  ((48 <=? n) && (n <=? 57) || (65 <=? n) && (n <=? 90)
   || (97 <=? n) && (n <=? 122) || (n =? 95))%nat%bool.

Definition char (d : ascii) (c : ascii) : bool := Ascii.eqb c d.

Definition dot_or_dash (c : ascii) : bool := (char "." c || char "-" c)%bool.

End Regex.

(** ** The user model ([models/User], the [userSchema] part of
    [server/models/Subject.js]) *)

Record Progress : Type := mkProgress {
  totalQuestions : Z;
  correctAnswers : Z;
  streakDays : Z;
  lastActiveDate : Z;   (* milliseconds since the epoch *)
  points : Z
}.

(** The schema's defaults for [progress]: the aggregate of an account
    created at [t]. *)
Definition freshProgress (t : Z) : Progress := mkProgress 0 0 0 t 0.

(** [loginMethod]: ['email'] or ['face']. *)
Inductive LoginMethod : Type := ByEmail | ByFace.

(** [preferences].  The values are of the types the schema declares: a
    request that gives another kind of value under one of these keys is
    outside this model. *)
Module Preferences.

(** The stored [preferences]. *)
Record t : Type := make {
  subjects : list string;
  learningPace : string;
  difficultyLevel : string;
  preferredQuestionTypes : list string;
  dailyGoal : JS.number
}.

(** The [preferences] of a request: the keys it gives ([None]: the key is
    absent). *)
Record given : Type := makeGiven {
  given_subjects : option (list string);
  given_learningPace : option string;
  given_difficultyLevel : option string;
  given_preferredQuestionTypes : option (list string);
  given_dailyGoal : option JS.number
}.

(** [{}] *)
Definition empty : given := makeGiven None None None None None.

Definition orDefault {A : Type} (v : option A) (default : A) : A :=
  match v with Some x => x | None => default end.

(** The schema's defaults: ['moderate'], ['beginner'], [10], and the empty
    array for the two arrays. *)
Definition create (g : given) : t :=
  make (orDefault (given_subjects g) [])
    (orDefault (given_learningPace g) "moderate"%string)
    (orDefault (given_difficultyLevel g) "beginner"%string)
    (orDefault (given_preferredQuestionTypes g) [])
    (orDefault (given_dailyGoal g) 10%float).

(** [enum: [...]] *)
Definition oneOf (allowed : list string) (v : string) : bool :=
  existsb (String.eqb v) allowed.

(** The validators of the five paths: the four [enum]s, and [min: 1] and
    [max: 100] of [dailyGoal]. *)
Definition valid (p : t) : bool :=
  (forallb (oneOf ["Mathematics"; "Physics"; "Chemistry"; "Biology"; "Computer Science";
                   "English"; "History"; "Geography"]%string) (subjects p)
   && oneOf ["slow"; "moderate"; "fast"]%string (learningPace p)
   && oneOf ["beginner"; "intermediate"; "advanced"]%string (difficultyLevel p)
   && forallb (oneOf ["MCQ"; "coding"; "network"; "sql"; "chatbot"]%string)
        (preferredQuestionTypes p)
   && PrimFloat.leb 1%float (dailyGoal p) && PrimFloat.leb (dailyGoal p) 100%float)%bool.

End Preferences.

Record User : Type := mkUser {
  _id : nat;
  email : string;
  password : string;                      (* the bcrypt hash *)
  firstName : string;
  lastName : string;
  avatar : option string;                 (* [None] is [null] *)
  faceDescriptor : option descriptor;     (* [None] is [null] *)
  preferences : Preferences.t;
  progress : Progress;
  isActive : bool;
  lastLogin : Z;
  loginMethod : LoginMethod
}.

Definition collection := list User.

(** What lies outside the repository's handlers: bcrypt, the token signer of
    [middleware/auth], the sanitizer [normalizeEmail()] of express-validator,
    [JSON.parse], the environment and the time zone. *)
Class External : Type := {
  normalizeEmail : string -> string;  (* on an address that passed [isEmail()] *)
  bcrypt_hash : string -> string -> string;     (* password, salt *)
  bcrypt_compare : string -> string -> bool;    (* candidate, hash *)
  generateToken : nat -> string;
  JSON_parse : string -> option JS.value;       (* [None]: a SyntaxError *)
  development : bool;                           (* NODE_ENV === 'development' *)
  timezoneOffset : Z                (* local time minus UTC, in ms; constant *)
}.

(** The schema's setters for [email]: [lowercase: true] and [trim: true].
    Mongoose applies them to documents and to query filters alike. *)
Definition castEmail (e : string) : string := JS.trim (JS.toLowerCase e).

(** [match: /^\w+([.-]?\w+)*@\w+([.-]?\w+)*(\.\w{2,3})+$/] *)
Definition emailPattern : Regex.regex :=
  let w := Regex.Chr Regex.word in
  let part := Regex.Seq (Regex.Plus w)
                (Regex.Star (Regex.Seq (Regex.Opt (Regex.Chr Regex.dot_or_dash)) (Regex.Plus w))) in
  Regex.Seq part
    (Regex.Seq (Regex.Chr (Regex.char "@"))
       (Regex.Seq part
          (Regex.Plus (Regex.Seq (Regex.Chr (Regex.char "."))
                         (Regex.Seq w (Regex.Seq w (Regex.Opt w))))))).

Definition nonEmpty (s : string) : bool := negb (String.eqb s EmptyString).

(** The validators of the schema: [required], [match], [minlength] and
    [maxlength] on the four string paths, and those of [preferences]. *)
Definition validateUser (u : User) : bool :=
  (nonEmpty (email u) && Regex.test emailPattern (email u)
   && nonEmpty (password u) && (6 <=? String.length (password u))%nat
   && nonEmpty (firstName u) && (String.length (firstName u) <=? 50)%nat
   && nonEmpty (lastName u) && (String.length (lastName u) <=? 50)%nat
   && Preferences.valid (preferences u))%bool.

Definition hasFaceDescriptor (u : User) : bool :=
  match faceDescriptor u with Some _ => true | None => false end.

(** [User.findOne({ email })] *)
Definition findOne_email (db : collection) (e : string) : option User :=
  find (fun u => String.eqb (email u) (castEmail e)) db.

(** [User.find({ faceDescriptor: { $exists: true, $ne: null } })] *)
Definition find_withFaceDescriptor (db : collection) : list User :=
  filter hasFaceDescriptor db.

(** [User.findById(id)] *)
Definition findById (db : collection) (id : nat) : option User :=
  find (fun u => Nat.eqb (_id u) id) db.

(** [user.save()] of a document that is already stored. *)
Definition save (u : User) (db : collection) : collection :=
  map (fun v => if Nat.eqb (_id v) (_id u) then u else v) db.

(** A fresh [ObjectId]. *)
Definition freshId (db : collection) : nat :=
  S (fold_right Nat.max 0 (map _id db)).

Definition set_login (u : User) (t : Z) (m : LoginMethod) : User :=
  mkUser (_id u) (email u) (password u) (firstName u) (lastName u) (avatar u)
    (faceDescriptor u) (preferences u) (progress u) (isActive u) t m.

Definition set_faceDescriptor (u : User) (d : option descriptor) : User :=
  mkUser (_id u) (email u) (password u) (firstName u) (lastName u) (avatar u)
    d (preferences u) (progress u) (isActive u) (lastLogin u) (loginMethod u).

Definition set_avatar (u : User) (a : option string) : User :=
  mkUser (_id u) (email u) (password u) (firstName u) (lastName u) a
    (faceDescriptor u) (preferences u) (progress u) (isActive u) (lastLogin u) (loginMethod u).

Definition set_progress (u : User) (p : Progress) : User :=
  mkUser (_id u) (email u) (password u) (firstName u) (lastName u) (avatar u)
    (faceDescriptor u) (preferences u) p (isActive u) (lastLogin u) (loginMethod u).

(** [User.findByIdAndUpdate(id, update, { new: true })]: the collection after
    the update and the updated document, [None] ([null]) if there is none. *)
Definition findByIdAndUpdate (db : collection) (id : nat) (update : User -> User)
  : collection * option User :=
  match findById db id with
  | Some u => (save (update u) db, Some (update u))
  | None => (db, None)
  end.

(** ** Responses *)

(** The user as the responses show it; the profile and face routes leave
    [preferences] and [progress] out. *)
Record PublicUser : Type := mkPublicUser {
  pub_id : nat;
  pub_firstName : string;
  pub_lastName : string;
  pub_email : string;
  pub_avatar : option string;
  pub_preferences : option Preferences.t;
  pub_progress : option Progress
}.

Definition authView (u : User) : PublicUser :=
  mkPublicUser (_id u) (firstName u) (lastName u) (email u) (avatar u)
    (Some (preferences u)) (Some (progress u)).

Definition profileView (u : User) : PublicUser :=
  mkPublicUser (_id u) (firstName u) (lastName u) (email u) (avatar u) None None.

(** [user.getStats()] without the derived accuracy percentage. *)
Record Stats : Type := mkStats {
  stat_totalQuestions : Z;
  stat_correctAnswers : Z;
  stat_streakDays : Z;
  stat_points : Z;
  stat_lastActive : Z
}.

(** A generated question after [parseGeneratedQuestions] cleaned it. *)
Record Question : Type := mkQuestion {
  q_id : JS.value;
  q_question : JS.value;
  q_options : JS.value;
  q_correctAnswer : JS.value;
  q_explanation : JS.value;
  q_language : JS.value;
  q_starterCode : JS.value;
  q_testCases : JS.value;
  q_type : JS.value
}.

Inductive Body : Type :=
| ErrorBody (message : string) (errors : list string) (error : option string)
    (* { status: 'error', message, errors?, error? } *)
| AuthBody (message : string) (user : PublicUser) (token : string)
    (similarity : option JS.number)
| UserBody (message : string) (user : PublicUser)
| FaceRegisteredBody (message : string) (user : PublicUser)
    (confidence : JS.number) (descriptorLength : nat)
| CompareBody (similarity : JS.number) (isMatch : bool) (threshold : JS.number)
| GradedBody (isCorrect feedback explanation : JS.value) (userStats : Stats)
| GeneratedBody (message : string) (questions : list Question)
    (subject topic questionType difficulty : JS.value)
    (count : nat) (generatedAt : Z) (userId : nat).

Record Response : Type := mkResponse {
  status : nat;
  body : Body
}.

Definition error (code : nat) (message : string) : Response :=
  mkResponse code (ErrorBody message [] None).

Definition validationFailed (errors : list string) : Response :=
  mkResponse 400 (ErrorBody "Validation failed" errors None).

Definition isEmpty {A : Type} (l : list A) : bool :=
  match l with [] => true | _ => false end.

(** ** [server/routes/auth.js] *)

Section AuthRoutes.
Context `{External}.

Record RegisterBody : Type := mkRegisterBody {
  reg_firstName : string;
  reg_lastName : string;
  reg_email : string;
  reg_password : string;
  reg_preferences : option Preferences.given;   (* [None]: absent or falsy *)
  reg_faceDescriptor : option descriptor        (* [None]: absent or falsy *)
}.

(** [req.body] once the sanitizers of the chain [registerValidation] have
    run: [trim()] on the two names and [normalizeEmail()] on the email. *)
Definition registerSanitizers (b : RegisterBody) : RegisterBody :=
  mkRegisterBody (JS.trim (reg_firstName b)) (JS.trim (reg_lastName b))
    (normalizeEmail (reg_email b)) (reg_password b) (reg_preferences b)
    (reg_faceDescriptor b).

(** [User.create({...})]: the setters run, the defaults are filled in, the
    validators and the unique index on [email] are checked, and the pre-save
    hook stores the hash of the password. *)
Definition User_create (db : collection) (now : Z) (salt : string) (b : RegisterBody)
  : JS.completion (User * collection) :=
  let doc :=
    mkUser (freshId db) (castEmail (reg_email b)) (reg_password b)
      (JS.trim (reg_firstName b)) (JS.trim (reg_lastName b)) None
      (reg_faceDescriptor b)
      (Preferences.create (Preferences.orDefault (reg_preferences b) Preferences.empty))
      (freshProgress now) true now ByEmail in
  if negb (validateUser doc) then JS.Throw "User validation failed"
  else if existsb (fun u => String.eqb (email u) (email doc)) db
  then JS.Throw "E11000 duplicate key error"
  else
    let user :=
      mkUser (_id doc) (email doc) (bcrypt_hash (password doc) salt)
        (firstName doc) (lastName doc) (avatar doc) (faceDescriptor doc)
        (preferences doc) (progress doc) (isActive doc) (lastLogin doc) (loginMethod doc) in
    JS.Normal (user, db ++ [user]).

(** [POST /api/auth/register].  [b] is the body as the client sent it and
    [errors] is what [validationResult(req)] holds once the chain
    [registerValidation] has run; the handler reads the sanitized body. *)
Definition register (db : collection) (now : Z) (salt : string)
  (errors : list string) (b : RegisterBody) : JS.completion Response * collection :=
  if negb (isEmpty errors) then (JS.Normal (validationFailed errors), db)
  else
    let b := registerSanitizers b in
    match findOne_email db (reg_email b) with
    | Some existingUser =>
        (JS.Normal (error 400 "User with this email already exists"), db)
    | None =>
        match User_create db now salt b with
        | JS.Throw m => (JS.Throw m, db)
        | JS.Normal (user, db1) =>
            let token := generateToken (_id user) in
            let user := set_login user now ByEmail in
            (JS.Normal (mkResponse 201
               (AuthBody "User registered successfully" (authView user) token None)),
             save user db1)
        end
    end.

(** [POST /api/auth/login].  [body_email] is the email as the client sent
    it; the chain [loginValidation] has run [normalizeEmail()] on it when
    the handler reads it. *)
Definition login (db : collection) (now : Z) (errors : list string)
  (body_email body_password : string) : Response * collection :=
  if negb (isEmpty errors) then (validationFailed errors, db)
  else
    match findOne_email db (normalizeEmail body_email) with
    | None => (error 401 "Invalid credentials", db)
    | Some user =>
        if negb (isActive user) then (error 401 "Account is deactivated", db)
        else if negb (bcrypt_compare body_password (password user))
        then (error 401 "Invalid credentials", db)
        else
          let token := generateToken (_id user) in
          let user := set_login user now ByEmail in
          (mkResponse 200 (AuthBody "Login successful" (authView user) token None),
           save user db)
    end.

(** One turn of the loop of face-login over [users]; the state is
    [(matchedUser, bestMatch)]. *)
Definition matchStep (query : descriptor) (st : option User * JS.number) (user : User)
  : option User * JS.number :=
  match faceDescriptor user with
  | Some stored =>
      if Nat.eqb (List.length stored) (List.length query) then
        let similarity := calculateSimilarity query stored in
        if (JS.gt similarity threshold && JS.gt similarity (snd st))%bool
        then (Some user, similarity)
        else st
      else st
  | None => st
  end.

Definition bestMatch (query : descriptor) (users : list User) : option User * JS.number :=
  fold_left (matchStep query) users (None, 0%float).

(** [POST /api/auth/face-login].  [body_faceDescriptor] is [None] when the
    body has no array under [faceDescriptor]. *)
Definition faceLogin (db : collection) (now : Z) (body_faceDescriptor : option descriptor)
  : Response * collection :=
  match body_faceDescriptor with
  | None => (error 400 "Face descriptor is required", db)
  | Some query =>
      let users := find_withFaceDescriptor db in
      match bestMatch query users with
      | (None, _) => (error 401 "Face not recognized", db)
      | (Some matchedUser, best) =>
          if negb (isActive matchedUser) then (error 401 "Account is deactivated", db)
          else
            let token := generateToken (_id matchedUser) in
            let matchedUser := set_login matchedUser now ByFace in
            (mkResponse 200
               (AuthBody "Face login successful" (authView matchedUser) token (Some best)),
             save matchedUser db)
      end
  end.

End AuthRoutes.

(** The similarity the loop of face-login computes for [user], if it computes
    one: the stored descriptor must exist and have the length of the query. *)
Definition scoreOf (query : descriptor) (user : User) : option JS.number :=
  match faceDescriptor user with
  | Some stored =>
      if Nat.eqb (List.length stored) (List.length query)
      then Some (calculateSimilarity query stored)
      else None
  | None => None
  end.

(** [user] has a score, and it exceeds the threshold. *)
Definition clears (query : descriptor) (user : User) : bool :=
  match scoreOf query user with
  | Some s => JS.gt s threshold
  | None => false
  end.

(** What the loop of face-login has established once it has gone through
    [seen]. *)
Definition selected (query : descriptor) (seen : list User) (st : option User * JS.number)
  : Prop :=
  match st with
  | (None, best) => best = 0%float /\ forall u, In u seen -> clears query u = false
  | (Some m, best) =>
      exists before after,
        seen = before ++ m :: after
        /\ scoreOf query m = Some best
        /\ JS.gt best threshold = true
        /\ (forall u s, In u before -> scoreOf query u = Some s ->
            JS.gt s threshold = true -> JS.gt best s = true)
        /\ (forall u s, In u after -> scoreOf query u = Some s -> JS.gt s best = false)
  end.

(** ** [server/routes/user.js] and [server/routes/faceRecognition.js] *)

(** [POST /api/user/face-register]; [userId] is [req.user.id]. *)
Definition user_faceRegister (db : collection) (userId : nat)
  (body_faceDescriptor : option descriptor) : JS.completion Response * collection :=
  match body_faceDescriptor with
  | None => (JS.Normal (error 400 "Face descriptor is required and must be an array"), db)
  | Some faceDescriptor =>
      match findByIdAndUpdate db userId (fun u => set_faceDescriptor u (Some faceDescriptor)) with
      | (db', Some user) =>
          (JS.Normal (mkResponse 200 (UserBody "Face registered successfully" (profileView user))), db')
      | (db', None) => (JS.Throw "Cannot read properties of null", db')
      end
  end.

(** What a field of the body holds where an array of numbers is expected. *)
Inductive Field : Type :=
| Falsy                        (* absent, [null], [0], the empty string, ... *)
| NotArray                     (* any other value that is not an array *)
| Vector (d : descriptor).

(** [POST /api/face-recognition/compare].  The scorer does not throw on
    arrays of numbers, so the [catch] of the route is never entered. *)
Definition compare (descriptor1 descriptor2 : Field) : Response :=
  match descriptor1, descriptor2 with
  | Falsy, _ | _, Falsy => error 400 "Both face descriptors are required"
  | NotArray, _ | _, NotArray => error 400 "Face descriptors must be arrays"
  | Vector d1, Vector d2 =>
      let similarity := calculateFaceSimilarity d1 d2 in
      mkResponse 200 (CompareBody similarity (JS.gt similarity threshold) threshold)
  end.

Record FaceData : Type := mkFaceData {
  count : nat;
  fd_descriptor : descriptor;
  confidence : JS.number
}.

(** [simulateFaceDetection]: [random i] is the value of the [i]-th call of
    [Math.random()].  The literals 0.95 and 0.05 are the doubles written
    here. *)
Definition simulateFaceDetection (random : nat -> JS.number) : FaceData :=
  let descriptor := map (fun i => (random i * 2 - 1)%float) (seq 0 128) in
  mkFaceData 1 descriptor
    (0x1.e666666666666p-1 + random 128%nat * 0x1.999999999999ap-5)%float.

(** [POST /api/face-recognition/register]; [file] is [req.file.path]. *)
Definition face_register (db : collection) (userId : nat) (file : option string)
  (random : nat -> JS.number) : JS.completion Response * collection :=
  match file with
  | None => (JS.Normal (error 400 "No image file provided"), db)
  | Some path =>
      let faceData := simulateFaceDetection random in
      if Nat.eqb (count faceData) 0
      then (JS.Normal (error 400 "No face detected in the image"), db)
      else if Nat.ltb 1 (count faceData)
      then (JS.Normal (error 400
              "Multiple faces detected. Please upload an image with only one face."), db)
      else
        match findByIdAndUpdate db userId
                (fun u => set_avatar (set_faceDescriptor u (Some (fd_descriptor faceData)))
                            (Some path)) with
        | (db', Some user) =>
            (JS.Normal (mkResponse 200
               (FaceRegisteredBody "Face registered successfully" (profileView user)
                  (confidence faceData) (List.length (fd_descriptor faceData)))), db')
        | (db', None) => (JS.Throw "Cannot read properties of null", db')
        end
  end.

(** ** Progress tracking: [userSchema.methods.updateProgress] *)

Section ProgressTracking.
Context `{External}.

Definition msPerDay : Z := 86400000.

(** [new Date(t).toDateString()] names the local calendar day of [t]; two
    dates have the same string exactly when they fall on the same local day,
    so the string is represented by the number of that day. *)
Definition toDateString (t : Z) : Z := ((t + timezoneOffset) / msPerDay)%Z.

(** [user.updateProgress(isCorrect)] followed by its [save()].  [now] is the
    instant read by the calls of [new Date()] in the method. *)
Definition updateProgress (user : User) (now : Z) (isCorrect : JS.value) : User :=
  let p := progress user in
  let total := (totalQuestions p + 1)%Z in
  let correct := if JS.truthy isCorrect then (correctAnswers p + 1)%Z else correctAnswers p in
  let pts := if JS.truthy isCorrect then (points p + 10)%Z else points p in
  let today := toDateString now in
  let lastActive := toDateString (lastActiveDate p) in
  let streak :=
    if (today =? lastActive)%Z then streakDays p
    else if (lastActiveDate p + 86400000 >=? now)%Z then (streakDays p + 1)%Z
    else 1%Z in
  set_progress user (mkProgress total correct streak now pts).

(** [updateProgress] called once per verdict, at the given instants. *)
Definition updateProgressAll (user : User) (verdicts : list (Z * JS.value)) : User :=
  fold_left (fun u v => updateProgress u (fst v) (snd v)) verdicts user.

Definition getStats (user : User) : Stats :=
  let p := progress user in
  mkStats (totalQuestions p) (correctAnswers p) (streakDays p) (points p) (lastActiveDate p).

End ProgressTracking.

(** ** [server/routes/question.js] *)

Section QuestionRoutes.
Context `{External}.

(** A prompt is a fixed template filled with the given values; it is
    represented by the template and the values. *)
Inductive Prompt : Type :=
| GenerationPrompt (subject topic questionType difficulty count : JS.value)
| CodeEvaluationPrompt (question userAnswer correctAnswer : JS.value)
| SQLEvaluationPrompt (question userAnswer correctAnswer : JS.value).

(** [model.generateContent(prompt)] and [response.text()]: the text of the
    reply, or a rejection. *)
Definition Generator := Prompt -> JS.completion string.

Definition createPrompt (subject topic questionType difficulty count : JS.value) : Prompt :=
  GenerationPrompt subject topic questionType difficulty count.

Definition createCodeEvaluationPrompt (question userAnswer correctAnswer : JS.value) : Prompt :=
  CodeEvaluationPrompt question userAnswer correctAnswer.

Definition createSQLEvaluationPrompt (question userAnswer correctAnswer : JS.value) : Prompt :=
  SQLEvaluationPrompt question userAnswer correctAnswer.

(** The suffix of [s] that starts at the first [c]. *)
Fixpoint fromFirst (c : ascii) (s : string) : option string :=
  match s with
  | EmptyString => None
  | String a rest => if Ascii.eqb a c then Some s else fromFirst c rest
  end.

(** The prefix of [s] that ends at the last [c]. *)
Fixpoint upToLast (c : ascii) (s : string) : option string :=
  match s with
  | EmptyString => None
  | String a rest =>
      match upToLast c rest with
      | Some p => Some (String a p)
      | None => if Ascii.eqb a c then Some (String a EmptyString) else None
      end
  end.

(** [c] occurs in [s]. *)
Fixpoint occurs (c : ascii) (s : string) : bool :=
  match s with
  | EmptyString => false
  | String a rest => (Ascii.eqb a c || occurs c rest)%bool
  end.

(** [text.match(/\{[\s\S]*\}/)] and [text.match(/\[[\s\S]*\]/)]: the match
    starts at the first opening character that has a closing one after it,
    which is the first opening character if any does, and the greedy star
    runs to the last closing character. *)
Definition matchBetween (opening closing : ascii) (text : string) : option string :=
  match fromFirst opening text with
  | Some (String o rest) =>
      match upToLast closing rest with
      | Some p => Some (String o p)
      | None => None
      end
  | _ => None
  end.

(** [JSON.parse(s)] *)
Definition parse (s : string) : JS.completion JS.value :=
  match JSON_parse s with
  | Some v => JS.Normal v
  | None => JS.Throw "Unexpected token in JSON"
  end.

Record Evaluation : Type := mkEvaluation {
  isCorrect : JS.value;
  feedback : JS.value;
  explanation : JS.value
}.

(** What stands between [try {] and [} catch] in the two parsers. *)
Definition parseEvaluation_try (unable : string) (text : string) : JS.completion Evaluation :=
  match matchBetween "{" "}" text with
  | None =>
      JS.Normal (mkEvaluation (JS.Bool false) (JS.Str unable) (JS.Str "Evaluation failed"))
  | Some jsonMatch =>
      result <- parse jsonMatch ;;
      c <- JS.get result "isCorrect" ;;
      f <- JS.get result "feedback" ;;
      e <- JS.get result "explanation" ;;
      JS.Normal (mkEvaluation (JS.or_else c (JS.Bool false))
                   (JS.or_else f (JS.Str "No feedback provided"))
                   (JS.or_else e (JS.Str "No explanation provided")))
  end.

(** [parseCodeEvaluation] *)
Definition parseCodeEvaluation (text : string) : JS.completion Evaluation :=
  JS.try_catch (parseEvaluation_try "Unable to evaluate answer" text)
    (fun _ => JS.Normal (mkEvaluation (JS.Bool false) (JS.Str "Error evaluating answer")
                           (JS.Str "Evaluation failed due to parsing error"))).

(** [parseSQLEvaluation] *)
Definition parseSQLEvaluation (text : string) : JS.completion Evaluation :=
  JS.try_catch (parseEvaluation_try "Unable to evaluate SQL answer" text)
    (fun _ => JS.Normal (mkEvaluation (JS.Bool false) (JS.Str "Error evaluating SQL answer")
                           (JS.Str "Evaluation failed due to parsing error"))).

Definition decimal (n : Z) : string :=
  NilZero.string_of_int (Z.to_int n).

(** The callback of [questions.map] in [parseGeneratedQuestions]. *)
Definition cleanQuestion (now : Z) (questionType : JS.value) (index : nat) (q : JS.value)
  : JS.completion Question :=
  i <- JS.get q "id" ;;
  t <- JS.get q "question" ;;
  o <- JS.get q "options" ;;
  a <- JS.get q "correctAnswer" ;;
  e <- JS.get q "explanation" ;;
  l <- JS.get q "language" ;;
  s <- JS.get q "starterCode" ;;
  c <- JS.get q "testCases" ;;
  JS.Normal
    (mkQuestion
       (JS.or_else i (JS.Str ("q_" ++ decimal now ++ "_" ++ decimal (Z.of_nat index))))
       t (JS.or_else o (JS.Arr [])) a (JS.or_else e (JS.Str ""))
       (JS.or_else l (JS.Str "python")) (JS.or_else s (JS.Str ""))
       (JS.or_else c (JS.Arr [])) questionType).

Fixpoint mapQuestions (now : Z) (questionType : JS.value) (index : nat) (items : list JS.value)
  : JS.completion (list Question) :=
  match items with
  | [] => JS.Normal []
  | q :: rest =>
      x <- cleanQuestion now questionType index q ;;
      xs <- mapQuestions now questionType (S index) rest ;;
      JS.Normal (x :: xs)
  end.

(** [parseGeneratedQuestions]; [questions.map] is a TypeError unless
    [questions] is an array. *)
Definition parseGeneratedQuestions (now : Z) (text : string) (questionType : JS.value)
  : JS.completion (list Question) :=
  JS.try_catch
    match matchBetween "[" "]" text with
    | None => JS.Throw "No valid JSON found in response"
    | Some jsonMatch =>
        questions <- parse jsonMatch ;;
        match questions with
        | JS.Arr items => mapQuestions now questionType 0 items
        | _ => JS.Throw "questions.map is not a function"
        end
    end
    (fun _ => JS.Throw "Failed to parse generated questions").

Record GenerateBody : Type := mkGenerateBody {
  gen_subject : JS.value;
  gen_topic : JS.value;
  gen_questionType : JS.value;
  gen_difficulty : JS.value;
  gen_count : JS.value
}.

Definition serverError (message : string) (thrown : string) : Response :=
  mkResponse 500 (ErrorBody message [] (if development then Some thrown else None)).

(** [POST /api/questions/generate]; [user] is [req.user]. *)
Definition generate (user : User) (now : Z) (errors : list string) (b : GenerateBody)
  (generateContent : Generator) : Response * User :=
  if negb (isEmpty errors) then (validationFailed errors, user)
  else
    let count := match gen_count b with JS.Undefined => JS.Num 5%float | c => c end in
    let prompt :=
      createPrompt (gen_subject b) (gen_topic b) (gen_questionType b) (gen_difficulty b) count in
    match (text <- generateContent prompt ;;
           parseGeneratedQuestions now text (gen_questionType b)) with
    | JS.Normal questions =>
        let user := updateProgress user now (JS.Bool false) in
        (mkResponse 200
           (GeneratedBody "Questions generated successfully" questions
              (gen_subject b) (gen_topic b) (gen_questionType b) (gen_difficulty b)
              (List.length questions) now (_id user)),
         user)
    | JS.Throw m => (serverError "Failed to generate questions. Please try again." m, user)
    end.

Record ValidateBody : Type := mkValidateBody {
  val_questionId : JS.value;
  val_answer : JS.value;
  val_questionType : JS.value;
  val_question : JS.value;
  val_correctAnswer : JS.value
}.

(** The [switch (questionType)] of validate-answer: the verdict, and the
    prompts that were sent to the generative API on the way.  In the ['sql']
    case [model] is the [const] declared under [case 'coding'], which was not
    run: reading it is a ReferenceError, raised before any call is made. *)
Definition grade (b : ValidateBody) (generateContent : Generator)
  : JS.completion Evaluation * list Prompt :=
  if JS.strict_equals (val_questionType b) (JS.Str "MCQ") then
    let ok := JS.strict_equals (val_answer b) (val_correctAnswer b) in
    (JS.Normal (mkEvaluation (JS.Bool ok)
                  (JS.Str (if ok then "Correct!" else "Incorrect.")) (JS.Str "")), [])
  else if JS.strict_equals (val_questionType b) (JS.Str "coding") then
    let codePrompt :=
      createCodeEvaluationPrompt (val_question b) (val_answer b) (val_correctAnswer b) in
    (evaluation <- generateContent codePrompt ;; parseCodeEvaluation evaluation, [codePrompt])
  else if JS.strict_equals (val_questionType b) (JS.Str "sql") then
    (JS.Throw "Cannot access 'model' before initialization", [])
  else
    (JS.Normal (mkEvaluation (JS.Bool false)
                  (JS.Str "Answer validation not implemented for this question type.")
                  (JS.Str "")), []).

(** [POST /api/questions/validate-answer]; [user] is [req.user]. *)
Definition validateAnswer (user : User) (now : Z) (errors : list string) (b : ValidateBody)
  (generateContent : Generator) : Response * User * list Prompt :=
  if negb (isEmpty errors) then (validationFailed errors, user, [])
  else
    match grade b generateContent with
    | (JS.Normal v, sent) =>
        let user := updateProgress user now (isCorrect v) in
        (mkResponse 200 (GradedBody (isCorrect v) (feedback v) (explanation v) (getStats user)),
         user, sent)
    | (JS.Throw m, sent) =>
        (serverError "Failed to validate answer. Please try again." m, user, sent)
    end.

(** One request to validate-answer with everything it depends on. *)
Record GradingCall : Type := mkGradingCall {
  call_now : Z;
  call_errors : list string;
  call_body : ValidateBody;
  call_generator : Generator
}.

(** Requests served one after the other on the same account. *)
Fixpoint validateAnswers (user : User) (calls : list GradingCall) : list Response * User :=
  match calls with
  | [] => ([], user)
  | c :: rest =>
      let '(r, user1, _) :=
        validateAnswer user (call_now c) (call_errors c) (call_body c) (call_generator c) in
      let '(rs, user2) := validateAnswers user1 rest in
      (r :: rs, user2)
  end.

(** The response carries a verdict. *)
Definition graded (r : Response) : bool :=
  match body r with GradedBody _ _ _ _ => true | _ => false end.

(** The response carries the verdict "correct". *)
Definition judgedCorrect (r : Response) : bool :=
  match body r with GradedBody c _ _ _ => JS.truthy c | _ => false end.

Definition countIf {A : Type} (p : A -> bool) (l : list A) : Z :=
  Z.of_nat (List.length (filter p l)).

End QuestionRoutes.

(** ** More routes of [server/routes/user.js] and
    [server/routes/faceRecognition.js] *)

(** The envelope [{ status, message?, errors?, data? }] of the routes below;
    [ok] is [status: 'success']. *)
Record Reply (D : Type) : Type := mkReply {
  code : nat;
  ok : bool;
  message : option string;
  details : list string;
  data : option D
}.
Arguments mkReply {D} code ok message details data.
Arguments code {D} r.
Arguments ok {D} r.
Arguments message {D} r.
Arguments details {D} r.
Arguments data {D} r.

Definition failure {D : Type} (c : nat) (m : string) : Reply D :=
  mkReply c false (Some m) [] None.

Definition set_password (u : User) (p : string) : User :=
  mkUser (_id u) (email u) p (firstName u) (lastName u) (avatar u)
    (faceDescriptor u) (preferences u) (progress u) (isActive u) (lastLogin u) (loginMethod u).

(** [User.findByIdAndDelete(id)] *)
Fixpoint findByIdAndDelete (db : collection) (id : nat) : collection :=
  match db with
  | [] => []
  | u :: rest => if Nat.eqb (_id u) id then rest else u :: findByIdAndDelete rest id
  end.

Section AccountRoutes.
Context `{External}.

(** [DELETE /api/user/face-register] *)
Definition user_faceRemove (db : collection) (userId : nat)
  : JS.completion (Reply PublicUser) * collection :=
  match findByIdAndUpdate db userId (fun u => set_faceDescriptor u None) with
  | (db', Some user) =>
      (JS.Normal (mkReply 200 true (Some "Face registration removed successfully"%string) []
                    (Some (profileView user))), db')
  | (db', None) => (JS.Throw "Cannot read properties of null", db')
  end.

(** [DELETE /api/face-recognition/register]; the file of the avatar is
    outside the model. *)
Definition face_remove (db : collection) (userId : nat)
  : JS.completion (Reply PublicUser) * collection :=
  match findById db userId with
  | None => (JS.Throw "Cannot read properties of null", db)
  | Some currentUser =>
      match findByIdAndUpdate db userId
              (fun u => set_avatar (set_faceDescriptor u None) None) with
      | (db', Some user) =>
          (JS.Normal (mkReply 200 true (Some "Face registration removed successfully"%string) []
                        (Some (profileView user))), db')
      | (db', None) => (JS.Throw "Cannot read properties of null", db')
      end
  end.

(** The [data] of [GET /api/face-recognition/status]. *)
Record FaceStatus : Type := mkFaceStatus {
  hasFaceRegistered : bool;
  hasAvatar : bool;
  avatarPath : option string
}.

(** [GET /api/face-recognition/status]: [!!user.faceDescriptor] holds for
    every array, the empty one too, and [!!user.avatar] for every string but
    the empty one. *)
Definition face_status (db : collection) (userId : nat) : JS.completion (Reply FaceStatus) :=
  match findById db userId with
  | None => JS.Throw "Cannot read properties of null"
  | Some user =>
      JS.Normal (mkReply 200 true None []
                   (Some (mkFaceStatus (hasFaceDescriptor user)
                            (match avatar user with
                             | Some a => nonEmpty a
                             | None => false
                             end)
                            (avatar user))))
  end.

(** [PUT /api/user/password].  [user.save()] validates the document with the
    new password in clear, and the pre-save hook hashes the password if the
    assignment changed it. *)
Definition changePassword (db : collection) (userId : nat) (salt : string)
  (errors : list string) (currentPassword newPassword : string)
  : JS.completion (Reply unit) * collection :=
  if negb (isEmpty errors)
  then (JS.Normal (mkReply 400 false (Some "Validation failed"%string) errors None), db)
  else
    match findById db userId with
    | None => (JS.Throw "Cannot read properties of null", db)
    | Some user =>
        if negb (bcrypt_compare currentPassword (password user))
        then (JS.Normal (failure 400 "Current password is incorrect"), db)
        else if negb (validateUser (set_password user newPassword))
        then (JS.Throw "User validation failed", db)
        else
          let stored :=
            if String.eqb newPassword (password user) then user
            else set_password user (bcrypt_hash newPassword salt) in
          (JS.Normal (mkReply 200 true (Some "Password changed successfully"%string) [] None),
           save stored db)
    end.

(** [DELETE /api/user/account] *)
Definition deleteAccount (db : collection) (userId : nat) : Reply unit * collection :=
  (mkReply 200 true (Some "Account deleted successfully"%string) [] None,
   findByIdAndDelete db userId).

End AccountRoutes.

(** ** The subject model ([subjectSchema] of [server/models/Subject.js]) *)

Module Topic.

Record t : Type := make {
  _id : nat;
  name : string;
  description : string;
  difficultyLevel : string;
  estimatedTime : JS.number;     (* minutes *)
  isActive : bool;
  questionCount : Z;
  tags : list string
}.

(** The keys of an [updateData] among the paths of the schema. *)
Record update : Type := makeUpdate {
  new_id : option nat;
  new_name : option string;
  new_description : option string;
  new_difficultyLevel : option string;
  new_estimatedTime : option JS.number;
  new_isActive : option bool;
  new_questionCount : option Z;
  new_tags : option (list string)
}.

Definition orKeep {A : Type} (new : option A) (old : A) : A :=
  match new with Some x => x | None => old end.

(** [Object.assign(topic, updateData)] *)
Definition assign (topic : t) (u : update) : t :=
  make (orKeep (new_id u) (_id topic)) (orKeep (new_name u) (name topic))
    (orKeep (new_description u) (description topic))
    (orKeep (new_difficultyLevel u) (difficultyLevel topic))
    (orKeep (new_estimatedTime u) (estimatedTime topic))
    (orKeep (new_isActive u) (isActive topic))
    (orKeep (new_questionCount u) (questionCount topic))
    (orKeep (new_tags u) (tags topic)).

End Topic.

Module Subject.

Record t : Type := make {
  _id : nat;
  name : string;
  description : string;
  icon : string;
  color : string;
  category : string;
  topics : list Topic.t;
  isActive : bool;
  difficultyLevels : list string;
  questionTypes : list string;
  totalQuestions : Z;
  popularity : Z;
  prerequisites : list nat
}.

Definition set_topics (s : t) (ts : list Topic.t) : t :=
  make (_id s) (name s) (description s) (icon s) (color s) (category s) ts (isActive s)
    (difficultyLevels s) (questionTypes s) (totalQuestions s) (popularity s) (prerequisites s).

Definition set_totalQuestions (s : t) (n : Z) : t :=
  make (_id s) (name s) (description s) (icon s) (color s) (category s) (topics s)
    (isActive s) (difficultyLevels s) (questionTypes s) n (popularity s) (prerequisites s).

(** The methods below give the document as the method leaves it; the
    [save()] they end with validates and stores that document. *)

(** [this.topics.id(topicId)]: the first topic with that [_id], or [null]. *)
Definition getTopic (s : t) (topicId : nat) : option Topic.t :=
  find (fun topic => Nat.eqb (Topic._id topic) topicId) (topics s).

Definition getActiveTopics (s : t) : list Topic.t :=
  filter Topic.isActive (topics s).

(** The virtual [activeTopicsCount]. *)
Definition activeTopicsCount (s : t) : nat :=
  List.length (filter Topic.isActive (topics s)).

(** The virtual [totalEstimatedTime]. *)
Definition totalEstimatedTime (s : t) : JS.number :=
  fold_left (fun total topic => (total + Topic.estimatedTime topic)%float)
    (filter Topic.isActive (topics s)) 0%float.

Definition addTopic (s : t) (topicData : Topic.t) : t :=
  set_topics s (topics s ++ [topicData]).

Fixpoint assignFirst (topicId : nat) (u : Topic.update) (ts : list Topic.t) : list Topic.t :=
  match ts with
  | [] => []
  | topic :: rest =>
      if Nat.eqb (Topic._id topic) topicId then Topic.assign topic u :: rest
      else topic :: assignFirst topicId u rest
  end.

Definition updateTopic (s : t) (topicId : nat) (updateData : Topic.update)
  : JS.completion t :=
  match getTopic s topicId with
  | None => JS.Throw "Topic not found"
  | Some topic => JS.Normal (set_topics s (assignFirst topicId updateData (topics s)))
  end.

Definition removeTopic (s : t) (topicId : nat) : t :=
  set_topics s (filter (fun topic => negb (Nat.eqb (Topic._id topic) topicId)) (topics s)).

Definition updateQuestionCount (s : t) : t :=
  set_totalQuestions s
    (fold_left (fun total topic => (total + Topic.questionCount topic)%Z) (topics s) 0%Z).

End Subject.

(** ** [server/routes/subject.js] *)

(** [subject] as the topic routes show it: id, name, description, icon and
    color. *)
Record SubjectSummary : Type := mkSubjectSummary {
  sum_id : nat;
  sum_name : string;
  sum_description : string;
  sum_icon : string;
  sum_color : string
}.

Definition summary (s : Subject.t) : SubjectSummary :=
  mkSubjectSummary (Subject._id s) (Subject.name s) (Subject.description s)
    (Subject.icon s) (Subject.color s).

(** [Subject.findById(id)] *)
Definition Subject_findById (subjects : list Subject.t) (id : nat) : option Subject.t :=
  find (fun s => Nat.eqb (Subject._id s) id) subjects.

(** [GET /api/subjects/:id] *)
Definition getSubject (subjects : list Subject.t) (id : nat) : Reply Subject.t :=
  match Subject_findById subjects id with
  | None => failure 404 "Subject not found"
  | Some subject =>
      if negb (Subject.isActive subject) then failure 404 "Subject is not available"
      else mkReply 200 true None [] (Some subject)
  end.

(** [GET /api/subjects/:id/topics] *)
Definition getTopics (subjects : list Subject.t) (id : nat)
  : Reply (list Topic.t * SubjectSummary) :=
  match Subject_findById subjects id with
  | None => failure 404 "Subject not found"
  | Some subject =>
      if negb (Subject.isActive subject) then failure 404 "Subject is not available"
      else mkReply 200 true None [] (Some (Subject.getActiveTopics subject, summary subject))
  end.

(** [GET /api/subjects/:id/topics/:topicId] *)
Definition getTopicOf (subjects : list Subject.t) (id topicId : nat)
  : Reply (Topic.t * SubjectSummary) :=
  match Subject_findById subjects id with
  | None => failure 404 "Subject not found"
  | Some subject =>
      if negb (Subject.isActive subject) then failure 404 "Subject is not available"
      else
        match Subject.getTopic subject topicId with
        | None => failure 404 "Topic not found"
        | Some topic =>
            if negb (Topic.isActive topic) then failure 404 "Topic is not available"
            else mkReply 200 true None [] (Some (topic, summary subject))
        end
  end.

(** ** Notions used in the statements *)

(** A finite number: neither NaN nor an infinity. *)
Definition finite (x : JS.number) : bool :=
  match Prim2SF x with
  | S754_zero _ | S754_finite _ _ _ => true
  | _ => false
  end.

(** [Math.max(0, 1 - 0 / Math.sqrt(n))], the score of two vectors of length
    [n] at distance 0. *)
Definition scoreAtDistanceZero (n : nat) : JS.number :=
  JS.Math_max 0%float
    (1 - JS.Math_sqrt 0%float / JS.Math_sqrt (PrimFloat.of_uint63 (Uint63.of_Z (Z.of_nat n))))%float.

(** Every stored email is what the schema's setters make of it. *)
Definition normalized (db : collection) : Prop :=
  Forall (fun u => email u = castEmail (email u)) db.

(** No two accounts have emails that are equal up to case. *)
Definition emailsUnique (db : collection) : Prop :=
  NoDup (map (fun u => JS.toLowerCase (email u)) db).

(** The number of components of the descriptor stored for account [id]. *)
Definition storedLength (db : collection) (id : nat) : option nat :=
  match findById db id with
  | Some u => option_map (@List.length JS.number) (faceDescriptor u)
  | None => None
  end.

(** ** Sample data *)

(** A test double for what lies outside the handlers, and a few accounts and
    requests.  Its [JSON_parse] knows the texts the examples use and rejects
    every other text. *)
Module Double.

Local Open Scope string_scope.

Definition quote : string := String "034" EmptyString.

(** The reply [{"isCorrect": true, "feedback": "Well done"}]. *)
Definition verdictText : string :=
  "{" ++ quote ++ "isCorrect" ++ quote ++ ": true, "
      ++ quote ++ "feedback" ++ quote ++ ": " ++ quote ++ "Well done" ++ quote ++ "}".

Definition parseTable : list (string * JS.value) :=
  [ ("[]", JS.Arr []);
    ("{}", JS.Obj []);
    (verdictText, JS.Obj [("isCorrect", JS.Bool true); ("feedback", JS.Str "Well done")]) ].

Fixpoint assoc (key : string) (table : list (string * JS.value)) : option JS.value :=
  match table with
  | [] => None
  | (k, v) :: rest => if String.eqb k key then Some v else assoc key rest
  end.

Definition endsWith (s suffix : string) : bool :=
  String.eqb (substring (String.length s - String.length suffix) (String.length suffix) s) suffix.

(** [s] cut at its last [c]: what stands before and what stands after. *)
Fixpoint splitAtLast (c : ascii) (s : string) : option (string * string) :=
  match s with
  | EmptyString => None
  | String a rest =>
      match splitAtLast c rest with
      | Some (before, after) => Some (String a before, after)
      | None => if Ascii.eqb a c then Some (EmptyString, rest) else None
      end
  end.

(** [s.split(c)[0]] *)
Fixpoint beforeFirst (c : ascii) (s : string) : string :=
  match s with
  | EmptyString => EmptyString
  | String a rest => if Ascii.eqb a c then EmptyString else String a (beforeFirst c rest)
  end.

Fixpoint without (c : ascii) (s : string) : string :=
  match s with
  | EmptyString => EmptyString
  | String a rest => if Ascii.eqb a c then without c rest else String a (without c rest)
  end.

(** [normalizeEmail()] with its default options, on the addresses the
    examples use: the domain and the local part are put in lower case; an
    address of gmail.com also loses what follows a [+] in its local part
    and the dots of the local part (none of the examples has two dots in a
    row); an address of yahoo.com loses what follows the last [-] of its
    local part, that [-] included. *)
Definition validator_normalizeEmail (e : string) : string :=
  match splitAtLast "@" e with
  | None => JS.toLowerCase e
  | Some (user, domain) =>
      let domain := JS.toLowerCase domain in
      let user :=
        if String.eqb domain "gmail.com"
        then JS.toLowerCase (without "." (beforeFirst "+" user))
        else if String.eqb domain "yahoo.com"
        then JS.toLowerCase
               match splitAtLast "-" user with
               | Some (before, _) => before
               | None => user
               end
        else JS.toLowerCase user in
      user ++ "@" ++ domain
  end.

#[export] Instance external : External := {|
  normalizeEmail := validator_normalizeEmail;
  bcrypt_hash := fun password salt => salt ++ password;
  bcrypt_compare := fun candidate hash => endsWith hash candidate;
  generateToken := fun id => "token-" ++ NilZero.string_of_uint (Nat.to_uint id);
  JSON_parse := fun s => assoc s parseTable;
  development := false;
  timezoneOffset := 0
|}.

(** [[0.1, 0.2, 0.3]] *)
Definition v123 : descriptor :=
  [0x1.999999999999ap-4%float; 0x1.999999999999ap-3%float; 0x1.3333333333333p-2%float].

Definition alice : User :=
  mkUser 1 "alice@example.com" "salt1Secret1" "Alice" "Archer" None (Some v123)
    (Preferences.create Preferences.empty) (freshProgress 0) true 0 ByEmail.

(** A deactivated account. *)
Definition bob : User :=
  mkUser 2 "bob@example.com" "salt2Secret2" "Bob" "Baker" None (Some v123)
    (Preferences.create Preferences.empty) (freshProgress 0) false 0 ByEmail.

Definition users : collection := [alice; bob].

(** A registration under Alice's email, written in another case. *)
Definition aliceAgain : RegisterBody :=
  mkRegisterBody "Alicia" "Archer" "Alice@Example.COM" "Secret1" None None.

(** Two registrations with addresses of yahoo.com. *)
Definition dee : RegisterBody :=
  mkRegisterBody "Dee" "Dunn" "dee-dee-99@yahoo.com" "Secret4" None None.

Definition deeAgain : RegisterBody :=
  mkRegisterBody "Dee" "Dunn" "dee-dee@yahoo.com" "Secret5" None None.

(** Two registrations with addresses of gmail.com, and one whose
    preferences name a learning pace the schema does not know. *)
Definition john : RegisterBody :=
  mkRegisterBody "John" "Doe" "John.Doe@Gmail.com" "Secret6" None None.

Definition johnAgain : RegisterBody :=
  mkRegisterBody "John" "Doe" "johndoe@gmail.com" "Secret6" None None.

Definition wanda : RegisterBody :=
  mkRegisterBody "Wanda" "Ward" "wanda@example.com" "Secret7"
    (Some (Preferences.makeGiven None (Some "warp") None None None)) None.

Definition carol : RegisterBody :=
  mkRegisterBody "Carol" "Cook" "Carol@Example.com" "Secret3" None
    (Some [0x1p-1%float]).

(** Alice with a streak of five days, last active on 1 January 1970 at
    08:00 UTC. *)
Definition aliceOnStreak : User :=
  set_progress alice (mkProgress 12 9 5 28800000 90).

(** 2 January 1970 at 07:00 UTC and at 20:00 UTC. *)
Definition nextDayEarly : Z := 111600000.
Definition nextDayLate : Z := 158400000.

Definition mcq (answer correctAnswer : string) : ValidateBody :=
  mkValidateBody (JS.Str "q1") (JS.Str answer) (JS.Str "MCQ") (JS.Str "Which one?")
    (JS.Str correctAnswer).

Definition coding : ValidateBody :=
  mkValidateBody (JS.Str "q2") (JS.Str "return 1") (JS.Str "coding") (JS.Str "Return one")
    (JS.Str "return 1").

(** A generative API that is down, and one that replies with [text]. *)
Definition down : Generator := fun _ => JS.Throw "fetch failed".
Definition replies (text : string) : Generator := fun _ => JS.Normal text.

(** Three requests in a row: a right choice, a wrong choice, and a coding
    answer sent while the generative API is down. *)
Definition threeCalls : list GradingCall :=
  [ mkGradingCall 1000 [] (mcq "A" "A") down;
    mkGradingCall 2000 [] (mcq "B" "A") down;
    mkGradingCall 3000 [] coding down ].

(** Two answers to sql questions, sent while the generative API is up and
    would call any answer correct. *)
Definition sql : ValidateBody :=
  mkValidateBody (JS.Str "q4") (JS.Str "SELECT 1") (JS.Str "sql") (JS.Str "Select one")
    (JS.Str "SELECT 1").

Definition sqlCalls : list GradingCall :=
  [ mkGradingCall 1000 [] sql (replies verdictText);
    mkGradingCall 2000 [] sql (replies verdictText) ].

Definition generateBody : GenerateBody :=
  mkGenerateBody (JS.Str "Mathematics") (JS.Str "Algebra") (JS.Str "MCQ")
    (JS.Str "beginner") (JS.Num 5%float).

End Double.

(** The verdict the code parser extracts from a reply. *)
Definition isCorrect_of_reply (text : string) : option JS.value :=
  match parseCodeEvaluation (H := Double.external) text with
  | JS.Normal v => Some (isCorrect v)
  | JS.Throw _ => None
  end.

(** The counters of a progress aggregate fit together: the correct answers
    are among the questions, and each of them is worth 10 points. *)
Definition consistent (p : Progress) : Prop :=
  (0 <= correctAnswers p <= totalQuestions p)%Z /\ points p = (10 * correctAnswers p)%Z.

(** The item of a reply lacks an [id] (or has a falsy one). *)
Definition lacksId (item : JS.value) : bool :=
  match JS.get item "id" with
  | JS.Normal i => negb (JS.truthy i)
  | JS.Throw _ => false
  end.

(** A value whose properties can be read: anything but [null] and
    [undefined]. *)
Definition readable (v : JS.value) : bool :=
  match v with
  | JS.Undefined | JS.Null => false
  | _ => true
  end.

(** The id that [parseGeneratedQuestions] makes up for the item at [index]. *)
Definition generatedId (now : Z) (index : nat) : JS.value :=
  JS.Str ("q_" ++ decimal now ++ "_" ++ decimal (Z.of_nat index)).

(** The [isMatch] of an answer of the compare route. *)
Definition isMatch (r : Response) : bool :=
  match body r with
  | CompareBody _ m _ => m
  | _ => false
  end.

(** The compare route calls [query] and the descriptor stored for [user] a
    match. *)
Definition matchesStored (query : descriptor) (user : User) : bool :=
  match faceDescriptor user with
  | Some stored => isMatch (compare (Vector query) (Vector stored))
  | None => false
  end.

(** The strings a regular expression matches in full. *)
Inductive matches : Regex.regex -> string -> Prop :=
| MatchEps : matches Regex.Eps EmptyString
| MatchChr (p : ascii -> bool) (c : ascii) :
    p c = true -> matches (Regex.Chr p) (String c EmptyString)
| MatchSeq (r s : Regex.regex) (u v : string) :
    matches r u -> matches s v -> matches (Regex.Seq r s) (u ++ v)
| MatchAltL (r s : Regex.regex) (u : string) : matches r u -> matches (Regex.Alt r s) u
| MatchAltR (r s : Regex.regex) (u : string) : matches s u -> matches (Regex.Alt r s) u
| MatchStarNil (r : Regex.regex) : matches (Regex.Star r) EmptyString
| MatchStarCons (r : Regex.regex) (u v : string) :
    matches r u -> matches (Regex.Star r) v -> matches (Regex.Star r) (u ++ v).

(** Every character class of [r] lies within [allowed]. *)
Fixpoint within (allowed : ascii -> bool) (r : Regex.regex) : Prop :=
  match r with
  | Regex.Empty | Regex.Eps => True
  | Regex.Chr p => forall c, p c = true -> allowed c = true
  | Regex.Seq a b | Regex.Alt a b => within allowed a /\ within allowed b
  | Regex.Star a => within allowed a
  end.

(** Every character of [s] satisfies [p]. *)
Fixpoint every (p : ascii -> bool) (s : string) : bool :=
  match s with
  | EmptyString => true
  | String c rest => (p c && every p rest)%bool
  end.

(** A word character, a dot or a dash: what an email is made of, the [@]
    apart. *)
Definition emailChar (c : ascii) : bool := (Regex.word c || Regex.dot_or_dash c)%bool.

(** More sample data: a vector of 128 halves, a subject with three topics
    of which the second is inactive, and an inactive subject. *)
Module Sample.

Local Open Scope string_scope.

Definition halves : descriptor := repeat 0x1p-1%float 128.

Definition limits : Topic.t :=
  Topic.make 11 "Limits" "Limits of sequences" "beginner" 30%float true 4 ["calculus"].

Definition series : Topic.t :=
  Topic.make 12 "Series" "Convergence of series" "advanced" 45%float false 7 [].

Definition integrals : Topic.t :=
  Topic.make 13 "Integrals" "Riemann integrals" "intermediate" 60%float true 5 [].

Definition calculus : Subject.t :=
  Subject.make 1 "Calculus" "Differential and integral calculus" "book" "#3B82F6"
    "Mathematics" [limits; series; integrals] true ["beginner"] ["MCQ"] 0 3 [].

Definition retired : Subject.t :=
  Subject.make 2 "Alchemy" "No longer taught" "book" "#3B82F6" "Science" [limits] false
    [] [] 0 0 [].

Definition subjects : list Subject.t := [calculus; retired].

(** The reply [Here you are: [{"question": "1 + 1?"}, {"id": "a7"}, {}]]
    and the parse of its bracketed part. *)
Definition questionsJSON : string :=
  "[{" ++ Double.quote ++ "question" ++ Double.quote ++ ": "
       ++ Double.quote ++ "1 + 1?" ++ Double.quote ++ "}, {"
       ++ Double.quote ++ "id" ++ Double.quote ++ ": "
       ++ Double.quote ++ "a7" ++ Double.quote ++ "}, {}]".

Definition questionsText : string := "Here you are: " ++ questionsJSON.

Definition questionItems : list JS.value :=
  [JS.Obj [("question", JS.Str "1 + 1?")]; JS.Obj [("id", JS.Str "a7")]; JS.Obj []].

(** A topic update that deactivates the topic. *)
Definition deactivate : Topic.update :=
  Topic.makeUpdate None None None None None (Some false) None None.

(** The test double above, with a [JSON_parse] that knows one more text. *)
#[export] Instance external : External := {|
  normalizeEmail := Double.validator_normalizeEmail;
  bcrypt_hash := bcrypt_hash (External := Double.external);
  bcrypt_compare := bcrypt_compare (External := Double.external);
  generateToken := generateToken (External := Double.external);
  JSON_parse := fun s =>
    if String.eqb s questionsJSON then Some (JS.Arr questionItems)
    else JSON_parse (External := Double.external) s;
  development := false;
  timezoneOffset := 0
|}.

End Sample.

(** * Properties *)

(** ** Order of binary64 numbers *)

Ltac sf_order :=
  repeat match goal with
  | |- context [Pos.compare_cont Eq ?a ?b] =>
      change (Pos.compare_cont Eq a b) with (Pos.compare a b)
  | H : context [Pos.compare_cont Eq ?a ?b] |- _ =>
      change (Pos.compare_cont Eq a b) with (Pos.compare a b) in H
  end;
  repeat match goal with
  | H : context [Z.compare ?a ?b] |- _ =>
      destruct (Z.compare_spec a b); simpl in H; try discriminate H
  | H : context [Pos.compare ?a ?b] |- _ =>
      destruct (Pos.compare_spec a b); simpl in H; try discriminate H
  end;
  repeat match goal with
  | |- context [Z.compare ?a ?b] => destruct (Z.compare_spec a b); simpl
  | |- context [Pos.compare ?a ?b] => destruct (Pos.compare_spec a b); simpl
  end;
  try reflexivity; try discriminate; try lia.

Lemma SFltb_trans (x y z : spec_float) :
  SFltb x y = true -> SFltb y z = true -> SFltb x z = true.
Proof.
  unfold SFltb.
  destruct x as [[]|[]| |[] mx ex], y as [[]|[]| |[] my ey], z as [[]|[]| |[] mz ez];
    simpl; intros H1 H2; try reflexivity; try discriminate; sf_order.
Qed.

Lemma SFltb_not_lt_trans (x y z : spec_float) :
  x <> S754_nan -> SFltb y x = false -> SFltb y z = true -> SFltb x z = true.
Proof.
  unfold SFltb.
  destruct x as [[]|[]| |[] mx ex], y as [[]|[]| |[] my ey], z as [[]|[]| |[] mz ez];
    simpl; intros Hn H1 H2; try reflexivity; try discriminate; try congruence; sf_order.
Qed.

Lemma SFltb_right_not_nan (x y : spec_float) : SFltb x y = true -> y <> S754_nan.
Proof.
  intros H ->. unfold SFltb in H. destruct x as [[]|[]| |[] mx ex]; discriminate.
Qed.

Lemma gt_trans (a b c : JS.number) :
  JS.gt a b = true -> JS.gt b c = true -> JS.gt a c = true.
Proof.
  unfold JS.gt. rewrite !ltb_spec. intros Hab Hbc.
  exact (SFltb_trans _ _ _ Hbc Hab).
Qed.

(** If [x] is a number, [x > y] fails and [z > y] holds, then [z > x]. *)
Lemma gt_not_gt_trans (w x y z : JS.number) :
  JS.gt x w = true -> JS.gt x y = false -> JS.gt z y = true -> JS.gt z x = true.
Proof.
  unfold JS.gt. rewrite !ltb_spec. intros Hw Hxy Hzy.
  apply SFltb_not_lt_trans with (y := Prim2SF y); try assumption.
  exact (SFltb_right_not_nan _ _ Hw).
Qed.

Lemma gt_threshold_gt_zero (s : JS.number) :
  JS.gt s threshold = true -> JS.gt s 0%float = true.
Proof.
  intros Hs. apply gt_trans with (b := threshold); [exact Hs | reflexivity].
Qed.

(** ** The similarity scorers *)

Lemma calculateFaceSimilarity_eq (d1 d2 : descriptor) :
  calculateFaceSimilarity d1 d2 = calculateSimilarity d1 d2.
Proof. reflexivity. Qed.

(** Vectors of different lengths score exactly 0. *)
Lemma calculateSimilarity_length_mismatch (d1 d2 : descriptor) :
  List.length d1 <> List.length d2 -> calculateSimilarity d1 d2 = 0%float.
Proof.
  intros Hlen. unfold calculateSimilarity.
  destruct (Nat.eqb_spec (List.length d1) (List.length d2)) as [E | _]; [contradiction | reflexivity].
Qed.

(** Vectors of the same length score
    [max(0, 1 - sqrt(sum of squared differences) / sqrt(length))]. *)
Lemma calculateSimilarity_same_length (d1 d2 : descriptor) :
  List.length d1 = List.length d2 ->
  calculateSimilarity d1 d2 =
  JS.Math_max 0%float
    (1 - JS.Math_sqrt (fold_left addSquaredDiff (combine d1 d2) 0%float)
         / JS.Math_sqrt (JS.length_number d1))%float.
Proof.
  intros Hlen. unfold calculateSimilarity. rewrite Hlen, Nat.eqb_refl. reflexivity.
Qed.

Lemma sub_self_finite (x : JS.number) : finite x = true -> (x - x)%float = 0%float.
Proof.
  unfold finite. intros Hx. apply Prim2SF_inj. rewrite sub_spec.
  destruct (Prim2SF x) as [[]|[]| |s m e]; try discriminate; try reflexivity.
  unfold SF64sub, SFsub. rewrite Z.sub_diag. reflexivity.
Qed.

Lemma sumSquaredDiff_self (v : descriptor) :
  forallb finite v = true -> fold_left addSquaredDiff (combine v v) 0%float = 0%float.
Proof.
  induction v as [| x v IH]; simpl; intros Hv; [reflexivity |].
  apply andb_true_iff in Hv. destruct Hv as [Hx Hv].
  unfold addSquaredDiff at 2. simpl. rewrite (sub_self_finite x Hx).
  change (0 + 0 * 0)%float with 0%float. exact (IH Hv).
Qed.

Lemma scoreAtDistanceZero_bounded (n : nat) :
  (1 <= n <= 4096)%nat -> scoreAtDistanceZero n = 1%float.
Proof.
  intros Hn.
  assert (Hall : forallb (fun k => PrimFloat.Leibniz.eqb (scoreAtDistanceZero k) 1%float)
                   (seq 1 4096) = true) by (vm_compute; reflexivity).
  rewrite forallb_forall in Hall.
  apply FloatAxioms.Leibniz.eqb_spec. apply Hall. apply in_seq. lia.
Qed.

(** A vector of finite numbers with between 1 and 4096 components (a face
    descriptor has 128) is at similarity 1 from itself. *)
Lemma calculateSimilarity_self (v : descriptor) :
  forallb finite v = true -> (1 <= List.length v <= 4096)%nat ->
  calculateSimilarity v v = 1%float.
Proof.
  intros Hv Hn. rewrite calculateSimilarity_same_length by reflexivity.
  rewrite (sumSquaredDiff_self v Hv). exact (scoreAtDistanceZero_bounded _ Hn).
Qed.

Lemma SFltb_asym (x y : spec_float) : SFltb x y = true -> SFltb y x = false.
Proof.
  unfold SFltb.
  destruct x as [[]|[]| |[] mx ex], y as [[]|[]| |[] my ey];
    simpl; intros H1; try reflexivity; try discriminate; sf_order.
Qed.

(** X1.  Whatever the vectors, the score is never below 0. *)
Lemma calculateSimilarity_not_negative (d1 d2 : descriptor) :
  PrimFloat.ltb (calculateSimilarity d1 d2) 0%float = false.
Proof.
  unfold calculateSimilarity.
  destruct (negb (Nat.eqb (List.length d1) (List.length d2))); [reflexivity |].
  cbv zeta. unfold JS.Math_max.
  set (y := (1 - _ / _)%float).
  destruct (PrimFloat.is_nan 0%float || PrimFloat.is_nan y)%bool; [reflexivity |].
  destruct (PrimFloat.ltb 0%float y) eqn:Hpos.
  - rewrite ltb_spec in Hpos |- *. exact (SFltb_asym _ _ Hpos).
  - destruct (PrimFloat.ltb y 0%float) eqn:Hneg; [reflexivity |].
    change (PrimFloat.is_zero 0%float && PrimFloat.get_sign 0%float)%bool with false.
    reflexivity.
Qed.

(** The scenarios of the specification: [[0.1, 0.2, 0.3]] against itself
    scores 1 and is a match; [[1, 0, 0]] against [[0, 1, 0]] scores
    0.18350341907227385, the double next to [1 - sqrt(2)/sqrt(3)], and is not
    a match. *)
Example compare_scenarios :
  compare (Vector Double.v123) (Vector Double.v123)
  = mkResponse 200 (CompareBody 1%float true threshold)
  /\ compare (Vector [1; 0; 0]%float) (Vector [0; 1; 0]%float)
     = mkResponse 200 (CompareBody 0x1.77d0a3fcf4f04p-3%float false threshold).
Proof. split; vm_compute; reflexivity. Qed.

(** C1, at the input where the code departs from it: two empty vectors have
    the same length, so the quotient is 0/0 and both scorers return NaN, which
    is neither 1 nor a number between 0 and 1.  The compare route accepts the
    two empty arrays and answers with that NaN. *)
Theorem calculateSimilarity_empty_is_NaN :
  calculateSimilarity [] [] = PrimFloat.nan
  /\ calculateFaceSimilarity [] [] = PrimFloat.nan
  /\ in_unit_interval (calculateSimilarity [] []) = false
  /\ PrimFloat.eqb (calculateSimilarity [] []) 1%float = false
  /\ compare (Vector []) (Vector [])
     = mkResponse 200 (CompareBody PrimFloat.nan false threshold).
Proof. repeat split; vm_compute; reflexivity. Qed.

(** ** The best-match selector of face-login *)

Lemma matchStep_scoreOf (query : descriptor) (st : option User * JS.number) (u : User) :
  matchStep query st u =
  match scoreOf query u with
  | Some s => if (JS.gt s threshold && JS.gt s (snd st))%bool then (Some u, s) else st
  | None => st
  end.
Proof.
  unfold matchStep, scoreOf. destruct (faceDescriptor u) as [stored |]; [| reflexivity].
  destruct (Nat.eqb (List.length stored) (List.length query)); reflexivity.
Qed.

Lemma selected_step (query : descriptor) (seen : list User) (st : option User * JS.number)
  (u : User) :
  selected query seen st -> selected query (seen ++ [u]) (matchStep query st u).
Proof.
  intros Hst. rewrite matchStep_scoreOf.
  destruct st as [[m |] best]; simpl in Hst |- *.
  - destruct Hst as (before & after & Hseen & Hm & Hbest & Hbefore & Hafter).
    destruct (scoreOf query u) as [s |] eqn:Hu.
    + destruct (JS.gt s threshold) eqn:Hthr; simpl.
      * destruct (JS.gt s best) eqn:Hgt; simpl.
        -- exists seen, []. repeat split; try assumption.
           ++ intros e s' He Hs' Hclear. subst seen.
              apply in_app_or in He. destruct He as [He | [He | He]].
              ** apply gt_trans with (b := best); [exact Hgt | eauto].
              ** subst e. rewrite Hm in Hs'. injection Hs' as <-. exact Hgt.
              ** apply gt_not_gt_trans with (w := threshold) (y := best); eauto.
           ++ intros e s' [].
        -- exists before, (after ++ [u]). repeat split; try assumption.
           ++ subst seen. rewrite <- app_assoc. reflexivity.
           ++ intros e s' He Hs'. apply in_app_or in He. destruct He as [He | [He | []]].
              ** eauto.
              ** subst e. rewrite Hu in Hs'. injection Hs' as <-. exact Hgt.
      * exists before, (after ++ [u]). repeat split; try assumption.
        -- subst seen. rewrite <- app_assoc. reflexivity.
        -- intros e s' He Hs'. apply in_app_or in He. destruct He as [He | [He | []]].
           ++ eauto.
           ++ subst e. rewrite Hu in Hs'. injection Hs' as <-.
              destruct (JS.gt s best) eqn:Hgt; [| reflexivity].
              rewrite (gt_trans _ _ _ Hgt Hbest) in Hthr. discriminate.
    + exists before, (after ++ [u]). repeat split; try assumption.
      * subst seen. rewrite <- app_assoc. reflexivity.
      * intros e s' He Hs'. apply in_app_or in He. destruct He as [He | [He | []]].
        -- eauto.
        -- subst e. rewrite Hu in Hs'. discriminate.
  - destruct Hst as [-> Hnone].
    destruct (scoreOf query u) as [s |] eqn:Hu.
    + destruct (JS.gt s threshold) eqn:Hthr; simpl.
      * rewrite (gt_threshold_gt_zero s Hthr). simpl.
        exists seen, []. repeat split; try assumption.
        -- intros e s' He Hs' Hclear. apply Hnone in He. unfold clears in He.
           rewrite Hs', Hclear in He. discriminate.
        -- intros e s' [].
      * split; [reflexivity |].
        intros e He. apply in_app_or in He. destruct He as [He | [He | []]]; [eauto |].
        subst e. unfold clears. rewrite Hu. exact Hthr.
    + split; [reflexivity |].
      intros e He. apply in_app_or in He. destruct He as [He | [He | []]]; [eauto |].
      subst e. unfold clears. rewrite Hu. reflexivity.
Qed.

Lemma selected_fold (query : descriptor) (users seen : list User)
  (st : option User * JS.number) :
  selected query seen st ->
  selected query (seen ++ users) (fold_left (matchStep query) users st).
Proof.
  revert seen st. induction users as [| u users IH]; intros seen st Hst; simpl.
  - rewrite app_nil_r. exact Hst.
  - replace (seen ++ u :: users) with ((seen ++ [u]) ++ users)
      by (rewrite <- app_assoc; reflexivity).
    apply IH. apply selected_step. exact Hst.
Qed.

Lemma bestMatch_selected (query : descriptor) (users : list User) :
  selected query users (bestMatch query users).
Proof.
  apply (selected_fold query users [] (None, 0%float)).
  split; [reflexivity | intros u []].
Qed.

Section FaceLoginProperties.
Context `{External}.

Lemma faceLogin_of_bestMatch (db : collection) (now : Z) (query : descriptor) :
  faceLogin db now (Some query) =
  match bestMatch query (find_withFaceDescriptor db) with
  | (None, _) => (error 401 "Face not recognized", db)
  | (Some m, best) =>
      if negb (isActive m) then (error 401 "Account is deactivated", db)
      else (mkResponse 200
              (AuthBody "Face login successful" (authView (set_login m now ByFace))
                 (generateToken (_id m)) (Some best)),
            save (set_login m now ByFace) db)
  end.
Proof.
  unfold faceLogin. destruct (bestMatch query (find_withFaceDescriptor db)) as [[m |] best];
    reflexivity.
Qed.

(** C2.  Face-login scores a stored vector only if its length is that of the
    query.  The account it selects has a score strictly above the threshold
    0.6; every account seen before it that clears the threshold scores
    strictly less, and no account seen after it scores more, so it is the
    first of the highest-scoring accounts.  An account is selected as soon as
    one clears the threshold, and when none does the answer is 401. *)
Theorem faceLogin_selects_best_match (db : collection) (now : Z) (query : descriptor) :
  let users := find_withFaceDescriptor db in
  (forall st u stored,
      faceDescriptor u = Some stored -> List.length stored <> List.length query ->
      matchStep query st u = st)
  /\ (forall m best,
      bestMatch query users = (Some m, best) ->
      exists before after,
        users = before ++ m :: after
        /\ scoreOf query m = Some best
        /\ JS.gt best threshold = true
        /\ (forall u s, In u before -> scoreOf query u = Some s ->
            JS.gt s threshold = true -> JS.gt best s = true)
        /\ (forall u s, In u after -> scoreOf query u = Some s -> JS.gt s best = false))
  /\ (forall u, In u users -> clears query u = true ->
      exists m best, bestMatch query users = (Some m, best))
  /\ ((forall u, In u users -> clears query u = false) ->
      faceLogin db now (Some query) = (error 401 "Face not recognized", db))
  /\ (forall m best,
      bestMatch query users = (Some m, best) -> isActive m = true ->
      fst (faceLogin db now (Some query)) =
      mkResponse 200
        (AuthBody "Face login successful" (authView (set_login m now ByFace))
           (generateToken (_id m)) (Some best))).
Proof.
  intros users. pose proof (bestMatch_selected query users) as Hsel.
  repeat split.
  - intros st u stored Hu Hlen. unfold matchStep. rewrite Hu.
    destruct (Nat.eqb_spec (List.length stored) (List.length query)); [contradiction | reflexivity].
  - intros m best Hbest. rewrite Hbest in Hsel. exact Hsel.
  - intros u Hu Hclear. destruct (bestMatch query users) as [[m |] best].
    + exists m, best. reflexivity.
    + destruct Hsel as [_ Hnone]. rewrite (Hnone u Hu) in Hclear. discriminate.
  - intros Hnone. rewrite faceLogin_of_bestMatch. fold users.
    destruct (bestMatch query users) as [[m |] best]; [| reflexivity].
    destruct Hsel as (before & after & Husers & Hm & Hbest & _).
    assert (Hin : In m users) by (rewrite Husers; apply in_or_app; right; left; reflexivity).
    specialize (Hnone m Hin). unfold clears in Hnone. rewrite Hm, Hbest in Hnone. discriminate.
  - intros m best Hbest Hactive. rewrite faceLogin_of_bestMatch. fold users.
    rewrite Hbest, Hactive. reflexivity.
Qed.

End FaceLoginProperties.

(** C2 at work: Alice and Bob store the same descriptor; for that very
    descriptor the scan selects Alice, who comes first, at a similarity of 1,
    which clears the threshold. *)
Lemma faceLogin_selects_best_match_witness :
  bestMatch Double.v123 (find_withFaceDescriptor Double.users) = (Some Double.alice, 1%float)
  /\ scoreOf Double.v123 Double.alice = Some 1%float
  /\ JS.gt 1%float threshold = true.
Proof.
  split; [reflexivity |].
  destruct (proj1 (proj2 (faceLogin_selects_best_match (H := Double.external)
                            Double.users 5000 Double.v123))
              Double.alice 1%float eq_refl)
    as (before & after & _ & Hscore & Hclears & _).
  split; [exact Hscore | exact Hclears].
Defined.

(** ** The setters of [email] *)

Lemma lower_char_idem (c : ascii) : JS.lower_char (JS.lower_char c) = JS.lower_char c.
Proof. destruct c as [[] [] [] [] [] [] [] []]; reflexivity. Qed.

Lemma is_space_lower_char (c : ascii) : JS.is_space (JS.lower_char c) = JS.is_space c.
Proof. destruct c as [[] [] [] [] [] [] [] []]; reflexivity. Qed.

Lemma toLowerCase_idem (s : string) : JS.toLowerCase (JS.toLowerCase s) = JS.toLowerCase s.
Proof.
  induction s as [| c s IH]; simpl; [reflexivity |].
  rewrite lower_char_idem, IH. reflexivity.
Qed.

Lemma toLowerCase_trimStart (s : string) :
  JS.toLowerCase (JS.trimStart s) = JS.trimStart (JS.toLowerCase s).
Proof.
  induction s as [| c s IH]; simpl; [reflexivity |].
  rewrite is_space_lower_char. destruct (JS.is_space c); [exact IH | reflexivity].
Qed.

Lemma toLowerCase_trimEnd (s : string) :
  JS.toLowerCase (JS.trimEnd s) = JS.trimEnd (JS.toLowerCase s).
Proof.
  induction s as [| c s IH]; simpl; [reflexivity |].
  rewrite <- IH, is_space_lower_char.
  destruct (JS.trimEnd s) as [| a r]; simpl; [destruct (JS.is_space c) |]; reflexivity.
Qed.

Lemma toLowerCase_trim (s : string) : JS.toLowerCase (JS.trim s) = JS.trim (JS.toLowerCase s).
Proof. unfold JS.trim. rewrite toLowerCase_trimEnd, toLowerCase_trimStart. reflexivity. Qed.

Lemma trimEnd_idem (s : string) : JS.trimEnd (JS.trimEnd s) = JS.trimEnd s.
Proof.
  induction s as [| c s IH]; simpl; [reflexivity |].
  destruct (JS.trimEnd s) as [| a r] eqn:E.
  - destruct (JS.is_space c) eqn:Hc; simpl; [reflexivity | rewrite Hc; reflexivity].
  - change (JS.trimEnd (String c (String a r)))
      with (match JS.trimEnd (String a r) with
            | EmptyString => if JS.is_space c then EmptyString else String c EmptyString
            | String x y => String c (String x y)
            end).
    rewrite IH. reflexivity.
Qed.

Lemma trimStart_head (s : string) :
  JS.trimStart s = EmptyString
  \/ exists c r, JS.trimStart s = String c r /\ JS.is_space c = false.
Proof.
  induction s as [| c s IH]; simpl; [left; reflexivity |].
  destruct (JS.is_space c) eqn:Hc; [exact IH | right; exists c, s; split; [reflexivity | exact Hc]].
Qed.

Lemma trimStart_trimEnd_trimStart (s : string) :
  JS.trimStart (JS.trimEnd (JS.trimStart s)) = JS.trimEnd (JS.trimStart s).
Proof.
  destruct (trimStart_head s) as [-> | (c & r & -> & Hc)]; [reflexivity |].
  simpl. destruct (JS.trimEnd r); simpl; rewrite Hc; simpl; try rewrite Hc; reflexivity.
Qed.

Lemma trim_idem (s : string) : JS.trim (JS.trim s) = JS.trim s.
Proof.
  unfold JS.trim. rewrite trimStart_trimEnd_trimStart. apply trimEnd_idem.
Qed.

Lemma castEmail_idem (e : string) : castEmail (castEmail e) = castEmail e.
Proof.
  unfold castEmail. rewrite toLowerCase_trim, toLowerCase_idem. apply trim_idem.
Qed.

Lemma toLowerCase_castEmail (e : string) : JS.toLowerCase (castEmail e) = castEmail e.
Proof. unfold castEmail. rewrite toLowerCase_trim, toLowerCase_idem. reflexivity. Qed.

(** ** The collection *)

Lemma freshId_above (db : collection) (u : User) : In u db -> (_id u < freshId db)%nat.
Proof.
  unfold freshId. induction db as [| v db IH]; simpl; [intros [] |].
  intros [-> | Hu]; [lia | specialize (IH Hu); lia].
Qed.

Lemma save_other (u : User) (db : collection) :
  (forall v, In v db -> _id v <> _id u) -> save u db = db.
Proof.
  unfold save. induction db as [| v db IH]; simpl; intros Hdb; [reflexivity |].
  destruct (Nat.eqb_spec (_id v) (_id u)) as [E | _].
  - exfalso. apply (Hdb v); [left; reflexivity | exact E].
  - f_equal. apply IH. intros w Hw. apply Hdb. right. exact Hw.
Qed.

Lemma save_appended (u u' : User) (db : collection) :
  _id u' = _id u -> (forall v, In v db -> _id v <> _id u) ->
  save u' (db ++ [u]) = db ++ [u'].
Proof.
  intros Hid Hdb. unfold save. rewrite map_app. f_equal.
  - apply save_other. intros v Hv. rewrite Hid. apply Hdb. exact Hv.
  - simpl. rewrite Hid, Nat.eqb_refl. reflexivity.
Qed.

Lemma findById_save (db : collection) (id : nat) (u u' : User) :
  findById db id = Some u -> _id u' = _id u -> findById (save u' db) id = Some u'.
Proof.
  unfold findById, save. induction db as [| v db IH]; simpl; [discriminate |].
  intros Hfind Hid. destruct (Nat.eqb_spec (_id v) id) as [Ev | Nv].
  - injection Hfind as ->. rewrite Hid, Nat.eqb_refl. simpl.
    rewrite Hid, Ev, Nat.eqb_refl. reflexivity.
  - destruct (Nat.eqb_spec (_id v) (_id u')) as [Eu | Nu].
    + apply find_some in Hfind. destruct Hfind as [_ Hu].
      apply Nat.eqb_eq in Hu. congruence.
    + simpl. destruct (Nat.eqb_spec (_id v) id); [contradiction |]. apply IH; assumption.
Qed.

(** ** Registration and the uniqueness of emails *)

Section RegistrationProperties.
Context `{External}.

Lemma normalized_toLowerCase (db : collection) (u : User) :
  normalized db -> In u db -> JS.toLowerCase (email u) = email u.
Proof.
  intros Hnorm Hu. unfold normalized in Hnorm. rewrite Forall_forall in Hnorm.
  rewrite (Hnorm u Hu) at 1. rewrite toLowerCase_castEmail. symmetry. exact (Hnorm u Hu).
Qed.

Lemma findOne_email_same_up_to_case (db : collection) (u : User) (e : string) :
  normalized db -> In u db -> JS.toLowerCase (email u) = JS.toLowerCase e ->
  exists v, findOne_email db e = Some v.
Proof.
  intros Hnorm Hu Hsame. unfold findOne_email.
  destruct (find (fun w => String.eqb (email w) (castEmail e)) db) as [v |] eqn:Hfind.
  - exists v. reflexivity.
  - exfalso. pose proof (find_none _ _ Hfind u Hu) as Hne. simpl in Hne.
    apply String.eqb_neq in Hne. apply Hne.
    unfold normalized in Hnorm. rewrite Forall_forall in Hnorm.
    rewrite (Hnorm u Hu). unfold castEmail. rewrite Hsame. reflexivity.
Qed.

Lemma findOne_email_none (db : collection) (e : string) :
  normalized db -> findOne_email db e = None ->
  forall u, In u db -> JS.toLowerCase (email u) <> castEmail e.
Proof.
  intros Hnorm Hnone u Hu Hsame.
  pose proof (find_none _ _ Hnone u Hu) as Hne. simpl in Hne.
  apply String.eqb_neq in Hne. apply Hne.
  rewrite <- (normalized_toLowerCase db u Hnorm Hu). exact Hsame.
Qed.

(** What a successful registration does to the collection. *)
Lemma register_created (db db' : collection) (now : Z) (salt : string)
  (errors : list string) (b : RegisterBody) (r : Response) :
  register db now salt errors b = (JS.Normal r, db') -> status r = 201 ->
  findOne_email db (normalizeEmail (reg_email b)) = None
  /\ exists user,
       db' = db ++ [user]
       /\ _id user = freshId db
       /\ email user = castEmail (normalizeEmail (reg_email b))
       /\ faceDescriptor user = reg_faceDescriptor b.
Proof.
  unfold register. destruct errors as [| e errors]; simpl.
  - destruct (findOne_email db (normalizeEmail (reg_email b))) as [existing |] eqn:Hfind.
    + intros Hreg Hstatus. injection Hreg as <- <-. discriminate Hstatus.
    + unfold User_create.
      destruct (negb (validateUser _)); [discriminate |].
      destruct (existsb _ db); [discriminate |].
      intros Hreg _. injection Hreg as _ <-. split; [reflexivity |].
      eexists. split.
      { apply save_appended; [reflexivity |].
        intros v Hv. simpl. pose proof (freshId_above db v Hv). lia. }
      repeat split; reflexivity.
  - intros Hreg Hstatus. injection Hreg as <- <-. discriminate Hstatus.
Qed.

(** C9 as the code has it.  The email that registration looks up and stores
    is the one the sanitizer [normalizeEmail()] and the schema's setters make
    of the email of the request.  While every stored email is in the form
    the setters give it: a registration whose sanitized email equals that of
    an existing account up to case is answered with 400 and leaves the
    collection as it is; a registration answered with 201 found no such
    account, appends exactly one account under the sanitized email, and
    keeps the emails in that form and unique up to case; no other outcome
    changes the collection.  Where the sanitizer is blind to case and leaves
    the email of a stored account as it is, a request under that email, in
    any case, is answered with 400. *)
Theorem register_keeps_emails_unique (db : collection) (now : Z) (salt : string)
  (errors : list string) (b : RegisterBody) :
  normalized db ->
  ((exists u, In u db
              /\ JS.toLowerCase (email u) = JS.toLowerCase (normalizeEmail (reg_email b))) ->
   exists r, register db now salt errors b = (JS.Normal r, db) /\ status r = 400)
  /\ (forall r db',
      register db now salt errors b = (JS.Normal r, db') -> status r = 201 ->
      (forall u, In u db ->
         JS.toLowerCase (email u) <> JS.toLowerCase (normalizeEmail (reg_email b)))
      /\ (exists user,
            db' = db ++ [user] /\ email user = castEmail (normalizeEmail (reg_email b)))
      /\ normalized db'
      /\ (emailsUnique db -> emailsUnique db'))
  /\ (forall outcome db',
      register db now salt errors b = (outcome, db') ->
      db' = db \/ exists r, outcome = JS.Normal r /\ status r = 201)
  /\ ((forall e e', JS.toLowerCase e = JS.toLowerCase e' ->
         normalizeEmail e = normalizeEmail e') ->
      forall u, In u db ->
        castEmail (normalizeEmail (email u)) = email u ->
        JS.toLowerCase (email u) = JS.toLowerCase (reg_email b) ->
        exists r, register db now salt errors b = (JS.Normal r, db) /\ status r = 400).
Proof.
  intros Hnorm.
  assert (Hrefused : forall u, In u db ->
             email u = castEmail (normalizeEmail (reg_email b)) ->
             exists r, register db now salt errors b = (JS.Normal r, db) /\ status r = 400).
  { intros u Hu Hsame. unfold register.
    destruct errors as [| e errors]; simpl; [| eexists; split; reflexivity].
    destruct (findOne_email db (normalizeEmail (reg_email b))) as [v |] eqn:Hfind;
      [eexists; split; reflexivity |].
    exfalso. pose proof (find_none _ _ Hfind u Hu) as Hne. simpl in Hne.
    apply String.eqb_neq in Hne. exact (Hne Hsame). }
  split; [| split; [| split]].
  - intros (u & Hu & Hsame). apply (Hrefused u Hu).
    unfold normalized in Hnorm. rewrite Forall_forall in Hnorm.
    rewrite (Hnorm u Hu). unfold castEmail. rewrite Hsame. reflexivity.
  - intros r db' Hreg Hstatus.
    destruct (register_created db db' now salt errors b r Hreg Hstatus)
      as (Hnone & user & -> & _ & Hemail & _).
    pose proof (findOne_email_none db (normalizeEmail (reg_email b)) Hnorm Hnone) as Hfresh.
    split; [| split; [| split]].
    + intros u Hu Hsame.
      destruct (findOne_email_same_up_to_case db u (normalizeEmail (reg_email b))
                  Hnorm Hu Hsame) as [v Hv].
      rewrite Hv in Hnone. discriminate.
    + exists user. split; [reflexivity | exact Hemail].
    + unfold normalized. apply Forall_app. split; [exact Hnorm |].
      constructor; [| constructor]. rewrite Hemail. symmetry. apply castEmail_idem.
    + unfold emailsUnique. rewrite map_app. simpl. intros Huniq.
      apply NoDup_app; [exact Huniq | constructor; [intros [] | constructor] |].
      intros x Hx [<- | []]. apply in_map_iff in Hx. destruct Hx as (u & Hxu & Hu).
      apply (Hfresh u Hu). rewrite Hxu, Hemail. apply toLowerCase_castEmail.
  - intros outcome db'. unfold register.
    destruct errors as [| e errors]; simpl.
    + destruct (findOne_email db (normalizeEmail (reg_email b))).
      * intros Hreg. injection Hreg as _ <-. left. reflexivity.
      * destruct (User_create db now salt (registerSanitizers b)) as [[user db1] | m].
        -- intros Hreg. injection Hreg as <- _. right. eexists. split; reflexivity.
        -- intros Hreg. injection Hreg as _ <-. left. reflexivity.
    + intros Hreg. injection Hreg as _ <-. left. reflexivity.
  - intros Hblind u Hu Hfixed Hsame. apply (Hrefused u Hu).
    rewrite <- (Hblind _ _ Hsame). symmetry. exact Hfixed.
Qed.

End RegistrationProperties.

(** C9 at work: registering under Alice's email in another case is refused
    and nothing is stored.  The sanitizer of the test double leaves Alice's
    email as it is. *)
Lemma register_keeps_emails_unique_witness :
  normalized Double.users
  /\ JS.toLowerCase (email Double.alice) = JS.toLowerCase (reg_email Double.aliceAgain)
  /\ exists r,
       register (H := Double.external) Double.users 1000 "salt9" [] Double.aliceAgain
       = (JS.Normal r, Double.users)
       /\ status r = 400.
Proof.
  assert (Hnorm : normalized Double.users) by (repeat constructor).
  split; [exact Hnorm | split; [reflexivity |]].
  apply (proj1 (register_keeps_emails_unique (H := Double.external) Double.users 1000
                  "salt9" [] Double.aliceAgain Hnorm)).
  exists Double.alice. split; [left; reflexivity | reflexivity].
Defined.

(** The claim as the specification words it, refuted.  Dee registers under
    [dee-dee-99@yahoo.com]; the sanitizer makes [dee-dee@yahoo.com] of it,
    and that is the email of her account.  A second request under
    [dee-dee@yahoo.com], the very email of that account, is looked up as
    [dee@yahoo.com]: it is answered with 201 and a second account is
    created. *)
Lemma register_accepts_the_email_of_an_account :
  exists r1 db1 u r2 db2,
    register (H := Double.external) Double.users 1000 "salt4" [] Double.dee
    = (JS.Normal r1, db1)
    /\ status r1 = 201
    /\ In u db1 /\ email u = reg_email Double.deeAgain
    /\ register (H := Double.external) db1 2000 "salt5" [] Double.deeAgain
       = (JS.Normal r2, db2)
    /\ status r2 = 201
    /\ map email db2
       = ["alice@example.com"; "bob@example.com"; "dee-dee@yahoo.com"; "dee@yahoo.com"]%string.
Proof.
  do 5 eexists.
  split; [vm_compute; reflexivity |]. split; [reflexivity |].
  split; [right; right; left; reflexivity |]. split; [reflexivity |].
  split; [vm_compute; reflexivity |]. split; reflexivity.
Qed.

(** ** Failed authentication *)

Section AuthenticationFailures.
Context `{External}.

(** C8 as the code has it.  A failed authentication is answered with 401 and
    changes nothing.  On the password route the body is
    [Invalid credentials] both for an unknown email and for a wrong password,
    and [Account is deactivated] for a deactivated account, whatever the
    password; on the face route it is [Face not recognized] when no account
    is selected and [Account is deactivated] when the selected one is
    deactivated.  No other 401 exists on either route. *)
Theorem authentication_failures (db : collection) (now : Z) (body_email body_password : string)
  (query : descriptor) :
  (findOne_email db (normalizeEmail body_email) = None ->
   login db now [] body_email body_password = (error 401 "Invalid credentials", db))
  /\ (forall u, findOne_email db (normalizeEmail body_email) = Some u -> isActive u = true ->
      bcrypt_compare body_password (password u) = false ->
      login db now [] body_email body_password = (error 401 "Invalid credentials", db))
  /\ (forall u, findOne_email db (normalizeEmail body_email) = Some u -> isActive u = false ->
      login db now [] body_email body_password = (error 401 "Account is deactivated", db))
  /\ (fst (bestMatch query (find_withFaceDescriptor db)) = None ->
      faceLogin db now (Some query) = (error 401 "Face not recognized", db))
  /\ (forall m, fst (bestMatch query (find_withFaceDescriptor db)) = Some m ->
      isActive m = false ->
      faceLogin db now (Some query) = (error 401 "Account is deactivated", db))
  /\ (forall errors r db',
      login db now errors body_email body_password = (r, db') -> status r = 401 ->
      db' = db
      /\ (r = error 401 "Invalid credentials" \/ r = error 401 "Account is deactivated"))
  /\ (forall r db',
      faceLogin db now (Some query) = (r, db') -> status r = 401 ->
      db' = db
      /\ (r = error 401 "Face not recognized" \/ r = error 401 "Account is deactivated")).
Proof.
  split; [| split; [| split; [| split; [| split; [| split]]]]].
  - intros Hfind. unfold login. simpl. rewrite Hfind. reflexivity.
  - intros u Hfind Hactive Hwrong. unfold login. simpl. rewrite Hfind, Hactive, Hwrong. reflexivity.
  - intros u Hfind Hactive. unfold login. simpl. rewrite Hfind, Hactive. reflexivity.
  - intros Hnone. rewrite faceLogin_of_bestMatch.
    destruct (bestMatch query (find_withFaceDescriptor db)) as [[m |] best];
      [discriminate | reflexivity].
  - intros m Hm Hactive. rewrite faceLogin_of_bestMatch.
    destruct (bestMatch query (find_withFaceDescriptor db)) as [[m' |] best];
      [| discriminate].
    simpl in Hm. injection Hm as ->. rewrite Hactive. reflexivity.
  - intros errors r db'. unfold login. destruct errors as [| e errors]; simpl.
    + destruct (findOne_email db (normalizeEmail body_email)) as [u |].
      * destruct (isActive u); simpl.
        -- destruct (bcrypt_compare body_password (password u)); simpl;
             intros Hlogin Hstatus; injection Hlogin as <- <-;
             [discriminate Hstatus | split; [reflexivity | left; reflexivity]].
        -- intros Hlogin _. injection Hlogin as <- <-. split; [reflexivity | right; reflexivity].
      * intros Hlogin _. injection Hlogin as <- <-. split; [reflexivity | left; reflexivity].
    + intros Hlogin Hstatus. injection Hlogin as <- <-. discriminate Hstatus.
  - intros r db'. rewrite faceLogin_of_bestMatch.
    destruct (bestMatch query (find_withFaceDescriptor db)) as [[m |] best].
    + destruct (isActive m); simpl; intros Hlogin Hstatus; injection Hlogin as <- <-;
        [discriminate Hstatus | split; [reflexivity | right; reflexivity]].
    + intros Hlogin _. injection Hlogin as <- <-. split; [reflexivity | left; reflexivity].
Qed.

End AuthenticationFailures.

(** C8 at work: Bob's account is deactivated, and a login for it is told so
    whatever the password. *)
Lemma authentication_failures_witness :
  findOne_email Double.users (normalizeEmail (External := Double.external) "bob@example.com")
  = Some Double.bob
  /\ isActive Double.bob = false
  /\ login (H := Double.external) Double.users 0 [] "bob@example.com" "Wrong1"
     = (error 401 "Account is deactivated", Double.users).
Proof.
  split; [reflexivity | split; [reflexivity |]].
  exact (proj1 (proj2 (proj2 (authentication_failures (H := Double.external)
                                Double.users 0 "bob@example.com" "Wrong1" [])))
           Double.bob eq_refl eq_refl).
Defined.

(** C8 as stated fails: a login for Bob's deactivated account and a login for
    an email nobody registered both fail with 401, and their bodies differ. *)
Lemma login_tells_deactivated_from_unknown :
  status (fst (login (H := Double.external) Double.users 0 [] "bob@example.com" "Secret2")) = 401
  /\ status (fst (login (H := Double.external) Double.users 0 [] "nobody@example.com" "Secret2")) = 401
  /\ body (fst (login (H := Double.external) Double.users 0 [] "bob@example.com" "Secret2"))
     <> body (fst (login (H := Double.external) Double.users 0 [] "nobody@example.com" "Secret2")).
Proof.
  split; [reflexivity | split; [reflexivity |]].
  vm_compute. discriminate.
Qed.

(** ** Writing a face descriptor *)

Lemma simulateFaceDetection_length (random : nat -> JS.number) :
  List.length (fd_descriptor (simulateFaceDetection random)) = 128%nat
  /\ count (simulateFaceDetection random) = 1%nat.
Proof. split; reflexivity. Qed.

Lemma findByIdAndUpdate_stored (db db' : collection) (id : nat) (update : User -> User)
  (u : User) :
  (forall v, _id (update v) = _id v) ->
  findByIdAndUpdate db id update = (db', Some u) ->
  findById db' id = Some u /\ exists v, findById db id = Some v /\ u = update v.
Proof.
  intros Hid. unfold findByIdAndUpdate.
  destruct (findById db id) as [v |] eqn:Hfind; [| discriminate].
  intros Hupd. injection Hupd as <- <-. split.
  - apply findById_save with (u := v); [exact Hfind | apply Hid].
  - exists v. split; reflexivity.
Qed.

Section DescriptorWrites.
Context `{External}.

(** C7 as the code has it.  The face-recognition route stores the 128
    components that the simulated detection produced.  The user route stores
    the array of the request as it is, and so does registration: the stored
    descriptor has as many components as the client sent. *)
Theorem faceDescriptor_writes (db : collection) (userId : nat) :
  (forall file random r db',
      face_register db userId file random = (JS.Normal r, db') -> status r = 200 ->
      exists u d, findById db' userId = Some u
                  /\ faceDescriptor u = Some d /\ List.length d = 128%nat)
  /\ (forall d r db',
      user_faceRegister db userId (Some d) = (JS.Normal r, db') ->
      status r = 200
      /\ exists u, findById db' userId = Some u /\ faceDescriptor u = Some d)
  /\ (forall now salt errors b r db',
      register db now salt errors b = (JS.Normal r, db') -> status r = 201 ->
      exists user, db' = db ++ [user] /\ faceDescriptor user = reg_faceDescriptor b).
Proof.
  split; [| split].
  - intros file random r db'. unfold face_register.
    destruct file as [path |]; [| intros Hreg; injection Hreg as <- <-; discriminate].
    destruct (simulateFaceDetection_length random) as [Hlen Hcount].
    rewrite Hcount. simpl Nat.eqb. simpl Nat.ltb. cbv iota.
    destruct (findByIdAndUpdate db userId _) as [db1 [u |]] eqn:Hupd; [| discriminate].
    intros Hreg _. injection Hreg as _ <-.
    apply findByIdAndUpdate_stored in Hupd; [| reflexivity].
    destruct Hupd as (Hfound & v & _ & ->).
    exists (set_avatar (set_faceDescriptor v
                          (Some (fd_descriptor (simulateFaceDetection random)))) (Some path)).
    exists (fd_descriptor (simulateFaceDetection random)).
    split; [exact Hfound | split; [reflexivity | exact Hlen]].
  - intros d r db'. unfold user_faceRegister.
    destruct (findByIdAndUpdate db userId _) as [db1 [u |]] eqn:Hupd; [| discriminate].
    intros Hreg. injection Hreg as <- <-. split; [reflexivity |].
    apply findByIdAndUpdate_stored in Hupd; [| reflexivity].
    destruct Hupd as (Hfound & v & _ & ->).
    exists (set_faceDescriptor v (Some d)). split; [exact Hfound | reflexivity].
  - intros now salt errors b r db' Hreg Hstatus.
    destruct (register_created db db' now salt errors b r Hreg Hstatus)
      as (_ & user & -> & _ & _ & Hface).
    exists user. split; [reflexivity | exact Hface].
Qed.

End DescriptorWrites.

(** C7 at work: after Alice registers a face by image, her account holds a
    descriptor of 128 components. *)
Lemma faceDescriptor_writes_witness :
  (exists r, fst (face_register Double.users 1 (Some "uploads/faces/face-1.png"%string)
                    (fun _ => 0x1p-1%float)) = JS.Normal r
             /\ status r = 200%nat)
  /\ exists u d,
       findById (snd (face_register Double.users 1 (Some "uploads/faces/face-1.png"%string)
                        (fun _ => 0x1p-1%float))) 1 = Some u
       /\ faceDescriptor u = Some d /\ List.length d = 128%nat.
Proof.
  split; [eexists; split; reflexivity |].
  exact (proj1 (faceDescriptor_writes (H := Double.external) Double.users 1)
           (Some "uploads/faces/face-1.png"%string) (fun _ => 0x1p-1%float) _ _
           eq_refl eq_refl).
Defined.

(** C7 as stated fails: the user route accepts a descriptor of one component
    for Alice and stores it. *)
Lemma faceRegister_stores_one_component :
  (exists r, fst (user_faceRegister Double.users 1 (Some [0x1p-1%float])) = JS.Normal r
             /\ status r = 200)
  /\ storedLength (snd (user_faceRegister Double.users 1 (Some [0x1p-1%float]))) 1 = Some 1%nat
  /\ storedLength (snd (user_faceRegister Double.users 1 (Some [0x1p-1%float]))) 1
     <> Some 128%nat.
Proof.
  split; [eexists; split; reflexivity | split; [reflexivity | discriminate]].
Qed.

(** ** The streak *)

Section StreakProperties.
Context `{External}.

Lemma streak_same_day (user : User) (now : Z) (c : JS.value) :
  toDateString now = toDateString (lastActiveDate (progress user)) ->
  streakDays (progress (updateProgress user now c)) = streakDays (progress user).
Proof.
  intros Hday. unfold updateProgress. simpl. rewrite Hday, Z.eqb_refl. reflexivity.
Qed.

Lemma days_apart (a b : Z) :
  (a / msPerDay + 2 <= b / msPerDay -> a + msPerDay < b)%Z.
Proof.
  unfold msPerDay. intros Hgap.
  pose proof (Z.mul_div_le b 86400000 ltac:(lia)).
  pose proof (Z.mul_succ_div_gt a 86400000 ltac:(lia)).
  lia.
Qed.

Lemma streak_after_gap (user : User) (now : Z) (c : JS.value) :
  (toDateString (lastActiveDate (progress user)) + 2 <= toDateString now)%Z ->
  streakDays (progress (updateProgress user now c)) = 1%Z.
Proof.
  unfold toDateString. intros Hgap. pose proof (days_apart _ _ Hgap) as Hfar.
  unfold updateProgress, toDateString. simpl.
  destruct (Z.eqb_spec ((now + timezoneOffset) / msPerDay)
              ((lastActiveDate (progress user) + timezoneOffset) / msPerDay)) as [E | _];
    [lia |].
  destruct (Z.geb_spec (lastActiveDate (progress user) + 86400000) now) as [Hle | _];
    [unfold msPerDay in Hfar; lia | reflexivity].
Qed.

Lemma streak_next_day_within_24h (user : User) (now : Z) (c : JS.value) :
  toDateString now = (toDateString (lastActiveDate (progress user)) + 1)%Z ->
  (now <= lastActiveDate (progress user) + 86400000)%Z ->
  streakDays (progress (updateProgress user now c)) = (streakDays (progress user) + 1)%Z.
Proof.
  intros Hday Hnear. unfold updateProgress. simpl. rewrite Hday.
  destruct (Z.eqb_spec (toDateString (lastActiveDate (progress user)) + 1)
              (toDateString (lastActiveDate (progress user)))) as [E | _]; [lia |].
  destruct (Z.geb_spec (lastActiveDate (progress user) + 86400000) now) as [_ | Hlt];
    [reflexivity | lia].
Qed.

(** On the next calendar day, but more than 24 hours after the last
    activity, the streak is not incremented: it is reset. *)
Lemma streak_next_day_beyond_24h (user : User) (now : Z) (c : JS.value) :
  toDateString now = (toDateString (lastActiveDate (progress user)) + 1)%Z ->
  (lastActiveDate (progress user) + 86400000 < now)%Z ->
  streakDays (progress (updateProgress user now c)) = 1%Z.
Proof.
  intros Hday Hfar. unfold updateProgress. simpl. rewrite Hday.
  destruct (Z.eqb_spec (toDateString (lastActiveDate (progress user)) + 1)
              (toDateString (lastActiveDate (progress user)))) as [E | _]; [lia |].
  destruct (Z.geb_spec (lastActiveDate (progress user) + 86400000) now) as [Hle | _];
    [lia | reflexivity].
Qed.

End StreakProperties.

(** C3, at the input where the code departs from it.  Alice was last active
    on 1 January at 08:00 with a streak of 5.  An answer on 2 January at
    07:00 makes it 6; an answer on 2 January at 20:00, which is the next
    calendar day just the same, resets it to 1. *)
Theorem streak_reset_on_next_calendar_day :
  toDateString (H := Double.external) Double.nextDayLate
  = (toDateString (H := Double.external) (lastActiveDate (progress Double.aliceOnStreak)) + 1)%Z
  /\ streakDays (progress Double.aliceOnStreak) = 5%Z
  /\ streakDays (progress (updateProgress (H := Double.external) Double.aliceOnStreak
                             Double.nextDayLate (JS.Bool true))) = 1%Z
  /\ streakDays (progress (updateProgress (H := Double.external) Double.aliceOnStreak
                             Double.nextDayEarly (JS.Bool true))) = 6%Z.
Proof. repeat split; vm_compute; reflexivity. Qed.

(** ** Grading and the counters *)

Section GradingProperties.
Context `{External}.

(** What one call of [updateProgress] does to the three counters. *)
Lemma updateProgress_counters (user : User) (now : Z) (c : JS.value) :
  totalQuestions (progress (updateProgress user now c)) = (totalQuestions (progress user) + 1)%Z
  /\ correctAnswers (progress (updateProgress user now c))
     = (correctAnswers (progress user) + if JS.truthy c then 1 else 0)%Z
  /\ points (progress (updateProgress user now c))
     = (points (progress user) + if JS.truthy c then 10 else 0)%Z
  /\ lastActiveDate (progress (updateProgress user now c)) = now.
Proof.
  unfold updateProgress. simpl. destruct (JS.truthy c); repeat split; lia.
Qed.

(** [updateProgress] looks at its argument only through its truthiness. *)
Lemma updateProgress_truthy (user : User) (now : Z) (c c' : JS.value) :
  JS.truthy c = JS.truthy c' -> updateProgress user now c = updateProgress user now c'.
Proof. intros Hc. unfold updateProgress. rewrite Hc. reflexivity. Qed.

(** A request to validate-answer either ends with a verdict, after one call
    of [updateProgress] with that verdict, or ends with an error and leaves
    the account as it was. *)
Lemma validateAnswer_cases (user user' : User) (now : Z) (errors : list string)
  (b : ValidateBody) (generateContent : Generator) (r : Response) (sent : list Prompt) :
  validateAnswer user now errors b generateContent = (r, user', sent) ->
  (graded r = false /\ judgedCorrect r = false /\ status r <> 200 /\ user' = user)
  \/ (exists c f e,
        r = mkResponse 200 (GradedBody c f e (getStats user'))
        /\ user' = updateProgress user now c).
Proof.
  unfold validateAnswer. destruct (negb (isEmpty errors)).
  - intros Hv. injection Hv as <- <- _. left. repeat split. discriminate.
  - destruct (grade b generateContent) as [[v | m] sent'].
    + intros Hv. injection Hv as <- <- _. right.
      exists (isCorrect v), (feedback v), (explanation v). split; reflexivity.
    + intros Hv. injection Hv as <- <- _. left. repeat split. discriminate.
Qed.

Lemma countIf_cons {A : Type} (p : A -> bool) (x : A) (l : list A) :
  countIf p (x :: l) = ((if p x then 1 else 0) + countIf p l)%Z.
Proof. unfold countIf. simpl. destruct (p x); simpl List.length; lia. Qed.

Lemma validateAnswers_counters (calls : list GradingCall) (user user' : User)
  (rs : list Response) :
  validateAnswers user calls = (rs, user') ->
  List.length rs = List.length calls
  /\ totalQuestions (progress user') = (totalQuestions (progress user) + countIf graded rs)%Z
  /\ correctAnswers (progress user')
     = (correctAnswers (progress user) + countIf judgedCorrect rs)%Z
  /\ points (progress user') = (points (progress user) + 10 * countIf judgedCorrect rs)%Z.
Proof.
  revert user user' rs.
  induction calls as [| c calls IH]; intros user user' rs; cbn [validateAnswers].
  - intros Hrun. injection Hrun as <- <-. unfold countIf. cbn [filter List.length].
    repeat split; lia.
  - destruct (validateAnswer user (call_now c) (call_errors c) (call_body c) (call_generator c))
      as [[r user1] sent] eqn:Hcall.
    destruct (validateAnswers user1 calls) as [rs' user2] eqn:Hrest.
    intros Hrun. injection Hrun as <- <-.
    destruct (IH user1 user2 rs' Hrest) as (Hlen & Htotal & Hcorrect & Hpoints).
    rewrite Htotal, Hcorrect, Hpoints, !countIf_cons. cbn [List.length].
    destruct (validateAnswer_cases _ _ _ _ _ _ _ _ Hcall)
      as [(Hg & Hj & _ & ->) | (v & f & e & -> & ->)].
    + rewrite Hg, Hj. repeat split; lia.
    + destruct (updateProgress_counters user (call_now c) v) as (-> & -> & -> & _).
      change (graded (mkResponse 200 (GradedBody v f e
                (getStats (updateProgress user (call_now c) v))))) with true.
      change (judgedCorrect (mkResponse 200 (GradedBody v f e
                (getStats (updateProgress user (call_now c) v))))) with (JS.truthy v).
      cbv iota. destruct (JS.truthy v); repeat split; lia.
Qed.

Lemma updateProgressAll_counters (verdicts : list (Z * JS.value)) (user : User) :
  totalQuestions (progress (updateProgressAll user verdicts))
  = (totalQuestions (progress user) + Z.of_nat (List.length verdicts))%Z
  /\ correctAnswers (progress (updateProgressAll user verdicts))
     = (correctAnswers (progress user) + countIf (fun v => JS.truthy (snd v)) verdicts)%Z
  /\ points (progress (updateProgressAll user verdicts))
     = (points (progress user) + 10 * countIf (fun v => JS.truthy (snd v)) verdicts)%Z.
Proof.
  revert user. unfold updateProgressAll.
  induction verdicts as [| [t c] verdicts IH]; intros user.
  - unfold countIf. cbn [fold_left filter List.length]. repeat split; lia.
  - cbn [fold_left fst snd]. destruct (IH (updateProgress user t c)) as (-> & -> & ->).
    destruct (updateProgress_counters user t c) as (-> & -> & -> & _).
    rewrite countIf_cons. cbn [snd List.length]. destruct (JS.truthy c); repeat split; lia.
Qed.

(** The counters over the verdicts given.  Each verdict costs one call of
    [updateProgress], which adds 1 to
    [totalQuestions] and, exactly when the verdict is "correct", 1 to
    [correctAnswers] and 10 to [points]: after N such calls of which K are
    "correct", on a fresh progress aggregate, the three counters are N, K
    and 10 K.  A request to validate-answer that ends with a verdict makes
    exactly one such call; so after requests served one after the other,
    [totalQuestions] is the number of verdicts given, which is the number of
    requests when each of them was given a verdict. *)
Theorem grading_counts :
  (forall user created verdicts,
      progress user = freshProgress created ->
      totalQuestions (progress (updateProgressAll user verdicts))
      = Z.of_nat (List.length verdicts)
      /\ correctAnswers (progress (updateProgressAll user verdicts))
         = countIf (fun v => JS.truthy (snd v)) verdicts
      /\ points (progress (updateProgressAll user verdicts))
         = (10 * countIf (fun v => JS.truthy (snd v)) verdicts)%Z)
  /\ (forall user now errors b generateContent r user' sent,
      validateAnswer user now errors b generateContent = (r, user', sent) ->
      graded r = true ->
      totalQuestions (progress user') = (totalQuestions (progress user) + 1)%Z
      /\ correctAnswers (progress user')
         = (correctAnswers (progress user) + if judgedCorrect r then 1 else 0)%Z
      /\ points (progress user')
         = (points (progress user) + if judgedCorrect r then 10 else 0)%Z)
  /\ (forall user created calls rs user',
      progress user = freshProgress created ->
      validateAnswers user calls = (rs, user') ->
      totalQuestions (progress user') = countIf graded rs
      /\ correctAnswers (progress user') = countIf judgedCorrect rs
      /\ points (progress user') = (10 * countIf judgedCorrect rs)%Z
      /\ (forallb graded rs = true ->
          totalQuestions (progress user') = Z.of_nat (List.length calls))).
Proof.
  split; [| split].
  - intros user created verdicts Hfresh.
    destruct (updateProgressAll_counters verdicts user) as (-> & -> & ->).
    rewrite Hfresh. cbn [freshProgress totalQuestions correctAnswers points].
    repeat split; lia.
  - intros user now errors b generateContent r user' sent Hcall Hgraded.
    destruct (validateAnswer_cases _ _ _ _ _ _ _ _ Hcall)
      as [(Hg & _) | (v & f & e & -> & ->)]; [congruence |].
    destruct (updateProgress_counters user now v) as (-> & -> & -> & _).
    unfold judgedCorrect. simpl. repeat split; reflexivity.
  - intros user created calls rs user' Hfresh Hrun.
    destruct (validateAnswers_counters calls user user' rs Hrun) as (Hlen & -> & -> & ->).
    rewrite Hfresh. cbn [freshProgress totalQuestions correctAnswers points].
    repeat split; try lia.
    intros Hall. unfold countIf. rewrite <- Hlen.
    replace (filter graded rs) with rs; [lia |].
    clear -Hall. induction rs as [| r rs IH]; simpl in *; [reflexivity |].
    apply andb_true_iff in Hall. destruct Hall as [-> Hall]. f_equal. exact (IH Hall).
Qed.

(** C5.  For a multiple-choice question the verdict is the strict equality
    of the submitted and the stored answer, which for two strings is equality
    of strings; the feedback follows the verdict; nothing is sent to the
    generative API and nothing depends on it, on the account or on the time. *)
Theorem mcq_grading (questionId question submitted correct : JS.value)
  (generateContent : Generator) :
  let b := mkValidateBody questionId submitted (JS.Str "MCQ") question correct in
  let ok := JS.strict_equals submitted correct in
  grade b generateContent
  = (JS.Normal (mkEvaluation (JS.Bool ok)
                  (JS.Str (if ok then "Correct!" else "Incorrect.")) (JS.Str "")), [])
  /\ (forall user now,
      validateAnswer user now [] b generateContent
      = (mkResponse 200
           (GradedBody (JS.Bool ok) (JS.Str (if ok then "Correct!" else "Incorrect."))
              (JS.Str "") (getStats (updateProgress user now (JS.Bool ok)))),
         updateProgress user now (JS.Bool ok), []))
  /\ (forall s c, submitted = JS.Str s -> correct = JS.Str c -> (ok = true <-> s = c)).
Proof.
  intros b ok. split; [reflexivity | split].
  - intros user now. reflexivity.
  - intros s c -> ->. unfold ok. simpl. apply String.eqb_eq.
Qed.

End GradingProperties.

(** C5 at work: the answer "A" to a question whose correct answer is "A". *)
Lemma mcq_grading_witness :
  JS.strict_equals (JS.Str "A") (JS.Str "A") = true
  /\ fst (fst (validateAnswer (H := Double.external) Double.alice 1000 []
                 (Double.mcq "A" "A") Double.down))
     = mkResponse 200
         (GradedBody (JS.Bool true) (JS.Str "Correct!") (JS.Str "")
            (mkStats 1 1 0 10 1000)).
Proof.
  split.
  - apply (proj2 (proj2 (mcq_grading (H := Double.external) (JS.Str "q1") (JS.Str "Which one?")
                           (JS.Str "A") (JS.Str "A") Double.down)) "A"%string "A"%string
             eq_refl eq_refl).
    reflexivity.
  - unfold Double.mcq.
    rewrite (proj1 (proj2 (mcq_grading (H := Double.external) (JS.Str "q1")
                             (JS.Str "Which one?") (JS.Str "A") (JS.Str "A") Double.down))
               Double.alice 1000%Z).
    reflexivity.
Defined.

(** Of Alice's three requests the third fails with 500 and counts for
    nothing; the first two are given a verdict, one of them "correct". *)
Lemma grading_counts_witness :
  progress Double.alice = freshProgress 0
  /\ map status (fst (validateAnswers (H := Double.external) Double.alice Double.threeCalls))
     = [200; 200; 500]%nat
  /\ totalQuestions
       (progress (snd (validateAnswers (H := Double.external) Double.alice Double.threeCalls)))
     = 2%Z
  /\ correctAnswers
       (progress (snd (validateAnswers (H := Double.external) Double.alice Double.threeCalls)))
     = 1%Z
  /\ points
       (progress (snd (validateAnswers (H := Double.external) Double.alice Double.threeCalls)))
     = 10%Z.
Proof.
  split; [reflexivity | split; [reflexivity |]].
  destruct (proj2 (proj2 (grading_counts (H := Double.external)))
              Double.alice 0%Z Double.threeCalls
              (fst (validateAnswers (H := Double.external) Double.alice Double.threeCalls))
              (snd (validateAnswers (H := Double.external) Double.alice Double.threeCalls))
              eq_refl eq_refl)
    as (Htotal & Hcorrect & Hpoints & _).
  split; [exact Htotal | split; [exact Hcorrect | exact Hpoints]].
Defined.

(** C4, at the input where the code departs from it.  Two answers to sql
    questions are validated on Alice's account, whose progress is fresh,
    while the generative API is up.  Both requests end with 500, and
    [totalQuestions] is 0 afterwards, not 2: the account is as it was.  The
    same happens to every sql answer: under [case 'sql'] the handler reads
    the [const model] that is declared under [case 'coding'] and was not
    initialized, so it throws before it grades and before it calls
    [updateProgress]. *)
Theorem sql_validations_are_not_counted :
  progress Double.alice = freshProgress 0
  /\ map (fun c => val_questionType (call_body c)) Double.sqlCalls
     = [JS.Str "sql"; JS.Str "sql"]
  /\ map status (fst (validateAnswers (H := Double.external) Double.alice Double.sqlCalls))
     = [500; 500]%nat
  /\ totalQuestions
       (progress (snd (validateAnswers (H := Double.external) Double.alice Double.sqlCalls)))
     = 0%Z
  /\ snd (validateAnswers (H := Double.external) Double.alice Double.sqlCalls) = Double.alice
  /\ (forall (E : External) user now b generateContent,
        val_questionType b = JS.Str "sql" ->
        validateAnswer (H := E) user now [] b generateContent
        = (serverError (H := E) "Failed to validate answer. Please try again."
             "Cannot access 'model' before initialization", user, [])).
Proof.
  split; [reflexivity |]. split; [reflexivity |]. split; [reflexivity |].
  split; [reflexivity |]. split; [reflexivity |].
  intros E user now b generateContent Htype.
  unfold validateAnswer, grade. rewrite Htype. reflexivity.
Qed.

(** ** Matching the text between two delimiters *)

Lemma fromFirst_spec (c : ascii) (s : string) :
  match fromFirst c s with
  | Some t => exists pre rest,
      s = (pre ++ String c rest)%string /\ t = String c rest /\ occurs c pre = false
  | None => occurs c s = false
  end.
Proof.
  induction s as [| a s IH]; simpl; [reflexivity |].
  destruct (Ascii.eqb_spec a c) as [-> | Hne].
  - exists EmptyString, s. repeat split.
  - destruct (fromFirst c s) as [t |]; simpl.
    + destruct IH as (pre & rest & -> & -> & Hpre).
      exists (String a pre), rest. repeat split. simpl.
      destruct (Ascii.eqb_spec a c); [contradiction | exact Hpre].
    + exact IH.
Qed.

Lemma upToLast_spec (c : ascii) (s : string) :
  match upToLast c s with
  | Some p => exists mid post,
      s = (mid ++ String c post)%string /\ p = (mid ++ String c EmptyString)%string
      /\ occurs c post = false
  | None => occurs c s = false
  end.
Proof.
  induction s as [| a s IH]; simpl; [reflexivity |].
  destruct (upToLast c s) as [p |].
  - destruct IH as (mid & post & -> & -> & Hpost).
    exists (String a mid), post. repeat split. exact Hpost.
  - destruct (Ascii.eqb_spec a c) as [-> | Hne]; simpl.
    + exists EmptyString, s. repeat split. exact IH.
    + exact IH.
Qed.

Lemma occurs_append (c : ascii) (s t : string) :
  occurs c (s ++ t) = (occurs c s || occurs c t)%bool.
Proof.
  induction s as [| a s IH]; simpl; [reflexivity |].
  rewrite IH. apply orb_assoc.
Qed.

(** Every occurrence of [c] lies at or after the first one. *)
Lemma after_first (c : ascii) (pre rest pre' rest' : string) :
  occurs c pre = false ->
  (pre ++ String c rest)%string = (pre' ++ String c rest')%string ->
  rest = rest' \/ exists k, rest = (k ++ String c rest')%string.
Proof.
  revert pre'. induction pre as [| a pre IH]; intros pre' Hpre Heq.
  - destruct pre' as [| b pre']; simpl in Heq.
    + injection Heq as ->. left. reflexivity.
    + injection Heq as _ ->. right. exists pre'. reflexivity.
  - simpl in Hpre. apply orb_false_iff in Hpre. destruct Hpre as [Ha Hpre].
    destruct pre' as [| b pre']; simpl in Heq.
    + injection Heq as -> _. rewrite Ascii.eqb_refl in Ha. discriminate.
    + injection Heq as _ Heq. exact (IH pre' Hpre Heq).
Qed.

(** X2.  The match is the leftmost one (no opening character before it) and the
    longest one (no closing character after it); there is none exactly when
    no opening character is followed by a closing one. *)
Lemma matchBetween_spec (opening closing : ascii) (text : string) :
  match matchBetween opening closing text with
  | Some m => exists pre mid post,
      text = (pre ++ String opening (mid ++ String closing post))%string
      /\ m = String opening (mid ++ String closing EmptyString)
      /\ occurs opening pre = false
      /\ occurs closing post = false
  | None => forall pre mid post,
      text <> (pre ++ String opening (mid ++ String closing post))%string
  end.
Proof.
  unfold matchBetween. pose proof (fromFirst_spec opening text) as Hfirst.
  destruct (fromFirst opening text) as [t |].
  - destruct Hfirst as (pre & rest & -> & -> & Hpre).
    pose proof (upToLast_spec closing rest) as Hlast.
    destruct (upToLast closing rest) as [p |].
    + destruct Hlast as (mid & post & -> & -> & Hpost).
      exists pre, mid, post. repeat split; assumption.
    + intros pre' mid' post' Heq.
      assert (Hocc : occurs closing rest = true); [| congruence].
      destruct (after_first opening pre rest pre' _ Hpre Heq) as [-> | [k ->]].
      * rewrite occurs_append. simpl. rewrite Ascii.eqb_refl, orb_true_r. reflexivity.
      * rewrite occurs_append. simpl. rewrite occurs_append. simpl.
        rewrite Ascii.eqb_refl, !orb_true_r. reflexivity.
  - intros pre mid post Heq. rewrite Heq, occurs_append in Hfirst. simpl in Hfirst.
    rewrite Ascii.eqb_refl, orb_true_r in Hfirst. discriminate.
Qed.

(** ** Parsing the reply of the evaluator *)

Section EvaluationParsing.
Context `{External}.

Lemma parseEvaluation_never_throws (text : string) :
  (exists v, parseCodeEvaluation text = JS.Normal v)
  /\ (exists v, parseSQLEvaluation text = JS.Normal v).
Proof.
  unfold parseCodeEvaluation, parseSQLEvaluation, JS.try_catch. split.
  - destruct (parseEvaluation_try "Unable to evaluate answer" text); eexists; reflexivity.
  - destruct (parseEvaluation_try "Unable to evaluate SQL answer" text); eexists; reflexivity.
Qed.

(** C6.  Neither parser ever throws.  When the reply holds no text between a
    first opening and a last closing brace, and when [JSON.parse] rejects
    that text, the result is a verdict [false] with a fixed feedback and a
    fixed explanation; and the grading of a coding answer then ends with
    that verdict, counted as an incorrect answer. *)
Theorem evaluation_parse_failure (text : string) :
  ((exists v, parseCodeEvaluation text = JS.Normal v)
   /\ (exists v, parseSQLEvaluation text = JS.Normal v))
  /\ (matchBetween "{" "}" text = None ->
      parseCodeEvaluation text
      = JS.Normal (mkEvaluation (JS.Bool false) (JS.Str "Unable to evaluate answer")
                     (JS.Str "Evaluation failed"))
      /\ parseSQLEvaluation text
         = JS.Normal (mkEvaluation (JS.Bool false) (JS.Str "Unable to evaluate SQL answer")
                        (JS.Str "Evaluation failed")))
  /\ (forall m, matchBetween "{" "}" text = Some m -> JSON_parse m = None ->
      parseCodeEvaluation text
      = JS.Normal (mkEvaluation (JS.Bool false) (JS.Str "Error evaluating answer")
                     (JS.Str "Evaluation failed due to parsing error"))
      /\ parseSQLEvaluation text
         = JS.Normal (mkEvaluation (JS.Bool false) (JS.Str "Error evaluating SQL answer")
                        (JS.Str "Evaluation failed due to parsing error")))
  /\ (forall user now questionId answer question correct generateContent,
      generateContent (CodeEvaluationPrompt question answer correct) = JS.Normal text ->
      (matchBetween "{" "}" text = None
       \/ exists m, matchBetween "{" "}" text = Some m /\ JSON_parse m = None) ->
      exists f e,
        validateAnswer user now []
          (mkValidateBody questionId answer (JS.Str "coding") question correct) generateContent
        = (mkResponse 200
             (GradedBody (JS.Bool false) (JS.Str f) (JS.Str e)
                (getStats (updateProgress user now (JS.Bool false)))),
           updateProgress user now (JS.Bool false),
           [CodeEvaluationPrompt question answer correct])).
Proof.
  assert (Hnone : matchBetween "{" "}" text = None ->
      parseCodeEvaluation text
      = JS.Normal (mkEvaluation (JS.Bool false) (JS.Str "Unable to evaluate answer")
                     (JS.Str "Evaluation failed"))
      /\ parseSQLEvaluation text
         = JS.Normal (mkEvaluation (JS.Bool false) (JS.Str "Unable to evaluate SQL answer")
                        (JS.Str "Evaluation failed"))).
  { intros Hm. unfold parseCodeEvaluation, parseSQLEvaluation, parseEvaluation_try.
    rewrite Hm. split; reflexivity. }
  assert (Hbad : forall m, matchBetween "{" "}" text = Some m -> JSON_parse m = None ->
      parseCodeEvaluation text
      = JS.Normal (mkEvaluation (JS.Bool false) (JS.Str "Error evaluating answer")
                     (JS.Str "Evaluation failed due to parsing error"))
      /\ parseSQLEvaluation text
         = JS.Normal (mkEvaluation (JS.Bool false) (JS.Str "Error evaluating SQL answer")
                        (JS.Str "Evaluation failed due to parsing error"))).
  { intros m Hm Hparse.
    unfold parseCodeEvaluation, parseSQLEvaluation, parseEvaluation_try, parse.
    rewrite Hm, Hparse. split; reflexivity. }
  split; [exact (parseEvaluation_never_throws text) | split; [exact Hnone | split; [exact Hbad |]]].
  intros user now questionId answer question correct generateContent Hreply Hfail.
  unfold validateAnswer, grade. simpl.
  unfold createCodeEvaluationPrompt. rewrite Hreply. simpl.
  destruct Hfail as [Hm | (m & Hm & Hparse)].
  - rewrite (proj1 (Hnone Hm)). eexists _, _. reflexivity.
  - rewrite (proj1 (Hbad m Hm Hparse)). eexists _, _. reflexivity.
Qed.

End EvaluationParsing.

(** C6 at work: a reply in prose has no braces, and the braces of [{oops}]
    hold no JSON. *)
Lemma evaluation_parse_failure_witness :
  matchBetween "{" "}" "I cannot help with that." = None
  /\ isCorrect_of_reply "I cannot help with that." = Some (JS.Bool false)
  /\ matchBetween "{" "}" "Verdict: {oops} (sorry)" = Some "{oops}"%string
  /\ JSON_parse (External := Double.external) "{oops}" = None
  /\ parseSQLEvaluation (H := Double.external) "Verdict: {oops} (sorry)"
     = JS.Normal (mkEvaluation (JS.Bool false) (JS.Str "Error evaluating SQL answer")
                    (JS.Str "Evaluation failed due to parsing error")).
Proof.
  split; [reflexivity |].
  split; [unfold isCorrect_of_reply;
          rewrite (proj1 (proj1 (proj2 (evaluation_parse_failure (H := Double.external)
                                           "I cannot help with that.")) eq_refl));
          reflexivity |].
  split; [reflexivity | split; [reflexivity |]].
  exact (proj2 (proj1 (proj2 (proj2 (evaluation_parse_failure (H := Double.external)
                                        "Verdict: {oops} (sorry)")))
                  "{oops}"%string eq_refl eq_refl)).
Defined.

(** ** Generating questions *)

Section GenerationProperties.
Context `{External}.

Lemma generate_cases (user user' : User) (now : Z) (errors : list string)
  (b : GenerateBody) (generateContent : Generator) (r : Response) :
  generate user now errors b generateContent = (r, user') ->
  (status r = 200%nat /\ user' = updateProgress user now (JS.Bool false))
  \/ (status r <> 200%nat /\ user' = user).
Proof.
  unfold generate. destruct (negb (isEmpty errors)).
  - intros Hg. injection Hg as <- <-. right. split; [discriminate | reflexivity].
  - match goal with |- context [match ?c with JS.Normal _ => _ | JS.Throw _ => _ end] =>
      destruct c as [questions | m] end.
    + intros Hg. injection Hg as <- <-. left. split; reflexivity.
    + intros Hg. injection Hg as <- <-. right. split; [discriminate | reflexivity].
Qed.

(** C10.  A successful request to generate questions runs
    [updateProgress(false)] on the account: [totalQuestions] grows by 1,
    [correctAnswers] and [points] stay, and the whole progress aggregate,
    streak and date of last activity included, is the one that grading an
    incorrect answer at the same instant leaves behind. *)
Theorem generate_counts_a_question (user user' : User) (now : Z) (errors : list string)
  (b : GenerateBody) (generateContent : Generator) (r : Response) :
  generate user now errors b generateContent = (r, user') -> status r = 200%nat ->
  totalQuestions (progress user') = (totalQuestions (progress user) + 1)%Z
  /\ correctAnswers (progress user') = correctAnswers (progress user)
  /\ points (progress user') = points (progress user)
  /\ lastActiveDate (progress user') = now
  /\ (forall vb vgen vr vuser vsent,
      validateAnswer user now [] vb vgen = (vr, vuser, vsent) ->
      graded vr = true -> judgedCorrect vr = false ->
      progress vuser = progress user').
Proof.
  intros Hgen Hstatus.
  destruct (generate_cases _ _ _ _ _ _ _ Hgen) as [[_ ->] | [Hbad _]]; [| contradiction].
  destruct (updateProgress_counters user now (JS.Bool false)) as (-> & -> & -> & ->).
  simpl JS.truthy. cbv iota. repeat split; try lia.
  intros vb vgen vr vuser vsent Hcall Hgraded Hwrong.
  destruct (validateAnswer_cases _ _ _ _ _ _ _ _ Hcall)
    as [(Hg & _) | (v & f & e & -> & ->)]; [congruence |].
  unfold judgedCorrect in Hwrong. simpl in Hwrong.
  rewrite (updateProgress_truthy user now v (JS.Bool false) Hwrong). reflexivity.
Qed.

End GenerationProperties.

(** C10 at work: the generative API replies with an empty array, the request
    succeeds, and Alice has one more question to her count. *)
Lemma generate_counts_a_question_witness :
  status (fst (generate (H := Double.external) Double.alice 1000 [] Double.generateBody
                 (Double.replies "[]"))) = 200%nat
  /\ totalQuestions
       (progress (snd (generate (H := Double.external) Double.alice 1000 []
                         Double.generateBody (Double.replies "[]"))))
     = (totalQuestions (progress Double.alice) + 1)%Z.
Proof.
  split; [reflexivity |].
  exact (proj1 (generate_counts_a_question (H := Double.external) Double.alice
                  (snd (generate (H := Double.external) Double.alice 1000 []
                          Double.generateBody (Double.replies "[]")))
                  1000 [] Double.generateBody (Double.replies "[]")
                  (fst (generate (H := Double.external) Double.alice 1000 []
                          Double.generateBody (Double.replies "[]")))
                  eq_refl eq_refl)).
Defined.

(** ** The other routes leave the emails alone *)

Lemma save_emails (u : User) (db : collection) :
  (forall v, In v db -> _id v = _id u -> email v = email u) ->
  map email (save u db) = map email db.
Proof.
  unfold save. induction db as [| v db IH]; simpl; intros Hdb; [reflexivity |].
  rewrite IH by (intros w Hw; apply Hdb; right; exact Hw). f_equal.
  destruct (Nat.eqb_spec (_id v) (_id u)) as [E | _]; [| reflexivity].
  symmetry. apply Hdb; [left; reflexivity | exact E].
Qed.

Lemma same_id_same_document (db : collection) (u v : User) :
  NoDup (map _id db) -> In u db -> In v db -> _id v = _id u -> v = u.
Proof.
  induction db as [| w db IH]; simpl; intros Hids Hu Hv Hid; [contradiction |].
  inversion Hids as [| x l Hnotin Hrest]; subst.
  destruct Hu as [-> | Hu], Hv as [-> | Hv]; try reflexivity.
  - exfalso. apply Hnotin. rewrite <- Hid. apply in_map. exact Hv.
  - exfalso. apply Hnotin. rewrite Hid. apply in_map. exact Hu.
  - exact (IH Hrest Hu Hv Hid).
Qed.

Lemma save_updated_emails (db : collection) (u u' : User) :
  NoDup (map _id db) -> In u db -> _id u' = _id u -> email u' = email u ->
  map email (save u' db) = map email db.
Proof.
  intros Hids Hu Hid Hemail. apply save_emails. intros v Hv Hsame.
  rewrite Hemail. f_equal. apply (same_id_same_document db u v Hids Hu Hv). congruence.
Qed.

(** Both invariants speak of the list of emails only. *)
Lemma invariants_of_emails (db db' : collection) :
  map email db' = map email db ->
  (normalized db -> normalized db') /\ (emailsUnique db -> emailsUnique db').
Proof.
  intros Hemails. unfold normalized, emailsUnique. split.
  - rewrite !Forall_forall. intros Hnorm u Hu.
    assert (Hin : In (email u) (map email db)) by (rewrite <- Hemails; apply in_map; exact Hu).
    apply in_map_iff in Hin. destruct Hin as (v & Hv & Hvin).
    rewrite <- Hv. apply Hnorm. exact Hvin.
  - rewrite <- (map_map email JS.toLowerCase db), <- (map_map email JS.toLowerCase db').
    rewrite Hemails. exact (fun Huniq => Huniq).
Qed.

Section EmailsUntouched.
Context `{External}.

(** X3.  Logging in, by password or by face, and registering a face rewrite one
    stored document without touching its email: the list of emails, and with
    it their uniqueness, stays as it was. *)
Lemma other_routes_keep_emails (db : collection) (now : Z) :
  NoDup (map _id db) ->
  (forall errors e p, map email (snd (login db now errors e p)) = map email db)
  /\ (forall q, map email (snd (faceLogin db now q)) = map email db)
  /\ (forall id d, map email (snd (user_faceRegister db id d)) = map email db)
  /\ (forall id file random,
      map email (snd (face_register db id file random)) = map email db).
Proof.
  intros Hids.
  assert (Hupdate : forall id update,
             (forall v, _id (update v) = _id v) -> (forall v, email (update v) = email v) ->
             map email (fst (findByIdAndUpdate db id update)) = map email db).
  { intros id update Hid Hemail. unfold findByIdAndUpdate.
    destruct (findById db id) as [u |] eqn:Hfind; [| reflexivity].
    apply find_some in Hfind. destruct Hfind as [Hu _]. simpl.
    apply (save_updated_emails db u); [exact Hids | exact Hu | apply Hid | apply Hemail]. }
  split; [| split; [| split]].
  - intros errors e p. unfold login. destruct (negb (isEmpty errors)); [reflexivity |].
    destruct (findOne_email db (normalizeEmail e)) as [u |] eqn:Hfind; [| reflexivity].
    destruct (negb (isActive u)); [reflexivity |].
    destruct (negb (bcrypt_compare p (password u))); [reflexivity |].
    apply find_some in Hfind. destruct Hfind as [Hu _]. simpl.
    apply (save_updated_emails db u); [exact Hids | exact Hu | reflexivity | reflexivity].
  - intros [q |]; [| reflexivity]. rewrite faceLogin_of_bestMatch.
    pose proof (bestMatch_selected q (find_withFaceDescriptor db)) as Hsel.
    destruct (bestMatch q (find_withFaceDescriptor db)) as [[m |] best]; [| reflexivity].
    destruct (negb (isActive m)); [reflexivity |].
    destruct Hsel as (before & after & Husers & _).
    assert (Hm : In m db).
    { assert (Hin : In m (find_withFaceDescriptor db))
        by (rewrite Husers; apply in_or_app; right; left; reflexivity).
      apply filter_In in Hin. exact (proj1 Hin). }
    simpl. apply (save_updated_emails db m); [exact Hids | exact Hm | reflexivity | reflexivity].
  - intros id [d |]; [| reflexivity]. unfold user_faceRegister.
    specialize (Hupdate id (fun u => set_faceDescriptor u (Some d))
                  (fun _ => eq_refl) (fun _ => eq_refl)).
    destruct (findByIdAndUpdate db id _) as [db' [u |]]; exact Hupdate.
  - intros id [path |] random; [| reflexivity]. unfold face_register.
    destruct (simulateFaceDetection_length random) as [_ Hcount]. rewrite Hcount.
    simpl Nat.eqb. simpl Nat.ltb. cbv iota.
    specialize (Hupdate id
                  (fun u => set_avatar (set_faceDescriptor u
                              (Some (fd_descriptor (simulateFaceDetection random))))
                              (Some path))
                  (fun _ => eq_refl) (fun _ => eq_refl)).
    destruct (findByIdAndUpdate db id _) as [db' [u |]]; exact Hupdate.
Qed.

(** The ['sql'] case of validate-answer never reaches the evaluator nor
    [parseSQLEvaluation]: it ends with 500 and leaves the account alone. *)
Lemma sql_grading_fails (user : User) (now : Z) (questionId answer question correct : JS.value)
  (generateContent : Generator) :
  validateAnswer user now []
    (mkValidateBody questionId answer (JS.Str "sql") question correct) generateContent
  = (serverError "Failed to validate answer. Please try again."
       "Cannot access 'model' before initialization", user, []).
Proof. reflexivity. Qed.

End EmailsUntouched.

(** ** Scenarios *)

(** Alice and Bob have the same descriptor.  With Alice first, she is
    selected at similarity 1 and logged in; with Bob first, he is selected,
    and since his account is deactivated the answer is 401. *)
Example faceLogin_first_seen_wins :
  bestMatch Double.v123 [Double.alice; Double.bob] = (Some Double.alice, 1%float)
  /\ bestMatch Double.v123 [Double.bob; Double.alice] = (Some Double.bob, 1%float)
  /\ status (fst (faceLogin (H := Double.external) [Double.alice; Double.bob] 5000
                    (Some Double.v123))) = 200%nat
  /\ fst (faceLogin (H := Double.external) [Double.bob; Double.alice] 5000 (Some Double.v123))
     = error 401 "Account is deactivated".
Proof. repeat split; vm_compute; reflexivity. Qed.

(** The scenario of the specification: with the correct answer "A", the
    answer "A" is correct and the answer "B" is not. *)
Example mcq_scenarios :
  fst (grade (H := Double.external) (Double.mcq "A" "A") Double.down)
  = JS.Normal (mkEvaluation (JS.Bool true) (JS.Str "Correct!") (JS.Str ""))
  /\ fst (grade (H := Double.external) (Double.mcq "B" "A") Double.down)
     = JS.Normal (mkEvaluation (JS.Bool false) (JS.Str "Incorrect.") (JS.Str "")).
Proof. split; reflexivity. Qed.

(** Carol registers as [Carol@Example.com]: the account is stored under
    [carol@example.com] with the one-component descriptor she sent, and a
    second registration under the same email is refused. *)
Example register_twice :
  match register (H := Double.external) Double.users 1000 "salt3" [] Double.carol with
  | (JS.Normal r, db') =>
      status r = 201%nat
      /\ map email db' = ["alice@example.com"; "bob@example.com"; "carol@example.com"]%string
      /\ storedLength db' 3 = Some 1%nat
      /\ fst (register (H := Double.external) db' 2000 "salt4" [] Double.carol)
         = JS.Normal (error 400 "User with this email already exists")
  | _ => False
  end.
Proof. vm_compute. repeat split; reflexivity. Qed.

(** John registers as [John.Doe@Gmail.com]: the sanitizer makes
    [johndoe@gmail.com] of it, a second registration as [johndoe@gmail.com]
    is refused, and he can log in as [John.Doe@gmail.com]. *)
Example register_gmail :
  match register (H := Double.external) Double.users 1000 "salt6" [] Double.john with
  | (JS.Normal r, db') =>
      status r = 201%nat
      /\ map email db' = ["alice@example.com"; "bob@example.com"; "johndoe@gmail.com"]%string
      /\ register (H := Double.external) db' 2000 "salt6" [] Double.johnAgain
         = (JS.Normal (error 400 "User with this email already exists"), db')
      /\ status (fst (login (H := Double.external) db' 3000 [] "John.Doe@gmail.com"
                        "Secret6")) = 200%nat
  | _ => False
  end.
Proof. vm_compute. repeat split; reflexivity. Qed.

(** Wanda's preferences name the learning pace [warp]: [User.create] rejects
    the document, the handler throws and nothing is stored. *)
Example register_invalid_preferences :
  register (H := Double.external) Double.users 1000 "salt7" [] Double.wanda
  = (JS.Throw "User validation failed", Double.users).
Proof. reflexivity. Qed.

(** A reply that holds a verdict is read as such. *)
Example parse_verdict :
  parseCodeEvaluation (H := Double.external) ("Here you are: " ++ Double.verdictText)
  = JS.Normal (mkEvaluation (JS.Bool true) (JS.Str "Well done")
                 (JS.Str "No explanation provided")).
Proof. vm_compute. reflexivity. Qed.

(** * Further properties *)

(** ** Faces: registering, logging in, removing *)

Lemma gt_asym (a b : JS.number) : JS.gt a b = true -> JS.gt b a = false.
Proof. unfold JS.gt. rewrite !ltb_spec. apply SFltb_asym. Qed.

Lemma In_save (u m : User) (db : collection) :
  In m (save u db) -> m = u \/ (In m db /\ _id m <> _id u).
Proof.
  unfold save. intros Hm. apply in_map_iff in Hm. destruct Hm as (v & Hv & Hin).
  destruct (Nat.eqb_spec (_id v) (_id u)) as [E | N].
  - left. symmetry. exact Hv.
  - right. subst m. split; assumption.
Qed.

Lemma findById_none (db : collection) (id : nat) (u : User) :
  findById db id = None -> In u db -> _id u <> id.
Proof.
  intros Hnone Hu Hid. pose proof (find_none _ _ Hnone u Hu) as Hne. simpl in Hne.
  apply Nat.eqb_neq in Hne. contradiction.
Qed.

Section FaceRoundTrips.
Context `{External}.

(** X4.  Once a user has registered a descriptor of 1 to 4096 finite numbers on
    the user route, a face-login with that descriptor always selects an
    account, at a score not below 1: the answer is never
    [Face not recognized].  The account selected is the first of the best
    ones, which need not be the account that registered. *)
Theorem registered_face_is_recognized (db db' : collection) (now : Z) (userId : nat)
  (d : descriptor) (r : Response) :
  forallb finite d = true -> (1 <= List.length d <= 4096)%nat ->
  user_faceRegister db userId (Some d) = (JS.Normal r, db') ->
  exists m best,
    bestMatch d (find_withFaceDescriptor db') = (Some m, best)
    /\ JS.gt 1%float best = false
    /\ faceLogin db' now (Some d)
       = if isActive m
         then (mkResponse 200
                 (AuthBody "Face login successful" (authView (set_login m now ByFace))
                    (generateToken (_id m)) (Some best)),
               save (set_login m now ByFace) db')
         else (error 401 "Account is deactivated", db').
Proof.
  intros Hfinite Hlen Hreg. unfold user_faceRegister in Hreg.
  destruct (findByIdAndUpdate db userId _) as [db1 [u |]] eqn:Hupd; [| discriminate].
  injection Hreg as _ <-.
  apply findByIdAndUpdate_stored in Hupd; [| reflexivity].
  destruct Hupd as (Hfound & v & _ & ->).
  set (u' := set_faceDescriptor v (Some d)) in *.
  assert (Hin : In u' (find_withFaceDescriptor db1)).
  { apply filter_In. split; [| reflexivity]. apply find_some in Hfound. exact (proj1 Hfound). }
  assert (Hscore : scoreOf d u' = Some 1%float).
  { unfold scoreOf. simpl. rewrite Nat.eqb_refl, (calculateSimilarity_self d Hfinite Hlen).
    reflexivity. }
  pose proof (bestMatch_selected d (find_withFaceDescriptor db1)) as Hsel.
  rewrite faceLogin_of_bestMatch.
  destruct (bestMatch d (find_withFaceDescriptor db1)) as [[m |] best].
  - exists m, best. split; [reflexivity |]. split.
    + destruct Hsel as (before & after & Husers & Hm & _ & Hbefore & Hafter).
      rewrite Husers in Hin. apply in_app_or in Hin. destruct Hin as [Hb | [-> | Ha]].
      * apply gt_asym. exact (Hbefore u' _ Hb Hscore eq_refl).
      * rewrite Hscore in Hm. injection Hm as <-. reflexivity.
      * exact (Hafter u' _ Ha Hscore).
    + destruct (isActive m); reflexivity.
  - exfalso. destruct Hsel as [_ Hnone]. specialize (Hnone u' Hin).
    unfold clears in Hnone. rewrite Hscore in Hnone. discriminate.
Qed.

(** X5.  After either route has removed the face of a user, no face-login
    selects that user any more, whatever the query, and the status route
    reports that no face is registered. *)
Theorem removed_face_is_forgotten (db : collection) (userId : nat) :
  (forall o db' q m best,
      user_faceRemove db userId = (o, db') \/ face_remove db userId = (o, db') ->
      bestMatch q (find_withFaceDescriptor db') = (Some m, best) ->
      _id m <> userId)
  /\ (forall r db',
      user_faceRemove db userId = (JS.Normal r, db')
      \/ face_remove db userId = (JS.Normal r, db') ->
      exists s, face_status db' userId = JS.Normal s
                /\ option_map hasFaceRegistered (data s) = Some false).
Proof.
  assert (Hupdate : forall update db' o,
             (forall v, _id (update v) = _id v) ->
             (forall v, faceDescriptor (update v) = None) ->
             findByIdAndUpdate db userId update = (db', o) ->
             (forall m, In m db' -> hasFaceDescriptor m = true -> _id m <> userId)
             /\ (forall u, o = Some u ->
                 findById db' userId = Some u /\ faceDescriptor u = None)).
  { intros update db' o Hid Hnone Hupd. split.
    - unfold findByIdAndUpdate in Hupd.
      destruct (findById db userId) as [u |] eqn:Hfind.
      + injection Hupd as <- _. intros m Hm Hface.
        apply find_some in Hfind. destruct Hfind as [_ Hu]. apply Nat.eqb_eq in Hu.
        apply In_save in Hm. destruct Hm as [-> | [_ Hother]].
        * unfold hasFaceDescriptor in Hface. rewrite Hnone in Hface. discriminate.
        * rewrite Hid, Hu in Hother. exact Hother.
      + injection Hupd as <- _. intros m Hm _. exact (findById_none db userId m Hfind Hm).
    - intros u ->. apply findByIdAndUpdate_stored in Hupd; [| exact Hid].
      destruct Hupd as (Hfound & v & _ & ->). split; [exact Hfound | apply Hnone]. }
  assert (Hselected : forall db' q m best,
             (forall m, In m db' -> hasFaceDescriptor m = true -> _id m <> userId) ->
             bestMatch q (find_withFaceDescriptor db') = (Some m, best) -> _id m <> userId).
  { intros db' q m best Hother Hbest.
    pose proof (bestMatch_selected q (find_withFaceDescriptor db')) as Hsel.
    rewrite Hbest in Hsel. destruct Hsel as (before & after & Husers & _).
    assert (Hin : In m (find_withFaceDescriptor db'))
      by (rewrite Husers; apply in_or_app; right; left; reflexivity).
    apply filter_In in Hin. exact (Hother m (proj1 Hin) (proj2 Hin)). }
  split.
  - intros o db' q m best Hrem Hbest. apply (Hselected db' q m best); [| exact Hbest].
    destruct Hrem as [Hrem | Hrem].
    + unfold user_faceRemove in Hrem.
      destruct (findByIdAndUpdate db userId _) as [db1 o1] eqn:Hupd.
      assert (db' = db1) by (destruct o1; injection Hrem as _ <-; reflexivity). subst db1.
      exact (proj1 (Hupdate (fun u => set_faceDescriptor u None) _ _
                      (fun _ => eq_refl) (fun _ => eq_refl) Hupd)).
    + unfold face_remove in Hrem. destruct (findById db userId) as [current |] eqn:Hcur.
      * destruct (findByIdAndUpdate db userId _) as [db1 o1] eqn:Hupd.
        assert (db' = db1) by (destruct o1; injection Hrem as _ <-; reflexivity). subst db1.
        exact (proj1 (Hupdate (fun u => set_avatar (set_faceDescriptor u None) None) _ _
                        (fun _ => eq_refl) (fun _ => eq_refl) Hupd)).
      * injection Hrem as _ <-. intros m0 Hm0 _. exact (findById_none db userId m0 Hcur Hm0).
  - intros r db' [Hrem | Hrem].
    + unfold user_faceRemove in Hrem.
      destruct (findByIdAndUpdate db userId _) as [db1 [u |]] eqn:Hupd; [| discriminate].
      injection Hrem as _ <-.
      destruct (proj2 (Hupdate (fun u => set_faceDescriptor u None) _ _
                         (fun _ => eq_refl) (fun _ => eq_refl) Hupd) u eq_refl)
        as [Hfound Hnone].
      unfold face_status. rewrite Hfound. eexists. split; [reflexivity |].
      simpl. unfold hasFaceDescriptor. rewrite Hnone. reflexivity.
    + unfold face_remove in Hrem. destruct (findById db userId) as [current |]; [| discriminate].
      destruct (findByIdAndUpdate db userId _) as [db1 [u |]] eqn:Hupd; [| discriminate].
      injection Hrem as _ <-.
      destruct (proj2 (Hupdate (fun u => set_avatar (set_faceDescriptor u None) None) _ _
                         (fun _ => eq_refl) (fun _ => eq_refl) Hupd) u eq_refl)
        as [Hfound Hnone].
      unfold face_status. rewrite Hfound. eexists. split; [reflexivity |].
      simpl. unfold hasFaceDescriptor. rewrite Hnone. reflexivity.
Qed.

End FaceRoundTrips.

(** Alice registers 128 halves as her face and is recognised by them. *)
Lemma registered_face_is_recognized_witness :
  forallb finite Sample.halves = true
  /\ (1 <= List.length Sample.halves <= 4096)%nat
  /\ exists m best,
       bestMatch Sample.halves
         (find_withFaceDescriptor
            (snd (user_faceRegister Double.users 1 (Some Sample.halves))))
       = (Some m, best)
       /\ JS.gt 1%float best = false.
Proof.
  assert (Hfinite : forallb finite Sample.halves = true) by (vm_compute; reflexivity).
  assert (Hlen : (1 <= List.length Sample.halves <= 4096)%nat) by (vm_compute; lia).
  split; [exact Hfinite | split; [exact Hlen |]].
  destruct (registered_face_is_recognized (H := Double.external) Double.users
              (snd (user_faceRegister Double.users 1 (Some Sample.halves))) 0 1
              Sample.halves
              (mkResponse 200 (UserBody "Face registered successfully"
                                 (profileView Double.alice)))
              Hfinite Hlen eq_refl) as (m & best & Hbest & Hle & _).
  exists m, best. split; [exact Hbest | exact Hle].
Defined.

(** ** Accounts: registering, logging in, changing the password, deleting *)


(** [save] of a new version of the first document that [p] finds, when [p]
    cannot tell the two versions apart. *)
Lemma find_save (p : User -> bool) (db : collection) (u u' : User) :
  NoDup (map _id db) -> find p db = Some u -> _id u' = _id u -> p u' = true ->
  find p (save u' db) = Some u'.
Proof.
  unfold save. induction db as [| v db IH]; simpl; [discriminate |].
  intros Hids Hfind Hid Hp. inversion Hids as [| x l Hnotin Hrest]; subst.
  destruct (p v) eqn:Hv.
  - injection Hfind as ->. rewrite Hid, Nat.eqb_refl, Hp. reflexivity.
  - destruct (Nat.eqb_spec (_id v) (_id u')) as [E | _].
    + exfalso. apply Hnotin. rewrite E, Hid. apply in_map.
      apply find_some in Hfind. exact (proj1 Hfind).
    + rewrite Hv. exact (IH Hrest Hfind Hid Hp).
Qed.

Lemma findById_save_other (db : collection) (u : User) (id : nat) :
  id <> _id u -> findById (save u db) id = findById db id.
Proof.
  intros Hother. unfold findById, save. induction db as [| v db IH]; simpl; [reflexivity |].
  destruct (Nat.eqb_spec (_id v) (_id u)) as [E | N].
  - destruct (Nat.eqb_spec (_id u) id) as [E' | _]; [congruence |].
    destruct (Nat.eqb_spec (_id v) id) as [E' | _]; [congruence | exact IH].
  - destruct (Nat.eqb (_id v) id); [reflexivity | exact IH].
Qed.

Lemma findByIdAndDelete_spec (db : collection) (id : nat) :
  NoDup (map _id db) ->
  forall u, In u (findByIdAndDelete db id) <-> In u db /\ _id u <> id.
Proof.
  induction db as [| v db IH]; simpl; intros Hids u; [tauto |].
  inversion Hids as [| x l Hnotin Hrest]; subst.
  destruct (Nat.eqb_spec (_id v) id) as [E | N].
  - split.
    + intros Hu. split; [right; exact Hu |]. intros Hid. apply Hnotin.
      rewrite E, <- Hid. apply in_map. exact Hu.
    + intros [[-> | Hu] Hid]; [contradiction | exact Hu].
  - simpl. rewrite (IH Hrest u). split.
    + intros [-> | [Hu Hid]]; [split; [left; reflexivity | exact N] | split; [right |]; assumption].
    + intros [[-> | Hu] Hid]; [left; reflexivity | right; split; assumption].
Qed.

Lemma same_field_same_document {A : Type} (f : User -> A) (db : collection) (u v : User) :
  NoDup (map f db) -> In u db -> In v db -> f v = f u -> v = u.
Proof.
  induction db as [| w db IH]; simpl; intros Hdistinct Hu Hv Hsame; [contradiction |].
  inversion Hdistinct as [| x l Hnotin Hrest]; subst.
  destruct Hu as [-> | Hu], Hv as [-> | Hv]; try reflexivity.
  - exfalso. apply Hnotin. rewrite <- Hsame. apply in_map. exact Hv.
  - exfalso. apply Hnotin. rewrite Hsame. apply in_map. exact Hu.
  - exact (IH Hrest Hu Hv Hsame).
Qed.

Section AccountProperties.
Context `{External}.

(** What a successful registration stores, field by field. *)
Lemma register_stored (db db' : collection) (now : Z) (salt : string)
  (errors : list string) (b : RegisterBody) (r : Response) :
  register db now salt errors b = (JS.Normal r, db') -> status r = 201 ->
  findOne_email db (normalizeEmail (reg_email b)) = None
  /\ exists user,
       db' = db ++ [user]
       /\ _id user = freshId db
       /\ email user = castEmail (normalizeEmail (reg_email b))
       /\ password user = bcrypt_hash (reg_password b) salt
       /\ isActive user = true
       /\ validateUser (set_password user (reg_password b)) = true
       /\ r = mkResponse 201
                (AuthBody "User registered successfully" (authView user)
                   (generateToken (_id user)) None).
Proof.
  unfold register. destruct errors as [| e errors]; simpl.
  - destruct (findOne_email db (normalizeEmail (reg_email b))) as [existing |] eqn:Hfind.
    + intros Hreg Hstatus. injection Hreg as <- <-. discriminate Hstatus.
    + unfold User_create.
      destruct (validateUser _) eqn:Hvalid; simpl; [| discriminate].
      destruct (existsb _ db); [discriminate |].
      intros Hreg _. injection Hreg as <- <-. split; [reflexivity |].
      eexists. split.
      { apply save_appended; [reflexivity |].
        intros v Hv. simpl. pose proof (freshId_above db v Hv). lia. }
      repeat split; try reflexivity. exact Hvalid.
  - intros Hreg Hstatus. injection Hreg as <- <-. discriminate Hstatus.
Qed.


(** X7.  Changing the password.  With a wrong current password the answer is 400
    and nothing is stored.  After an answer of 200 the account holds the
    hash of the new password, unless the new password is, letter for letter,
    the stored hash, in which case the hook does not run and the hash
    stays; no other account changes; and a login with the new password
    succeeds where the email leads to this account, provided bcrypt accepts
    the password against its hash. *)
Theorem password_change (db : collection) (userId : nat) (salt : string)
  (currentPassword newPassword : string) :
  NoDup (map _id db) ->
  (forall u errors, findById db userId = Some u ->
      bcrypt_compare currentPassword (password u) = false ->
      changePassword db userId salt errors currentPassword newPassword
      = (JS.Normal
           (if isEmpty errors then failure 400 "Current password is incorrect"
            else mkReply 400 false (Some "Validation failed"%string) errors None), db))
  /\ (forall errors r db',
      changePassword db userId salt errors currentPassword newPassword = (JS.Normal r, db') ->
      code r = 200 ->
      exists u,
        findById db userId = Some u
        /\ bcrypt_compare currentPassword (password u) = true
        /\ (6 <= String.length newPassword)%nat
        /\ db' = save (if String.eqb newPassword (password u) then u
                       else set_password u (bcrypt_hash newPassword salt)) db
        /\ (forall id, id <> userId -> findById db' id = findById db id)
        /\ (forall now e,
            newPassword <> password u ->
            bcrypt_compare newPassword (bcrypt_hash newPassword salt) = true ->
            findOne_email db (normalizeEmail e) = Some u -> isActive u = true ->
            status (fst (login db' now [] e newPassword)) = 200)).
Proof.
  intros Hids. split.
  - intros u errors Hfind Hwrong. unfold changePassword.
    destruct errors as [| e errors]; simpl; [| reflexivity].
    rewrite Hfind, Hwrong. reflexivity.
  - intros errors r db'. unfold changePassword.
    destruct errors as [| e errors]; simpl;
      [| intros Hc Hcode; injection Hc as <- <-; discriminate Hcode].
    destruct (findById db userId) as [u |] eqn:Hfind; [| discriminate].
    destruct (bcrypt_compare currentPassword (password u)) eqn:Hcur; simpl;
      [| intros Hc Hcode; injection Hc as <- <-; discriminate Hcode].
    destruct (validateUser (set_password u newPassword)) eqn:Hvalid; simpl; [| discriminate].
    intros Hc _. injection Hc as _ <-. exists u.
    assert (Hid : _id u = userId)
      by (apply find_some in Hfind; apply Nat.eqb_eq; exact (proj2 Hfind)).
    set (stored := if String.eqb newPassword (password u) then u
                   else set_password u (bcrypt_hash newPassword salt)).
    assert (Hstored : _id stored = _id u) by (unfold stored; destruct (String.eqb _ _); reflexivity).
    split; [reflexivity | split; [exact Hcur | split; [| split; [reflexivity | split]]]].
    + unfold validateUser in Hvalid. simpl in Hvalid.
      repeat (apply andb_true_iff in Hvalid; destruct Hvalid as [Hvalid ?]).
      apply Nat.leb_le. assumption.
    + intros id Hother. apply findById_save_other. rewrite Hstored, Hid. exact Hother.
    + intros now e Hnew Hbcrypt Hemail Hactive. unfold login. simpl.
      apply String.eqb_neq in Hnew. unfold stored. rewrite Hnew.
      unfold findOne_email in *.
      rewrite (find_save _ db u (set_password u (bcrypt_hash newPassword salt)) Hids Hemail
                 eq_refl).
      * simpl. rewrite Hactive, Hbcrypt. reflexivity.
      * simpl. apply find_some in Hemail. exact (proj2 Hemail).
Qed.

(** X8.  Deleting an account removes it and nothing else; afterwards its
    identifier leads nowhere, no face-login selects it, and, the stored
    emails being pairwise different, a login under an email that led to it
    is answered like a login under an unknown email. *)
Theorem deleted_account_is_gone (db : collection) (userId : nat) :
  NoDup (map _id db) ->
  let db' := snd (deleteAccount db userId) in
  (forall u, In u db' <-> In u db /\ _id u <> userId)
  /\ findById db' userId = None
  /\ (forall q m best,
      bestMatch q (find_withFaceDescriptor db') = (Some m, best) -> _id m <> userId)
  /\ (forall u now e p,
      NoDup (map email db) -> In u db -> _id u = userId ->
      castEmail (normalizeEmail e) = email u ->
      login db' now [] e p = (error 401 "Invalid credentials", db')).
Proof.
  intros Hids db'. unfold deleteAccount in db'. simpl in db'.
  pose proof (findByIdAndDelete_spec db userId Hids) as Hspec. fold db' in Hspec.
  split; [exact Hspec | split; [| split]].
  - unfold findById. destruct (find _ db') as [u |] eqn:Hfind; [| reflexivity].
    apply find_some in Hfind. destruct Hfind as [Hu Hid]. apply Nat.eqb_eq in Hid.
    apply Hspec in Hu. destruct Hu as [_ Hne]. contradiction.
  - intros q m best Hbest.
    pose proof (bestMatch_selected q (find_withFaceDescriptor db')) as Hsel.
    rewrite Hbest in Hsel. destruct Hsel as (before & after & Husers & _).
    assert (Hin : In m (find_withFaceDescriptor db'))
      by (rewrite Husers; apply in_or_app; right; left; reflexivity).
    apply filter_In in Hin. destruct Hin as [Hin _]. apply Hspec in Hin. exact (proj2 Hin).
  - intros u now e p Hemails Hu Hid He. unfold login. simpl. unfold findOne_email.
    destruct (find _ db') as [v |] eqn:Hfind; [| reflexivity].
    exfalso. apply find_some in Hfind. destruct Hfind as [Hv Hsame].
    apply Hspec in Hv. destruct Hv as [Hv Hne]. apply Hne. rewrite <- Hid.
    apply String.eqb_eq in Hsame. rewrite He in Hsame.
    f_equal. exact (same_field_same_document email db u v Hemails Hu Hv Hsame).
Qed.

End AccountProperties.


(** Alice changes her password and logs in with the new one. *)
Lemma password_change_witness :
  NoDup (map _id Double.users)
  /\ exists db',
       snd (changePassword (H := Double.external) Double.users 1 "salt7" []
              "Secret1" "Secret9") = db'
       /\ status (fst (login (H := Double.external) db' 5000 [] "alice@example.com"
                         "Secret9")) = 200%nat
       /\ findById db' 2 = Some Double.bob.
Proof.
  assert (Hids : NoDup (map _id Double.users)).
  { repeat constructor; simpl; intros Hin; repeat destruct Hin as [Hin | Hin];
      try discriminate; exact Hin. }
  split; [exact Hids |].
  eexists. split; [reflexivity |].
  destruct (proj2 (password_change (H := Double.external) Double.users 1 "salt7"
                     "Secret1" "Secret9" Hids)
              [] (mkReply 200 true (Some "Password changed successfully"%string) [] None)
              (snd (changePassword (H := Double.external) Double.users 1 "salt7" []
                      "Secret1" "Secret9"))
              eq_refl eq_refl)
    as (u & Hfind & _ & _ & _ & Hothers & Hlogin).
  injection Hfind as <-. split.
  - apply (Hlogin 5000%Z "alice@example.com"%string); try reflexivity. discriminate.
  - rewrite (Hothers 2%nat); [reflexivity | discriminate].
Defined.

(** Bob's account is deleted: Alice stays, and Bob's email is unknown. *)
Lemma deleted_account_is_gone_witness :
  NoDup (map _id Double.users)
  /\ snd (deleteAccount Double.users 2) = [Double.alice]
  /\ login (H := Double.external) (snd (deleteAccount Double.users 2)) 0 []
       "bob@example.com" "Secret2"
     = (error 401 "Invalid credentials", snd (deleteAccount Double.users 2)).
Proof.
  assert (Hids : NoDup (map _id Double.users)).
  { repeat constructor; simpl; intros Hin; repeat destruct Hin as [Hin | Hin];
      try discriminate; exact Hin. }
  split; [exact Hids | split; [reflexivity |]].
  apply (proj2 (proj2 (proj2 (deleted_account_is_gone (H := Double.external)
                                Double.users 2 Hids)))
           Double.bob 0%Z "bob@example.com"%string "Secret2"%string).
  - repeat constructor; simpl; intros Hin; repeat destruct Hin as [Hin | Hin];
      try discriminate; exact Hin.
  - right. left. reflexivity.
  - reflexivity.
  - reflexivity.
Defined.

Section SuccessfulLogins.
Context `{External}.

(** X9.  No login without the check: an answer of 200 on the password route means
    that the email leads to a stored, active account whose hash bcrypt
    accepted for the password; on the face route, that the account selected
    by the scan is active.  In both cases that account alone is rewritten,
    and only in [lastLogin] and [loginMethod]. *)
Theorem successful_logins :
  (forall db now errors e p r db',
      login db now errors e p = (r, db') -> status r = 200 ->
      exists u,
        findOne_email db (normalizeEmail e) = Some u
        /\ isActive u = true
        /\ bcrypt_compare p (password u) = true
        /\ r = mkResponse 200
                 (AuthBody "Login successful" (authView (set_login u now ByEmail))
                    (generateToken (_id u)) None)
        /\ db' = save (set_login u now ByEmail) db)
  /\ (forall db now q r db',
      faceLogin db now q = (r, db') -> status r = 200 ->
      exists query m best,
        q = Some query
        /\ bestMatch query (find_withFaceDescriptor db) = (Some m, best)
        /\ In m db /\ isActive m = true /\ clears query m = true
        /\ db' = save (set_login m now ByFace) db).
Proof.
  split.
  - intros db now errors e p r db'. unfold login.
    destruct errors as [| x errors]; simpl;
      [| intros Hl Hs; injection Hl as <- <-; discriminate Hs].
    destruct (findOne_email db (normalizeEmail e)) as [u |];
      [| intros Hl Hs; injection Hl as <- <-; discriminate Hs].
    destruct (isActive u) eqn:Hactive; simpl;
      [| intros Hl Hs; injection Hl as <- <-; discriminate Hs].
    destruct (bcrypt_compare p (password u)) eqn:Hp; simpl;
      [| intros Hl Hs; injection Hl as <- <-; discriminate Hs].
    intros Hl _. injection Hl as <- <-. exists u. repeat split; assumption.
  - intros db now [query |] r db';
      [| intros Hl Hs; injection Hl as <- <-; discriminate Hs].
    rewrite faceLogin_of_bestMatch.
    pose proof (bestMatch_selected query (find_withFaceDescriptor db)) as Hsel.
    destruct (bestMatch query (find_withFaceDescriptor db)) as [[m |] best] eqn:Hbm;
      [| intros Hl Hs; injection Hl as <- <-; discriminate Hs].
    destruct (isActive m) eqn:Hactive;
      [| intros Hl Hs; injection Hl as <- <-; discriminate Hs].
    intros Hl _. injection Hl as _ <-.
    destruct Hsel as (before & after & Husers & Hm & Hbest & _).
    exists query, m, best. repeat split; try assumption; try reflexivity.
    + assert (Hin : In m (find_withFaceDescriptor db))
        by (rewrite Husers; apply in_or_app; right; left; reflexivity).
      apply filter_In in Hin. exact (proj1 Hin).
    + unfold clears. rewrite Hm. exact Hbest.
Qed.

End SuccessfulLogins.

(** ** Progress and grading *)

Section ProgressProperties.
Context `{External}.

(** X10.  The progress aggregate stays consistent: the counters of a new
    account are consistent, and [updateProgress], validate-answer and
    generate keep consistent counters so, whatever happens, and never lower
    [totalQuestions]. *)
Theorem progress_stays_consistent (user : User) :
  consistent (progress user) ->
  (forall now c,
      consistent (progress (updateProgress user now c))
      /\ (totalQuestions (progress user) < totalQuestions (progress (updateProgress user now c)))%Z)
  /\ (forall now errors b generateContent,
      consistent (progress (snd (fst (validateAnswer user now errors b generateContent))))
      /\ (totalQuestions (progress user)
          <= totalQuestions (progress (snd (fst (validateAnswer user now errors b
                                                      generateContent)))))%Z)
  /\ (forall now errors b generateContent,
      consistent (progress (snd (generate user now errors b generateContent)))
      /\ (totalQuestions (progress user)
          <= totalQuestions (progress (snd (generate user now errors b generateContent))))%Z)
  /\ (forall calls, consistent (progress (snd (validateAnswers user calls))))
  /\ (forall t, consistent (freshProgress t)).
Proof.
  intros Hcons.
  assert (Hstep : forall u now c, consistent (progress u) ->
             consistent (progress (updateProgress u now c))
             /\ (totalQuestions (progress u)
                 < totalQuestions (progress (updateProgress u now c)))%Z).
  { intros u now c [Hrange Hpoints]. unfold consistent.
    destruct (updateProgress_counters u now c) as (-> & -> & -> & _).
    destruct (JS.truthy c); lia. }
  assert (Hvalidate : forall u now errors b g, consistent (progress u) ->
             consistent (progress (snd (fst (validateAnswer u now errors b g))))
             /\ (totalQuestions (progress u)
                 <= totalQuestions (progress (snd (fst (validateAnswer u now errors b g)))))%Z).
  { intros u now errors b g Hu.
    destruct (validateAnswer u now errors b g) as [[r u'] sent] eqn:Hcall. simpl.
    destruct (validateAnswer_cases _ _ _ _ _ _ _ _ Hcall)
      as [(_ & _ & _ & ->) | (v & f & e & _ & ->)].
    - split; [exact Hu | lia].
    - destruct (Hstep u now v Hu) as [Hc Hlt]. split; [exact Hc | lia]. }
  split; [intros now c; exact (Hstep user now c Hcons) | split; [| split; [| split]]].
  - intros now errors b g. exact (Hvalidate user now errors b g Hcons).
  - intros now errors b g.
    destruct (generate user now errors b g) as [r u'] eqn:Hgen. simpl.
    destruct (generate_cases _ _ _ _ _ _ _ Hgen) as [[_ ->] | [_ ->]].
    + destruct (Hstep user now (JS.Bool false) Hcons) as [Hc Hlt]. split; [exact Hc | lia].
    + split; [exact Hcons | lia].
  - intros calls. revert user Hcons. induction calls as [| c calls IH]; intros user Hcons.
    + exact Hcons.
    + cbn [validateAnswers].
      pose proof (Hvalidate user (call_now c) (call_errors c) (call_body c)
                    (call_generator c) Hcons) as [Hnext _].
      destruct (validateAnswer user (call_now c) (call_errors c) (call_body c)
                  (call_generator c)) as [[r user1] sent].
      specialize (IH user1 Hnext).
      destruct (validateAnswers user1 calls) as [rs user2]. exact IH.
  - intros t. unfold consistent. simpl. lia.
Qed.

(** X11.  Outside development the answers 500 of generate and validate-answer say
    nothing of what went wrong: the body is one fixed message, whatever was
    thrown, and the account is left as it was. *)
Theorem production_hides_error_details (user : User) (now : Z) (errors : list string)
  (generateContent : Generator) :
  development = false ->
  (forall b r user',
      generate user now errors b generateContent = (r, user') -> status r = 500 ->
      r = mkResponse 500 (ErrorBody "Failed to generate questions. Please try again." [] None)
      /\ user' = user)
  /\ (forall b r user' sent,
      validateAnswer user now errors b generateContent = (r, user', sent) ->
      status r = 500 ->
      r = mkResponse 500 (ErrorBody "Failed to validate answer. Please try again." [] None)
      /\ user' = user).
Proof.
  intros Hprod. split.
  - intros b r user'. unfold generate, serverError. rewrite Hprod.
    destruct (negb (isEmpty errors));
      [intros Hg Hs; injection Hg as <- <-; discriminate Hs |].
    match goal with |- context [match ?c with JS.Normal _ => _ | JS.Throw _ => _ end] =>
      destruct c as [questions | m] end.
    + intros Hg Hs. injection Hg as <- <-. discriminate Hs.
    + intros Hg _. injection Hg as <- <-. split; reflexivity.
  - intros b r user' sent. unfold validateAnswer, serverError. rewrite Hprod.
    destruct (negb (isEmpty errors));
      [intros Hg Hs; injection Hg as <- <- _; discriminate Hs |].
    destruct (grade b generateContent) as [[v | m] sent'].
    + intros Hg Hs. injection Hg as <- <- _. discriminate Hs.
    + intros Hg _. injection Hg as <- <- _. split; reflexivity.
Qed.

(** X12.  An answer to a question of a type other than MCQ, coding and sql, such
    as the types network and chatbot that the validation lets through, is
    graded without any call to the generative API, and graded as incorrect:
    it counts as a question answered and earns nothing. *)
Theorem unsupported_types_count_as_incorrect (user : User) (now : Z) (b : ValidateBody)
  (generateContent : Generator) :
  JS.strict_equals (val_questionType b) (JS.Str "MCQ") = false ->
  JS.strict_equals (val_questionType b) (JS.Str "coding") = false ->
  JS.strict_equals (val_questionType b) (JS.Str "sql") = false ->
  validateAnswer user now [] b generateContent
  = (mkResponse 200
       (GradedBody (JS.Bool false)
          (JS.Str "Answer validation not implemented for this question type.") (JS.Str "")
          (getStats (updateProgress user now (JS.Bool false)))),
     updateProgress user now (JS.Bool false), [])
  /\ totalQuestions (progress (updateProgress user now (JS.Bool false)))
     = (totalQuestions (progress user) + 1)%Z
  /\ points (progress (updateProgress user now (JS.Bool false))) = points (progress user).
Proof.
  intros Hmcq Hcoding Hsql. split.
  - unfold validateAnswer, grade. simpl. rewrite Hmcq, Hcoding, Hsql. reflexivity.
  - destruct (updateProgress_counters user now (JS.Bool false)) as (-> & _ & -> & _).
    simpl. split; lia.
Qed.

End ProgressProperties.

(** Alice's counters are consistent, before and after her three requests. *)
Lemma progress_stays_consistent_witness :
  consistent (progress Double.alice)
  /\ consistent (progress (snd (validateAnswers (H := Double.external) Double.alice
                                  Double.threeCalls))).
Proof.
  assert (Hcons : consistent (progress Double.alice)) by (unfold consistent; simpl; lia).
  split; [exact Hcons |].
  exact (proj1 (proj2 (proj2 (proj2 (progress_stays_consistent (H := Double.external)
                                       Double.alice Hcons)))) Double.threeCalls).
Defined.

(** The test double runs outside development: when the generative API is
    down, the answer does not repeat its message. *)
Lemma production_hides_error_details_witness :
  development (External := Double.external) = false
  /\ fst (generate (H := Double.external) Double.alice 1000 [] Double.generateBody Double.down)
     = mkResponse 500 (ErrorBody "Failed to generate questions. Please try again." [] None).
Proof.
  split; [reflexivity |].
  exact (proj1 (proj1 (production_hides_error_details (H := Double.external) Double.alice
                         1000 [] Double.down eq_refl)
                  Double.generateBody _ _ eq_refl eq_refl)).
Defined.

(** An answer to a question of type network. *)
Lemma unsupported_types_count_as_incorrect_witness :
  JS.strict_equals (JS.Str "network") (JS.Str "MCQ") = false
  /\ status (fst (fst (validateAnswer (H := Double.external) Double.alice 1000 []
                         (mkValidateBody (JS.Str "q3") (JS.Str "a star") (JS.Str "network")
                            (JS.Str "Which topology?") (JS.Str "a ring"))
                         Double.down))) = 200%nat.
Proof.
  split; [reflexivity |].
  rewrite (proj1 (unsupported_types_count_as_incorrect (H := Double.external) Double.alice
                    1000
                    (mkValidateBody (JS.Str "q3") (JS.Str "a star") (JS.Str "network")
                       (JS.Str "Which topology?") (JS.Str "a ring"))
                    Double.down eq_refl eq_refl eq_refl)).
  reflexivity.
Defined.

(** ** Parsing the generated questions *)

Lemma append_cancel_l (s t t' : string) : (s ++ t = s ++ t')%string -> t = t'.
Proof.
  induction s as [| c s IH]; simpl; intros Heq; [exact Heq |].
  injection Heq as Heq. exact (IH Heq).
Qed.

Lemma decimal_inj (a b : Z) : decimal a = decimal b -> a = b.
Proof.
  unfold decimal. intros Heq.
  assert (Hnonnil : forall n, Z.to_int n <> Decimal.Pos Decimal.Nil
                              /\ Z.to_int n <> Decimal.Neg Decimal.Nil).
  { intros [| p | p]; simpl; split; try discriminate;
      intros Hp; injection Hp as Hp; exact (DecimalPos.Unsigned.to_uint_nonnil p Hp). }
  apply DecimalZ.to_int_inj.
  apply (f_equal NilZero.int_of_string) in Heq.
  rewrite !NilZero.isi in Heq by apply Hnonnil.
  injection Heq as Heq. exact Heq.
Qed.

Lemma generatedId_inj (now : Z) (i j : nat) :
  generatedId now i = generatedId now j -> i = j.
Proof.
  unfold generatedId. intros Heq. injection Heq as Heq.
  apply append_cancel_l in Heq. injection Heq as Heq.
  apply decimal_inj in Heq. lia.
Qed.

Section ParsingQuestions.
Context `{External}.

Lemma cleanQuestion_readable (now : Z) (questionType : JS.value) (index : nat)
  (q : JS.value) :
  if readable q
  then exists x, cleanQuestion now questionType index q = JS.Normal x
                 /\ q_type x = questionType
                 /\ JS.truthy (q_id x) = true
                 /\ JS.truthy (q_options x) = true
                 /\ JS.truthy (q_language x) = true
                 /\ JS.truthy (q_testCases x) = true
                 /\ (lacksId q = true -> q_id x = generatedId now index)
                 /\ (lacksId q = false -> JS.get q "id" = JS.Normal (q_id x))
  else exists m, cleanQuestion now questionType index q = JS.Throw m.
Proof.
  assert (Hor : forall a b, JS.truthy b = true -> JS.truthy (JS.or_else a b) = true).
  { intros a b Hb. unfold JS.or_else. destruct (JS.truthy a) eqn:Ha; assumption. }
  destruct q as [| | b | n | s | items | fields]; cbn [readable];
    try (eexists; reflexivity);
    (eexists; split; [reflexivity |]; cbn [q_type q_id q_options q_language q_testCases];
     repeat split;
     try (apply Hor; reflexivity);
     unfold lacksId, JS.get; cbn [JS.truthy negb]; try discriminate;
     try (intros _; reflexivity)).
  - intros Hlack. unfold JS.or_else.
    apply negb_true_iff in Hlack. rewrite Hlack. reflexivity.
  - intros Hlack. unfold JS.or_else.
    apply negb_false_iff in Hlack. rewrite Hlack. reflexivity.
Qed.

Lemma mapQuestions_spec (now : Z) (questionType : JS.value) (items : list JS.value) :
  forall index,
    if forallb readable items
    then exists qs, mapQuestions now questionType index items = JS.Normal qs
                    /\ List.length qs = List.length items
                    /\ (forall i item, nth_error items i = Some item ->
                          exists x, nth_error qs i = Some x
                                    /\ cleanQuestion now questionType (index + i) item
                                       = JS.Normal x)
    else exists m, mapQuestions now questionType index items = JS.Throw m.
Proof.
  induction items as [| q items IH]; intros index.
  - exists []. repeat split. intros [| i] item Hnth; discriminate Hnth.
  - cbn [forallb mapQuestions].
    pose proof (cleanQuestion_readable now questionType index q) as Hq.
    destruct (readable q); cbn [andb].
    + destruct Hq as (x & Hx & _). rewrite Hx. cbn [JS.bind].
      specialize (IH (S index)).
      destruct (forallb readable items).
      * destruct IH as (qs & Hqs & Hlen & Hnth). rewrite Hqs. cbn [JS.bind].
        exists (x :: qs). split; [reflexivity |]. split; [simpl; congruence |].
        intros [| i] item Hi.
        -- injection Hi as <-. exists x. rewrite Nat.add_0_r. split; [reflexivity | exact Hx].
        -- destruct (Hnth i item Hi) as (y & Hy & Hclean).
           exists y. split; [exact Hy |].
           replace (index + S i)%nat with (S index + i)%nat by lia. exact Hclean.
      * destruct IH as (m & Hm). rewrite Hm. exists m. reflexivity.
    + destruct Hq as (m & Hm). rewrite Hm. exists m. reflexivity.
Qed.

(** X13.  What [parseGeneratedQuestions] makes of a reply: it returns exactly when
    the text has a bracketed part that [JSON.parse] reads as an array none of
    whose items is [null], and then returns one question per item; every
    other reply (no bracketed part, text that is not JSON, JSON that is not
    an array, an array with a [null] in it) ends in the one error
    [Failed to parse generated questions]. *)
Theorem parseGeneratedQuestions_outcomes (now : Z) (text : string) (questionType : JS.value) :
  (forall m, parseGeneratedQuestions now text questionType = JS.Throw m ->
             m = "Failed to parse generated questions"%string)
  /\ ((exists qs, parseGeneratedQuestions now text questionType = JS.Normal qs)
      <-> (exists jsonMatch items,
              matchBetween "[" "]" text = Some jsonMatch
              /\ JSON_parse jsonMatch = Some (JS.Arr items)
              /\ forallb readable items = true))
  /\ (forall jsonMatch items qs,
        matchBetween "[" "]" text = Some jsonMatch ->
        JSON_parse jsonMatch = Some (JS.Arr items) ->
        parseGeneratedQuestions now text questionType = JS.Normal qs ->
        List.length qs = List.length items).
Proof.
  unfold parseGeneratedQuestions, parse.
  destruct (matchBetween "[" "]" text) as [jsonMatch |].
  2:{ cbn. split; [| split].
      - intros m Hm. injection Hm as <-. reflexivity.
      - split; [intros (qs & Hqs); discriminate Hqs
               | intros (j & items & Hj & _); discriminate Hj].
      - intros j items qs Hj. discriminate Hj. }
  assert (Hfails : forall c : JS.completion (list Question),
             (forall items, JSON_parse jsonMatch <> Some (JS.Arr items)) ->
             (exists m, c = JS.Throw m) ->
             (forall m, JS.try_catch c
                          (fun _ => JS.Throw "Failed to parse generated questions") = JS.Throw m ->
                        m = "Failed to parse generated questions"%string)
             /\ ((exists qs, JS.try_catch c
                               (fun _ => JS.Throw "Failed to parse generated questions")
                             = JS.Normal qs)
                 <-> (exists j items,
                         Some jsonMatch = Some j
                         /\ JSON_parse j = Some (JS.Arr items)
                         /\ forallb readable items = true))
             /\ (forall j items qs,
                   Some jsonMatch = Some j ->
                   JSON_parse j = Some (JS.Arr items) ->
                   JS.try_catch c (fun _ => JS.Throw "Failed to parse generated questions")
                   = JS.Normal qs ->
                   List.length qs = List.length items)).
  { intros c Hnot (m0 & ->). cbn [JS.try_catch]. split; [| split].
    - intros m Hm. injection Hm as <-. reflexivity.
    - split; [intros (qs & Hqs); discriminate Hqs
             | intros (j & items & Hj & Hparse & _)].
      injection Hj as <-. exfalso. exact (Hnot items Hparse).
    - intros j items qs _ _ Hres. discriminate Hres. }
  destruct (JSON_parse jsonMatch) as [questions |] eqn:Hjson.
  2:{ apply Hfails; [intros items; discriminate | eexists; reflexivity]. }
  cbn [JS.bind].
  destruct questions as [| | b | n | s | items | fields];
    try (apply Hfails; [intros items'; discriminate | eexists; reflexivity]).
  clear Hfails.
  pose proof (mapQuestions_spec now questionType items 0) as Hmap.
  destruct (forallb readable items) eqn:Hall.
  - destruct Hmap as (qs & Hqs & Hlen & _). rewrite Hqs. cbn [JS.try_catch].
    split; [intros m Hm; discriminate Hm | split].
    + split; [intros _; exists jsonMatch, items; repeat split; assumption
             | intros _; exists qs; reflexivity].
    + intros j items' qs' Hj Hparse Hres. injection Hj as <-.
      rewrite Hjson in Hparse. injection Hparse as <-. injection Hres as <-.
      exact Hlen.
  - destruct Hmap as (m & Hm). rewrite Hm. cbn [JS.try_catch].
    split; [intros m' Hm'; injection Hm' as <-; reflexivity | split].
    + split; [intros (qs & Hqs); discriminate Hqs
             | intros (j & items' & Hj & Hparse & Hall')].
      injection Hj as <-. rewrite Hjson in Hparse. injection Hparse as <-.
      rewrite Hall in Hall'. discriminate Hall'.
    + intros j items' qs _ _ Hres. discriminate Hres.
Qed.

(** X14.  Every question that [parseGeneratedQuestions] returns carries the type
    that was asked for, an id, options, a language and test cases that are
    all truthy, whatever the reply left out. *)
Theorem parsed_questions_are_complete (now : Z) (text : string) (questionType : JS.value)
  (qs : list Question) :
  parseGeneratedQuestions now text questionType = JS.Normal qs ->
  forall q, In q qs ->
    q_type q = questionType
    /\ JS.truthy (q_id q) = true
    /\ JS.truthy (q_options q) = true
    /\ JS.truthy (q_language q) = true
    /\ JS.truthy (q_testCases q) = true.
Proof.
  unfold parseGeneratedQuestions, parse. intros Hparse q Hin.
  destruct (matchBetween "[" "]" text) as [jsonMatch |]; [| discriminate Hparse].
  destruct (JSON_parse jsonMatch) as [[| | b | n | s | items | fields] |];
    try discriminate Hparse.
  cbn [JS.bind] in Hparse.
  pose proof (mapQuestions_spec now questionType items 0) as Hmap.
  destruct (forallb readable items) eqn:Hall.
  - destruct Hmap as (qs' & Hqs & Hlen & Hnth). rewrite Hqs in Hparse.
    injection Hparse as <-.
    destruct (In_nth_error _ _ Hin) as (i & Hi).
    assert (Hlt : (i < List.length items)%nat).
    { rewrite <- Hlen. apply nth_error_Some. congruence. }
    destruct (nth_error items i) as [item |] eqn:Hitem;
      [| apply nth_error_None in Hitem; lia].
    destruct (Hnth i item Hitem) as (x & Hx & Hclean).
    assert (x = q) by congruence. subst x.
    pose proof (cleanQuestion_readable now questionType (0 + i) item) as Hq.
    assert (Hr : readable item = true).
    { rewrite forallb_forall in Hall. apply Hall. eapply nth_error_In. exact Hitem. }
    rewrite Hr in Hq. destruct Hq as (x & Hx' & Ht & Hid & Ho & Hl & Hc & _).
    assert (x = q) by congruence. subst x. repeat split; assumption.
  - destruct Hmap as (m & Hm). rewrite Hm in Hparse. discriminate Hparse.
Qed.

(** X15.  The ids that [parseGeneratedQuestions] makes up are [q_<now>_<index>]:
    an item without an id gets the one of its position, an item with an id
    keeps it, and two items without an id never get the same one. *)
Theorem generated_ids_are_distinct (now : Z) (text jsonMatch : string)
  (questionType : JS.value) (items : list JS.value) (qs : list Question) :
  matchBetween "[" "]" text = Some jsonMatch ->
  JSON_parse jsonMatch = Some (JS.Arr items) ->
  parseGeneratedQuestions now text questionType = JS.Normal qs ->
  (forall i item, nth_error items i = Some item ->
     exists q, nth_error qs i = Some q
               /\ (lacksId item = true -> q_id q = generatedId now i)
               /\ (lacksId item = false -> JS.get item "id" = JS.Normal (q_id q)))
  /\ (forall i j a b qa qb,
        i <> j ->
        nth_error items i = Some a -> nth_error items j = Some b ->
        lacksId a = true -> lacksId b = true ->
        nth_error qs i = Some qa -> nth_error qs j = Some qb ->
        q_id qa <> q_id qb).
Proof.
  intros Hmatch Hjson Hparse.
  unfold parseGeneratedQuestions, parse in Hparse. rewrite Hmatch, Hjson in Hparse.
  cbn [JS.bind] in Hparse.
  pose proof (mapQuestions_spec now questionType items 0) as Hmap.
  destruct (forallb readable items) eqn:Hall.
  2:{ destruct Hmap as (m & Hm). rewrite Hm in Hparse. discriminate Hparse. }
  destruct Hmap as (qs' & Hqs & Hlen & Hnth). rewrite Hqs in Hparse.
  injection Hparse as <-.
  assert (Hpos : forall i item, nth_error items i = Some item ->
            exists q, nth_error qs' i = Some q
                      /\ (lacksId item = true -> q_id q = generatedId now i)
                      /\ (lacksId item = false -> JS.get item "id" = JS.Normal (q_id q))).
  { intros i item Hitem.
    destruct (Hnth i item Hitem) as (x & Hx & Hclean). exists x. split; [exact Hx |].
    pose proof (cleanQuestion_readable now questionType (0 + i) item) as Hq.
    assert (Hr : readable item = true).
    { rewrite forallb_forall in Hall. apply Hall. eapply nth_error_In. exact Hitem. }
    rewrite Hr in Hq. destruct Hq as (y & Hy & _ & _ & _ & _ & _ & Hgen & Hkeep).
    assert (y = x) by congruence. subst y. split; assumption. }
  split; [exact Hpos |].
  intros i j a b qa qb Hij Ha Hb Hla Hlb Hqa Hqb Heq.
  destruct (Hpos i a Ha) as (x & Hx & Hgx & _).
  destruct (Hpos j b Hb) as (y & Hy & Hgy & _).
  assert (x = qa) by congruence. assert (y = qb) by congruence. subst x y.
  rewrite (Hgx Hla), (Hgy Hlb) in Heq.
  exact (Hij (generatedId_inj now i j Heq)).
Qed.

End ParsingQuestions.

(** ** Face-login and the compare route *)

Lemma clears_matchesStored (query : descriptor) (user : User) :
  clears query user = matchesStored query user.
Proof.
  unfold clears, scoreOf, matchesStored. destruct (faceDescriptor user) as [stored |];
    [| reflexivity].
  unfold compare, isMatch. cbn [body].
  change (calculateFaceSimilarity query stored) with (calculateSimilarity query stored).
  destruct (Nat.eqb_spec (List.length stored) (List.length query)) as [E | N];
    [reflexivity |].
  rewrite calculateSimilarity_length_mismatch by congruence. reflexivity.
Qed.

Section FaceLoginAndCompare.
Context `{External}.

(** X16.  Face-login and the compare route draw the same line.  Face-login answers
    [Face not recognized] exactly when the compare route would call no
    stored descriptor a match for the query, and it logs in only an active
    account whose stored descriptor the compare route would call a match.
    The test on the lengths in the loop of face-login changes nothing:
    vectors of different lengths score 0 and are no match. *)
Theorem faceLogin_agrees_with_compare (db : collection) (now : Z) (query : descriptor) :
  (fst (faceLogin db now (Some query)) = error 401 "Face not recognized"
   <-> forall u, In u db -> matchesStored query u = false)
  /\ (forall r db', faceLogin db now (Some query) = (r, db') -> status r = 200 ->
        exists m, In m db /\ matchesStored query m = true /\ isActive m = true
                  /\ db' = save (set_login m now ByFace) db).
Proof.
  rewrite faceLogin_of_bestMatch.
  pose proof (bestMatch_selected query (find_withFaceDescriptor db)) as Hsel.
  assert (Hfound : forall m before after,
             find_withFaceDescriptor db = before ++ m :: after -> In m db).
  { intros m before after Husers.
    assert (Hin : In m (find_withFaceDescriptor db))
      by (rewrite Husers; apply in_or_app; right; left; reflexivity).
    apply filter_In in Hin. exact (proj1 Hin). }
  destruct (bestMatch query (find_withFaceDescriptor db)) as [[m |] best]; cbn [selected] in Hsel.
  - destruct Hsel as (before & after & Husers & Hscore & Hclears & _).
    assert (Hm : matchesStored query m = true).
    { rewrite <- clears_matchesStored. unfold clears. rewrite Hscore. exact Hclears. }
    split.
    + split.
      * destruct (negb (isActive m)); intros Habs; discriminate Habs.
      * intros Hnone. rewrite (Hnone m (Hfound m before after Husers)) in Hm. discriminate Hm.
    + intros r db'. destruct (isActive m) eqn:Hactive; cbn [negb].
      * intros Hr _. injection Hr as <- <-. exists m.
        split; [exact (Hfound m before after Husers) |].
        split; [exact Hm |]. split; [exact Hactive | reflexivity].
      * intros Hr Hs. injection Hr as <- _. discriminate Hs.
  - destruct Hsel as [_ Hnone]. split.
    + split; [| reflexivity]. intros _ u Hu.
      rewrite <- clears_matchesStored.
      destruct (hasFaceDescriptor u) eqn:Hface.
      * apply Hnone. apply filter_In. split; assumption.
      * unfold clears, scoreOf. unfold hasFaceDescriptor in Hface.
        destruct (faceDescriptor u); [discriminate Hface | reflexivity].
    + intros r db' Hr Hs. injection Hr as <- _. discriminate Hs.
Qed.

End FaceLoginAndCompare.

(** ** The streak over a run of answers *)

Section StreakRuns.
Context `{External}.

(** X17.  An answer leaves the streak as it is, adds one day to it or resets it to
    1; it adds a day only on another calendar day and within 24 hours of the
    last activity.  Over a run of answers a streak that is not negative
    stays so and grows by at most one day per answer. *)
Theorem streak_grows_by_steps (user : User) (verdicts : list (Z * JS.value)) :
  (0 <= streakDays (progress user))%Z ->
  (forall u now c,
      let before := streakDays (progress u) in
      let after := streakDays (progress (updateProgress u now c)) in
      (after = before \/ after = (before + 1)%Z \/ after = 1%Z)
      /\ (after = (before + 1)%Z -> after <> 1%Z ->
          toDateString now <> toDateString (lastActiveDate (progress u))
          /\ (now <= lastActiveDate (progress u) + 86400000)%Z))
  /\ (0 <= streakDays (progress (updateProgressAll user verdicts))
      <= streakDays (progress user) + Z.of_nat (List.length verdicts))%Z.
Proof.
  intros Hstreak.
  assert (Hstep : forall u now c,
             let before := streakDays (progress u) in
             let after := streakDays (progress (updateProgress u now c)) in
             (after = before \/ after = (before + 1)%Z \/ after = 1%Z)
             /\ (after = (before + 1)%Z -> after <> 1%Z ->
                 toDateString now <> toDateString (lastActiveDate (progress u))
                 /\ (now <= lastActiveDate (progress u) + 86400000)%Z)).
  { intros u now c. unfold updateProgress. cbn [progress set_progress streakDays].
    cbv zeta.
    destruct (Z.eqb_spec (toDateString now) (toDateString (lastActiveDate (progress u))))
      as [E | N].
    - split; [left; reflexivity | intros Hplus; lia].
    - destruct (Z.geb_spec (lastActiveDate (progress u) + 86400000) now) as [Hle | Hlt].
      + split; [right; left; reflexivity | intros _ _; split; [exact N | lia]].
      + split; [right; right; reflexivity | intros _ Hone; contradiction Hone; reflexivity]. }
  split; [exact Hstep |].
  unfold updateProgressAll. revert user Hstreak.
  induction verdicts as [| [now c] verdicts IH]; intros user Hstreak.
  - simpl. lia.
  - cbn [fold_left fst snd List.length].
    destruct (Hstep user now c) as [Hcases _]. cbv zeta in Hcases.
    assert (Hnext : (0 <= streakDays (progress (updateProgress user now c))
                     <= streakDays (progress user) + 1)%Z) by lia.
    specialize (IH (updateProgress user now c) (proj1 Hnext)). lia.
Qed.

End StreakRuns.

(** Alice's streak of five days after three answers. *)
Lemma streak_grows_by_steps_witness :
  (0 <= streakDays (progress Double.aliceOnStreak))%Z
  /\ (0 <= streakDays (progress (updateProgressAll (H := Double.external) Double.aliceOnStreak
                                   [(Double.nextDayEarly, JS.Bool true);
                                    (Double.nextDayLate, JS.Bool false)]))
      <= 5 + 2)%Z.
Proof.
  assert (Hstreak : (0 <= streakDays (progress Double.aliceOnStreak))%Z) by (simpl; lia).
  split; [exact Hstreak |].
  exact (proj2 (streak_grows_by_steps (H := Double.external) Double.aliceOnStreak
                  [(Double.nextDayEarly, JS.Bool true); (Double.nextDayLate, JS.Bool false)]
                  Hstreak)).
Defined.

(** The reply with three items: the second has an id, the first and the
    third get ids made of the instant and their positions. *)
Lemma parsed_questions_are_complete_witness :
  exists qs,
    parseGeneratedQuestions (H := Sample.external) 1000 Sample.questionsText (JS.Str "MCQ")
    = JS.Normal qs
    /\ map q_id qs = [JS.Str "q_1000_0"; JS.Str "a7"; JS.Str "q_1000_2"]
    /\ forall q, In q qs -> q_type q = JS.Str "MCQ".
Proof.
  eexists. split; [vm_compute; reflexivity |]. split; [reflexivity |].
  intros q Hin.
  exact (proj1 (parsed_questions_are_complete (H := Sample.external) 1000
                  Sample.questionsText (JS.Str "MCQ") _ eq_refl q Hin)).
Defined.

Lemma generated_ids_are_distinct_witness :
  exists qs qa qb,
    matchBetween "[" "]" Sample.questionsText = Some Sample.questionsJSON
    /\ JSON_parse (External := Sample.external) Sample.questionsJSON
       = Some (JS.Arr Sample.questionItems)
    /\ parseGeneratedQuestions (H := Sample.external) 1000 Sample.questionsText (JS.Str "MCQ")
       = JS.Normal qs
    /\ nth_error qs 0 = Some qa /\ nth_error qs 2 = Some qb
    /\ q_id qa <> q_id qb.
Proof.
  eexists. eexists. eexists.
  split; [vm_compute; reflexivity |]. split; [vm_compute; reflexivity |].
  split; [vm_compute; reflexivity |]. split; [reflexivity |]. split; [reflexivity |].
  refine (proj2 (generated_ids_are_distinct (H := Sample.external) 1000
                   Sample.questionsText Sample.questionsJSON (JS.Str "MCQ")
                   Sample.questionItems _ eq_refl eq_refl eq_refl)
            0%nat 2%nat (JS.Obj [("question"%string, JS.Str "1 + 1?")]) (JS.Obj []) _ _
            _ eq_refl eq_refl eq_refl eq_refl eq_refl eq_refl).
  discriminate.
Defined.

(** Alice logs in; the emails stored are those stored before. *)
Lemma other_routes_keep_emails_witness :
  NoDup (map _id Double.users)
  /\ map email (snd (login (H := Double.external) Double.users 500 []
                       "alice@example.com" "Secret1"))
     = map email Double.users.
Proof.
  assert (Hids : NoDup (map _id Double.users)).
  { simpl. repeat constructor; simpl; intuition discriminate. }
  split; [exact Hids |].
  exact (proj1 (other_routes_keep_emails (H := Double.external) Double.users 500 Hids)
           [] "alice@example.com"%string "Secret1"%string).
Defined.

(** ** Subjects and topics *)

Lemma find_app {A : Type} (p : A -> bool) (l l' : list A) :
  find p (l ++ l') = match find p l with Some x => Some x | None => find p l' end.
Proof.
  induction l as [| x l IH]; simpl; [reflexivity |].
  destruct (p x); [reflexivity | exact IH].
Qed.

Lemma find_first {A : Type} (p : A -> bool) (l : list A) (x : A) :
  find p l = Some x ->
  exists before after,
    l = before ++ x :: after /\ p x = true /\ forall y, In y before -> p y = false.
Proof.
  induction l as [| a l IH]; simpl; [discriminate |].
  destruct (p a) eqn:Ha.
  - intros Hx. injection Hx as <-. exists [], l. repeat split; [exact Ha | intros y []].
  - intros Hx. destruct (IH Hx) as (before & after & -> & Hp & Hnone).
    exists (a :: before), after. repeat split; [exact Hp |].
    intros y [<- | Hy]; [exact Ha | exact (Hnone y Hy)].
Qed.

Lemma find_topic_by_id (ts : list Topic.t) (topic : Topic.t) :
  NoDup (map Topic._id ts) -> In topic ts ->
  find (fun t => Nat.eqb (Topic._id t) (Topic._id topic)) ts = Some topic.
Proof.
  induction ts as [| a ts IH]; simpl; intros Hids Hin; [contradiction |].
  inversion Hids as [| x l Hnotin Hrest]; subst.
  destruct Hin as [-> | Hin]; [rewrite Nat.eqb_refl; reflexivity |].
  destruct (Nat.eqb_spec (Topic._id a) (Topic._id topic)) as [E | _].
  - exfalso. apply Hnotin. rewrite E. apply in_map. exact Hin.
  - exact (IH Hrest Hin).
Qed.


Lemma sum_questionCount (ts : list Topic.t) (start : Z) :
  fold_left (fun total topic => (total + Topic.questionCount topic)%Z) ts start
  = (start + fold_left (fun total topic => (total + Topic.questionCount topic)%Z) ts 0)%Z.
Proof.
  revert start. induction ts as [| a ts IH]; intros start; simpl; [lia |].
  rewrite (IH (start + Topic.questionCount a)%Z), (IH (Topic.questionCount a)). lia.
Qed.

(** X18.  The two topic routes disclose nothing that is inactive: what they send
    with a 200 is the active subject of that id, and topics of it that are
    active; the list route sends all of those. *)
Theorem inactive_topics_are_hidden (subjects : list Subject.t) (id : nat) :
  (forall ts sm,
      data (getTopics subjects id) = Some (ts, sm) ->
      exists s, In s subjects /\ Subject._id s = id /\ Subject.isActive s = true
                /\ sm = summary s
                /\ forall topic, In topic ts
                                 <-> In topic (Subject.topics s) /\ Topic.isActive topic = true)
  /\ (forall topicId topic sm,
      data (getTopicOf subjects id topicId) = Some (topic, sm) ->
      exists s, In s subjects /\ Subject._id s = id /\ Subject.isActive s = true
                /\ sm = summary s
                /\ In topic (Subject.topics s) /\ Topic._id topic = topicId
                /\ Topic.isActive topic = true).
Proof.
  unfold getTopics, getTopicOf, Subject_findById.
  destruct (find (fun s => Nat.eqb (Subject._id s) id) subjects) as [s |] eqn:Hfind.
  2:{ split; intros; discriminate. }
  apply find_some in Hfind. destruct Hfind as [Hin Hid]. apply Nat.eqb_eq in Hid.
  destruct (Subject.isActive s) eqn:Hactive; cbn [negb].
  2:{ split; intros; discriminate. }
  split.
  - intros ts sm Hdata. cbn [data] in Hdata. injection Hdata as <- <-.
    exists s. split; [exact Hin |]. split; [exact Hid |]. split; [exact Hactive |].
    split; [reflexivity |]. intros topic. unfold Subject.getActiveTopics.
    apply filter_In.
  - intros topicId topic sm.
    unfold Subject.getTopic.
    destruct (find (fun topic => Nat.eqb (Topic._id topic) topicId) (Subject.topics s))
      as [t |] eqn:Htopic; [| discriminate].
    apply find_some in Htopic. destruct Htopic as [Ht Htid]. apply Nat.eqb_eq in Htid.
    destruct (Topic.isActive t) eqn:Hta; cbn [negb]; [| discriminate].
    intros Hdata. cbn [data] in Hdata. injection Hdata as <- <-.
    exists s. repeat split; assumption.
Qed.

(** X19.  When the topics of a subject have distinct ids, the two topic routes
    agree: a topic is in the list of the subject exactly when the route of
    single topics answers 200 with it under its id. *)
Theorem listed_topics_can_be_fetched (subjects : list Subject.t) (id : nat) (s : Subject.t) :
  Subject_findById subjects id = Some s ->
  Subject.isActive s = true ->
  NoDup (map Topic._id (Subject.topics s)) ->
  getTopics subjects id
  = mkReply 200 true None [] (Some (Subject.getActiveTopics s, summary s))
  /\ forall topic,
       In topic (Subject.getActiveTopics s)
       <-> getTopicOf subjects id (Topic._id topic)
           = mkReply 200 true None [] (Some (topic, summary s)).
Proof.
  intros Hfind Hactive Hids. unfold getTopics, getTopicOf. rewrite Hfind, Hactive.
  cbn [negb]. split; [reflexivity |].
  intros topic. unfold Subject.getActiveTopics, Subject.getTopic. rewrite filter_In. split.
  - intros [Hin Ha]. rewrite (find_topic_by_id _ topic Hids Hin), Ha. reflexivity.
  - destruct (find (fun t => Nat.eqb (Topic._id t) (Topic._id topic)) (Subject.topics s))
      as [t |] eqn:Htopic; [| discriminate].
    destruct (Topic.isActive t) eqn:Hta; cbn [negb]; [| discriminate].
    intros Hreply. injection Hreply as ->.
    apply find_some in Htopic. split; [exact (proj1 Htopic) | exact Hta].
Qed.


(** X21.  [addTopic] puts the topic last: a topic that was there under the same id
    still comes first for [getTopic], and the new one is found under its id
    exactly when that id was free.  The count of active topics moves by one
    exactly when the new topic is active. *)
Theorem addTopic_then_getTopic (s : Subject.t) (topicData : Topic.t) :
  (forall topicId,
      Subject.getTopic (Subject.addTopic s topicData) topicId
      = match Subject.getTopic s topicId with
        | Some topic => Some topic
        | None => if Nat.eqb (Topic._id topicData) topicId then Some topicData else None
        end)
  /\ (Subject.getTopic s (Topic._id topicData) = None
      <-> Subject.getTopic (Subject.addTopic s topicData) (Topic._id topicData)
          = Some topicData
          /\ ~ In topicData (Subject.topics s))
  /\ Subject.activeTopicsCount (Subject.addTopic s topicData)
     = (Subject.activeTopicsCount s + if Topic.isActive topicData then 1 else 0)%nat
  /\ Subject.getActiveTopics (Subject.addTopic s topicData)
     = Subject.getActiveTopics s ++ (if Topic.isActive topicData then [topicData] else []).
Proof.
  assert (Hlookup : forall topicId,
             Subject.getTopic (Subject.addTopic s topicData) topicId
             = match Subject.getTopic s topicId with
               | Some topic => Some topic
               | None => if Nat.eqb (Topic._id topicData) topicId then Some topicData else None
               end).
  { intros topicId. unfold Subject.getTopic, Subject.addTopic.
    cbn [Subject.topics Subject.set_topics]. rewrite find_app. reflexivity. }
  split; [exact Hlookup | split; [| split]].
  - rewrite Hlookup. unfold Subject.getTopic. split.
    + intros Hnone. rewrite Hnone, Nat.eqb_refl. split; [reflexivity |].
      intros Hin. pose proof (find_none _ _ Hnone topicData Hin) as Hne.
      cbn in Hne. rewrite Nat.eqb_refl in Hne. discriminate Hne.
    + intros [Hfound Hnotin].
      destruct (find (fun topic => Nat.eqb (Topic._id topic) (Topic._id topicData))
                  (Subject.topics s)) as [t |] eqn:Hfind; [| reflexivity].
      injection Hfound as ->. apply find_some in Hfind. exfalso. exact (Hnotin (proj1 Hfind)).
  - unfold Subject.activeTopicsCount, Subject.addTopic.
    cbn [Subject.topics Subject.set_topics]. rewrite filter_app, length_app. cbn [filter].
    destruct (Topic.isActive topicData); reflexivity.
  - unfold Subject.getActiveTopics, Subject.addTopic.
    cbn [Subject.topics Subject.set_topics]. rewrite filter_app. cbn [filter].
    destruct (Topic.isActive topicData); reflexivity.
Qed.

Lemma assignFirst_spec (ts : list Topic.t) (topicId : nat) (u : Topic.update)
  (topic : Topic.t) :
  find (fun t => Nat.eqb (Topic._id t) topicId) ts = Some topic ->
  exists before after,
    ts = before ++ topic :: after
    /\ (forall t, In t before -> Topic._id t <> topicId)
    /\ Subject.assignFirst topicId u ts = before ++ Topic.assign topic u :: after
    /\ (Topic.new_id u = None ->
        find (fun t => Nat.eqb (Topic._id t) topicId) (Subject.assignFirst topicId u ts)
        = Some (Topic.assign topic u)).
Proof.
  intros Hget.
  destruct (find_first _ _ _ Hget) as (before & after & Hts & Hid & Hbefore).
  apply Nat.eqb_eq in Hid.
  assert (Hassign : Subject.assignFirst topicId u ts
                    = before ++ Topic.assign topic u :: after).
  { rewrite Hts. clear Hts Hget. induction before as [| b before IH]; simpl.
    - rewrite Hid, Nat.eqb_refl. reflexivity.
    - rewrite (Hbefore b (or_introl eq_refl)). f_equal. apply IH.
      intros y Hy. apply Hbefore. right. exact Hy. }
  exists before, after. split; [exact Hts |].
  split; [intros t Ht; apply Nat.eqb_neq; exact (Hbefore t Ht) |].
  split; [exact Hassign |].
  intros Hsame. rewrite Hassign, find_app.
  assert (Hnone : find (fun t => Nat.eqb (Topic._id t) topicId) before = None).
  { clear - Hbefore. induction before as [| b before IH]; simpl; [reflexivity |].
    rewrite (Hbefore b (or_introl eq_refl)). apply IH.
    intros y Hy. apply Hbefore. right. exact Hy. }
  rewrite Hnone. simpl. unfold Topic.orKeep at 1. rewrite Hsame, Hid, Nat.eqb_refl.
  reflexivity.
Qed.

(** X22.  [updateTopic] throws [Topic not found] exactly when [getTopic] finds
    nothing.  Otherwise it rewrites the first topic of that id, in place, and
    leaves every other topic and the number of topics as they were; unless
    the update changes the id, [getTopic] then finds the rewritten topic. *)
Theorem updateTopic_cases (s : Subject.t) (topicId : nat) (updateData : Topic.update) :
  (Subject.getTopic s topicId = None
   <-> Subject.updateTopic s topicId updateData = JS.Throw "Topic not found")
  /\ (forall s', Subject.updateTopic s topicId updateData = JS.Normal s' ->
        exists before topic after,
          Subject.getTopic s topicId = Some topic
          /\ Subject.topics s = before ++ topic :: after
          /\ (forall t, In t before -> Topic._id t <> topicId)
          /\ Subject.topics s' = before ++ Topic.assign topic updateData :: after
          /\ List.length (Subject.topics s') = List.length (Subject.topics s)
          /\ (Topic.new_id updateData = None ->
              Subject.getTopic s' topicId = Some (Topic.assign topic updateData))).
Proof.
  unfold Subject.updateTopic.
  destruct (Subject.getTopic s topicId) as [topic |] eqn:Hget.
  2:{ split; [split; reflexivity | intros s' Hs'; discriminate Hs']. }
  split; [split; intros Habs; discriminate Habs |].
  intros s' Hs'. injection Hs' as <-. cbn [Subject.topics Subject.set_topics].
  unfold Subject.getTopic in Hget |- *. cbn [Subject.topics Subject.set_topics].
  destruct (assignFirst_spec _ topicId updateData topic Hget)
    as (before & after & Hts & Hbefore & Hassign & Hfound).
  exists before, topic, after. split; [reflexivity |]. split; [exact Hts |].
  split; [exact Hbefore |]. split; [exact Hassign |]. split; [| exact Hfound].
  rewrite Hassign, Hts, !length_app. reflexivity.
Qed.

(** X23.  Once a topic has been deactivated with [updateTopic] and the subject
    stored, the route of single topics answers 404 for it, and the list
    route does not show a topic of that id if the ids are distinct. *)
Theorem deactivated_topic_is_not_available (subjects : list Subject.t) (id topicId : nat)
  (s s' : Subject.t) (updateData : Topic.update) :
  Subject.updateTopic s topicId updateData = JS.Normal s' ->
  Topic.new_isActive updateData = Some false ->
  Topic.new_id updateData = None ->
  Subject_findById subjects id = Some s' ->
  Subject.isActive s' = true ->
  getTopicOf subjects id topicId = failure 404 "Topic is not available"
  /\ (NoDup (map Topic._id (Subject.topics s')) ->
      forall topic, In topic (Subject.getActiveTopics s') -> Topic._id topic <> topicId).
Proof.
  intros Hupdate Hoff Hsame Hfind Hactive. unfold Subject.updateTopic in Hupdate.
  destruct (Subject.getTopic s topicId) as [topic |] eqn:Hold; [| discriminate Hupdate].
  injection Hupdate as <-.
  destruct (assignFirst_spec _ topicId updateData topic Hold) as (_ & _ & _ & _ & _ & Hget).
  specialize (Hget Hsame).
  assert (Hinactive : Topic.isActive (Topic.assign topic updateData) = false).
  { unfold Topic.assign. cbn [Topic.isActive]. rewrite Hoff. reflexivity. }
  split.
  - unfold getTopicOf. rewrite Hfind, Hactive. unfold Subject.getTopic.
    cbn [Subject.topics Subject.set_topics negb]. rewrite Hget. rewrite Hinactive.
    reflexivity.
  - cbn [Subject.topics Subject.set_topics]. intros Hids topic' Hin Hid.
    unfold Subject.getActiveTopics in Hin. cbn [Subject.topics Subject.set_topics] in Hin.
    apply filter_In in Hin. destruct Hin as [Hin Ha].
    pose proof (find_topic_by_id _ topic' Hids Hin) as Hfound.
    rewrite Hid, Hget in Hfound.
    injection Hfound as <-. rewrite Hinactive in Ha. discriminate Ha.
Qed.

(** X24.  [updateQuestionCount] sets [totalQuestions] to the sum over all topics,
    active or not: adding a topic and counting again adds its questions,
    removing topics whose counts are not negative cannot raise the total,
    and counting twice is counting once. *)
Theorem updateQuestionCount_totals (s : Subject.t) :
  (forall topicData,
      Subject.totalQuestions (Subject.updateQuestionCount (Subject.addTopic s topicData))
      = (Subject.totalQuestions (Subject.updateQuestionCount s)
         + Topic.questionCount topicData)%Z)
  /\ ((forall topic, In topic (Subject.topics s) -> (0 <= Topic.questionCount topic)%Z) ->
      forall topicId,
        (0 <= Subject.totalQuestions (Subject.updateQuestionCount
                                        (Subject.removeTopic s topicId))
         <= Subject.totalQuestions (Subject.updateQuestionCount s))%Z)
  /\ Subject.updateQuestionCount (Subject.updateQuestionCount s)
     = Subject.updateQuestionCount s
  /\ Subject.topics (Subject.updateQuestionCount s) = Subject.topics s.
Proof.
  unfold Subject.updateQuestionCount, Subject.addTopic, Subject.removeTopic.
  cbn [Subject.topics Subject.set_topics Subject.set_totalQuestions Subject.totalQuestions].
  split; [| split; [| split; reflexivity]].
  - intros topicData. rewrite fold_left_app. reflexivity.
  - intros Hpos topicId. induction (Subject.topics s) as [| a ts IH]; [simpl; lia |].
    assert (Ha : (0 <= Topic.questionCount a)%Z) by (apply Hpos; left; reflexivity).
    assert (IH' := IH (fun t Ht => Hpos t (or_intror Ht))). clear IH.
    cbn [filter fold_left]. destruct (negb (Nat.eqb (Topic._id a) topicId)); cbn [fold_left].
    + rewrite (sum_questionCount (filter _ ts)), (sum_questionCount ts). lia.
    + rewrite (sum_questionCount ts). lia.
Qed.

(** X25.  The two virtuals and the list of active topics see active topics only:
    adding an inactive topic, or removing topics under an id that no active
    topic has, leaves all three as they were. *)
Theorem virtuals_ignore_inactive_topics (s : Subject.t) (topicData : Topic.t)
  (topicId : nat) :
  Topic.isActive topicData = false ->
  (forall topic, In topic (Subject.topics s) -> Topic._id topic = topicId ->
                 Topic.isActive topic = false) ->
  (Subject.activeTopicsCount (Subject.addTopic s topicData) = Subject.activeTopicsCount s
   /\ Subject.totalEstimatedTime (Subject.addTopic s topicData) = Subject.totalEstimatedTime s
   /\ Subject.getActiveTopics (Subject.addTopic s topicData) = Subject.getActiveTopics s)
  /\ (Subject.activeTopicsCount (Subject.removeTopic s topicId) = Subject.activeTopicsCount s
      /\ Subject.totalEstimatedTime (Subject.removeTopic s topicId)
         = Subject.totalEstimatedTime s
      /\ Subject.getActiveTopics (Subject.removeTopic s topicId) = Subject.getActiveTopics s).
Proof.
  intros Hoff Hnone.
  assert (Hadd : filter Topic.isActive (Subject.topics (Subject.addTopic s topicData))
                 = filter Topic.isActive (Subject.topics s)).
  { unfold Subject.addTopic. cbn [Subject.topics Subject.set_topics].
    rewrite filter_app. cbn [filter]. rewrite Hoff. apply app_nil_r. }
  assert (Hremove : filter Topic.isActive (Subject.topics (Subject.removeTopic s topicId))
                    = filter Topic.isActive (Subject.topics s)).
  { clear Hadd. unfold Subject.removeTopic. cbn [Subject.topics Subject.set_topics].
    induction (Subject.topics s) as [| a ts IH]; [reflexivity |].
    assert (IH' := IH (fun t Ht => Hnone t (or_intror Ht))). clear IH.
    cbn [filter]. destruct (Nat.eqb_spec (Topic._id a) topicId) as [E | N]; cbn [negb filter].
    - rewrite (Hnone a (or_introl eq_refl) E). exact IH'.
    - destruct (Topic.isActive a); [f_equal |]; exact IH'. }
  unfold Subject.activeTopicsCount, Subject.totalEstimatedTime, Subject.getActiveTopics.
  rewrite Hadd, Hremove. repeat split; reflexivity.
Qed.

(** Calculus has three topics with distinct ids; Limits is listed and can be
    fetched. *)
Lemma listed_topics_can_be_fetched_witness :
  Subject_findById Sample.subjects 1 = Some Sample.calculus
  /\ getTopicOf Sample.subjects 1 11
     = mkReply 200 true None [] (Some (Sample.limits, summary Sample.calculus)).
Proof.
  split; [reflexivity |].
  assert (Hids : NoDup (map Topic._id (Subject.topics Sample.calculus))).
  { simpl. repeat constructor; simpl; intuition discriminate. }
  apply (proj2 (listed_topics_can_be_fetched Sample.subjects 1 Sample.calculus
                  eq_refl eq_refl Hids) Sample.limits).
  simpl. left. reflexivity.
Defined.

(** Integrals is deactivated in Calculus: the route answers 404 for it. *)
Lemma deactivated_topic_is_not_available_witness :
  exists s',
    Subject.updateTopic Sample.calculus 13 Sample.deactivate = JS.Normal s'
    /\ getTopicOf [s'; Sample.retired] 1 13 = failure 404 "Topic is not available"
    /\ getTopicOf Sample.subjects 1 13
       = mkReply 200 true None [] (Some (Sample.integrals, summary Sample.calculus)).
Proof.
  exists (Subject.set_topics Sample.calculus
            (Subject.assignFirst 13 Sample.deactivate (Subject.topics Sample.calculus))).
  split; [reflexivity |]. split; [| reflexivity].
  exact (proj1 (deactivated_topic_is_not_available
                  [Subject.set_topics Sample.calculus
                     (Subject.assignFirst 13 Sample.deactivate
                        (Subject.topics Sample.calculus)); Sample.retired]
                  1 13 Sample.calculus
                  (Subject.set_topics Sample.calculus
                     (Subject.assignFirst 13 Sample.deactivate
                        (Subject.topics Sample.calculus)))
                  Sample.deactivate eq_refl eq_refl eq_refl eq_refl eq_refl)).
Defined.

(** Series is inactive: removing it from Calculus, or adding it once more,
    changes neither virtual. *)
Lemma virtuals_ignore_inactive_topics_witness :
  Topic.isActive Sample.series = false
  /\ Subject.activeTopicsCount (Subject.removeTopic Sample.calculus 12) = 2%nat
  /\ Subject.totalEstimatedTime (Subject.addTopic Sample.calculus Sample.series) = 90%float.
Proof.
  assert (Hnone : forall topic, In topic (Subject.topics Sample.calculus) ->
                    Topic._id topic = 12%nat -> Topic.isActive topic = false).
  { simpl. intros topic [<- | [<- | [<- | []]]]; simpl; intros Hid;
      try discriminate Hid; reflexivity. }
  pose proof (virtuals_ignore_inactive_topics Sample.calculus Sample.series 12
                eq_refl Hnone) as [(_ & Htime & _) [Hcount _]].
  split; [reflexivity |]. split.
  - rewrite Hcount. reflexivity.
  - rewrite Htime. vm_compute. reflexivity.
Defined.

(** ** The emails the schema accepts *)

Lemma string_append_assoc (a b c : string) : ((a ++ b) ++ c = a ++ (b ++ c))%string.
Proof. induction a as [| x a IH]; simpl; [reflexivity | rewrite IH; reflexivity]. Qed.

Lemma string_append_empty_r (a : string) : (a ++ "")%string = a.
Proof. induction a as [| x a IH]; simpl; [reflexivity | rewrite IH; reflexivity]. Qed.

Lemma every_append (p : ascii -> bool) (u v : string) :
  every p (u ++ v) = (every p u && every p v)%bool.
Proof.
  induction u as [| c u IH]; simpl; [reflexivity |].
  rewrite IH. apply andb_assoc.
Qed.

Lemma nullable_matches (r : Regex.regex) :
  Regex.nullable r = true -> matches r EmptyString.
Proof.
  induction r as [| | p | a IHa b IHb | a IHa b IHb | a IHa]; simpl; intros Hnull;
    try discriminate Hnull.
  - constructor.
  - apply andb_true_iff in Hnull. destruct Hnull as [Ha Hb].
    exact (MatchSeq a b EmptyString EmptyString (IHa Ha) (IHb Hb)).
  - apply orb_true_iff in Hnull. destruct Hnull as [Ha | Hb].
    + apply MatchAltL. exact (IHa Ha).
    + apply MatchAltR. exact (IHb Hb).
  - constructor.
Qed.

Lemma deriv_matches (r : Regex.regex) :
  forall c s, matches (Regex.deriv c r) s -> matches r (String c s).
Proof.
  induction r as [| | p | a IHa b IHb | a IHa b IHb | a IHa]; simpl; intros c s Hm.
  - inversion Hm.
  - inversion Hm.
  - destruct (p c) eqn:Hp; inversion Hm; subst. constructor. exact Hp.
  - destruct (Regex.nullable a) eqn:Hnull.
    + inversion Hm as [| | | r1 r2 u Hleft | r1 r2 u Hright | |]; subst.
      * inversion Hleft as [| | r1 r2 u v Hu Hv | | | |]; subst.
        exact (MatchSeq a b (String c u) v (IHa c u Hu) Hv).
      * exact (MatchSeq a b EmptyString (String c s) (nullable_matches a Hnull)
                 (IHb c s Hright)).
    + inversion Hm as [| | r1 r2 u v Hu Hv | | | |]; subst.
      exact (MatchSeq a b (String c u) v (IHa c u Hu) Hv).
  - inversion Hm as [| | | r1 r2 u Hleft | r1 r2 u Hright | |]; subst.
    + apply MatchAltL. exact (IHa c s Hleft).
    + apply MatchAltR. exact (IHb c s Hright).
  - inversion Hm as [| | r1 r2 u v Hu Hv | | | |]; subst.
    exact (MatchStarCons a (String c u) v (IHa c u Hu) Hv).
Qed.

(** What the matcher accepts, the expression matches. *)
Lemma test_matches (s : string) :
  forall r, Regex.test r s = true -> matches r s.
Proof.
  induction s as [| c s IH]; simpl; intros r Htest.
  - exact (nullable_matches r Htest).
  - apply deriv_matches. exact (IH _ Htest).
Qed.

Lemma matches_within (allowed : ascii -> bool) (r : Regex.regex) (s : string) :
  matches r s -> within allowed r -> every allowed s = true.
Proof.
  intros Hm. induction Hm as [| p c Hp | r s u v Hu IHu Hv IHv | r s u Hu IHu
                              | r s u Hu IHu | r | r u v Hu IHu Hv IHv]; simpl; intros Hin.
  - reflexivity.
  - rewrite (Hin c Hp). reflexivity.
  - rewrite every_append, (IHu (proj1 Hin)), (IHv (proj2 Hin)). reflexivity.
  - exact (IHu (proj1 Hin)).
  - exact (IHu (proj2 Hin)).
  - reflexivity.
  - rewrite every_append, (IHu Hin), (IHv Hin). reflexivity.
Qed.

(** A match of [r+] ends with a match of [r]. *)
Lemma star_ends (r : Regex.regex) (s : string) :
  matches (Regex.Star r) s ->
  s = EmptyString \/ exists pre last, s = (pre ++ last)%string /\ matches r last.
Proof.
  intros Hm. remember (Regex.Star r) as star eqn:Hstar.
  induction Hm as [| | | | | r' | r' u v Hu _ Hv IHv]; try discriminate Hstar.
  - left. reflexivity.
  - injection Hstar as ->. right. destruct (IHv eq_refl) as [-> | (pre & last & -> & Hlast)].
    + exists EmptyString, u. rewrite string_append_empty_r. split; [reflexivity | exact Hu].
    + exists (u ++ pre)%string, last. rewrite string_append_assoc.
      split; [reflexivity | exact Hlast].
Qed.

Lemma plus_ends (r : Regex.regex) (s : string) :
  matches (Regex.Plus r) s ->
  exists pre last, s = (pre ++ last)%string /\ matches r last.
Proof.
  unfold Regex.Plus. intros Hm.
  inversion Hm as [| | r1 r2 u v Hu Hv | | | |]; subst.
  destruct (star_ends r v Hv) as [-> | (pre & last & -> & Hlast)].
  - exists EmptyString, u. rewrite string_append_empty_r. split; [reflexivity | exact Hu].
  - exists (u ++ pre)%string, last. rewrite string_append_assoc.
    split; [reflexivity | exact Hlast].
Qed.

Lemma plus_nonempty (p : ascii -> bool) (r : Regex.regex) (s : string) :
  matches (Regex.Seq (Regex.Plus (Regex.Chr p)) r) s -> s <> EmptyString.
Proof.
  unfold Regex.Plus. intros Hm.
  inversion Hm as [| | r1 r2 u v Hu Hv | | | |]; subst.
  inversion Hu as [| | r1 r2 u1 u2 Hu1 Hu2 | | | |]; subst.
  inversion Hu1; subst. discriminate.
Qed.

(** The shape of the strings the [match] validator of [email] accepts. *)
Lemma emailPattern_shape (e : string) :
  Regex.test emailPattern e = true ->
  exists local domain tld,
    e = (local ++ "@" ++ domain ++ "." ++ tld)%string
    /\ local <> EmptyString /\ every emailChar local = true
    /\ domain <> EmptyString /\ every emailChar domain = true
    /\ every Regex.word tld = true
    /\ (2 <= String.length tld <= 3)%nat.
Proof.
  intros Htest. apply test_matches in Htest. unfold emailPattern in Htest. cbv zeta in Htest.
  inversion Htest as [| | r1 r2 local rest1 Hlocal Hrest1 | | | |]; subst.
  inversion Hrest1 as [| | r1 r2 at_sign rest2 Hat Hrest2 | | | |]; subst.
  inversion Hat as [| p c Hc | | | | |]; subst.
  unfold Regex.char in Hc. apply Ascii.eqb_eq in Hc. subst c.
  inversion Hrest2 as [| | r1 r2 first labels Hfirst Hlabels | | | |]; subst.
  assert (Hpart : forall s,
             matches (Regex.Seq (Regex.Plus (Regex.Chr Regex.word))
                        (Regex.Star (Regex.Seq (Regex.Opt (Regex.Chr Regex.dot_or_dash))
                                       (Regex.Plus (Regex.Chr Regex.word))))) s ->
             s <> EmptyString /\ every emailChar s = true).
  { intros s Hs. split; [exact (plus_nonempty _ _ _ Hs) |].
    apply (matches_within emailChar _ _ Hs). unfold emailChar. simpl.
    repeat split; intros c Hc; rewrite Hc; auto using orb_true_r. }
  destruct (Hpart local Hlocal) as [Hlocal1 Hlocal2].
  destruct (Hpart first Hfirst) as [Hfirst1 Hfirst2].
  assert (Hall : every emailChar labels = true).
  { apply (matches_within emailChar _ _ Hlabels). unfold emailChar, Regex.Plus. simpl.
    assert (Hdot : forall c, Regex.char "." c = true ->
                     (Regex.word c || Regex.dot_or_dash c)%bool = true).
    { intros c Hc. unfold Regex.dot_or_dash. rewrite Hc. auto using orb_true_r. }
    assert (Hword : forall c, Regex.word c = true ->
                      (Regex.word c || Regex.dot_or_dash c)%bool = true).
    { intros c Hc. rewrite Hc. reflexivity. }
    repeat split; assumption. }
  destruct (plus_ends _ _ Hlabels) as (pre & last & -> & Hlast).
  inversion Hlast as [| | r1 r2 dot tld Hdot Htld | | | |]; subst.
  inversion Hdot as [| p c Hc | | | | |]; subst.
  unfold Regex.char in Hc. apply Ascii.eqb_eq in Hc. subst c.
  rewrite every_append in Hall. apply andb_true_iff in Hall. destruct Hall as [Hpre _].
  exists local, (first ++ pre)%string, tld.
  split; [simpl; rewrite string_append_assoc; reflexivity |].
  split; [exact Hlocal1 |]. split; [exact Hlocal2 |].
  split; [destruct first; [contradiction Hfirst1; reflexivity | discriminate] |].
  split; [rewrite every_append, Hfirst2, Hpre; reflexivity |].
  inversion Htld as [| | r1 r2 t1 rest3 Ht1 Hrest3 | | | |]; subst.
  inversion Hrest3 as [| | r1 r2 t2 t3 Ht2 Ht3 | | | |]; subst.
  inversion Ht1 as [| p c1 Hc1 | | | | |]; subst.
  inversion Ht2 as [| p c2 Hc2 | | | | |]; subst.
  unfold Regex.Opt in Ht3.
  inversion Ht3 as [| | | r1 r2 u Hnone | r1 r2 u Hsome | |]; subst.
  - inversion Hnone; subst. simpl. rewrite Hc1, Hc2. split; [reflexivity | lia].
  - inversion Hsome as [| p c3 Hc3 | | | | |]; subst.
    simpl. rewrite Hc1, Hc2, Hc3. split; [reflexivity | lia].
Qed.

Section RegisteredEmails.
Context `{External}.

(** X26.  The account a registration creates has an email of the form
    [local@domain.tld]: a local part and a domain that are not empty and
    made of word characters, dots and dashes, and a last label of two or
    three word characters.  So it has exactly one [@] and no blank, and the
    schema's [trim] leaves it as it is. *)
Theorem registered_emails_are_well_formed (db db' : collection) (now : Z) (salt : string)
  (errors : list string) (b : RegisterBody) (r : Response) :
  register db now salt errors b = (JS.Normal r, db') -> status r = 201 ->
  exists user local domain tld,
    db' = db ++ [user]
    /\ email user = (local ++ "@" ++ domain ++ "." ++ tld)%string
    /\ local <> EmptyString /\ every emailChar local = true
    /\ domain <> EmptyString /\ every emailChar domain = true
    /\ every Regex.word tld = true
    /\ (2 <= String.length tld <= 3)%nat.
Proof.
  intros Hreg Hstatus.
  destruct (register_stored db db' now salt errors b r Hreg Hstatus)
    as (_ & user & Hdb & _ & _ & _ & _ & Hvalid & _).
  unfold validateUser in Hvalid. cbn [email set_password] in Hvalid.
  do 7 (apply andb_true_iff in Hvalid; destruct Hvalid as [Hvalid _]).
  apply andb_true_iff in Hvalid. destruct Hvalid as [_ Hmatch].
  destruct (emailPattern_shape _ Hmatch) as (local & domain & tld & Hshape).
  exists user, local, domain, tld. split; [exact Hdb | exact Hshape].
Qed.

End RegisteredEmails.

(** Carol's registration stores an email of that form. *)
Lemma registered_emails_are_well_formed_witness :
  exists user local domain tld,
    snd (register (H := Double.external) Double.users 1000 "salt3" [] Double.carol)
    = Double.users ++ [user]
    /\ email user = (local ++ "@" ++ domain ++ "." ++ tld)%string
    /\ local <> EmptyString.
Proof.
  destruct (registered_emails_are_well_formed (H := Double.external) Double.users
              (snd (register (H := Double.external) Double.users 1000 "salt3" [] Double.carol))
              1000 "salt3" [] Double.carol _ eq_refl eq_refl)
    as (user & local & domain & tld & Hdb & Hemail & Hlocal & _).
  exists user, local, domain, tld. split; [exact Hdb | split; [exact Hemail | exact Hlocal]].
Defined.

(** ** The simulated face detection *)

Section SimulatedDetection.
Context `{External}.

(** X27.  The face-recognition route never looks at the image.  With a file in the
    request it never answers 400: the simulated detection always reports one
    face, so the answers [No face detected] and [Multiple faces detected]
    cannot occur.  The descriptor it stores is made of the 128 random
    numbers alone, the same whatever the file. *)
Theorem face_register_ignores_the_image (db : collection) (userId : nat)
  (random : nat -> JS.number) :
  (forall path r db',
      face_register db userId (Some path) random = (JS.Normal r, db') ->
      status r = 200 /\ exists u, findById db userId = Some u)
  /\ (forall path,
      findById db userId = None ->
      face_register db userId (Some path) random
      = (JS.Throw "Cannot read properties of null", db))
  /\ (forall path path' u u',
      findById (snd (face_register db userId (Some path) random)) userId = Some u ->
      findById (snd (face_register db userId (Some path') random)) userId = Some u' ->
      faceDescriptor u = Some (map (fun i => (random i * 2 - 1)%float) (seq 0 128))
      /\ faceDescriptor u' = faceDescriptor u
      /\ avatar u = Some path /\ avatar u' = Some path').
Proof.
  assert (Hform : forall path,
             face_register db userId (Some path) random
             = match findById db userId with
               | Some v =>
                   let u := set_avatar
                              (set_faceDescriptor v
                                 (Some (fd_descriptor (simulateFaceDetection random))))
                              (Some path) in
                   (JS.Normal (mkResponse 200
                      (FaceRegisteredBody "Face registered successfully" (profileView u)
                         (confidence (simulateFaceDetection random))
                         (List.length (fd_descriptor (simulateFaceDetection random))))),
                    save u db)
               | None => (JS.Throw "Cannot read properties of null", db)
               end).
  { intros path. unfold face_register, findByIdAndUpdate.
    destruct (simulateFaceDetection_length random) as [_ Hcount].
    rewrite Hcount. simpl Nat.eqb. simpl Nat.ltb. cbv iota.
    destruct (findById db userId); reflexivity. }
  split; [| split].
  - intros path r db'. rewrite Hform.
    destruct (findById db userId) as [v |]; [| discriminate].
    intros Hreg. injection Hreg as <- _. split; [reflexivity | exists v; reflexivity].
  - intros path Hnone. rewrite Hform, Hnone. reflexivity.
  - intros path path' u u'. rewrite !Hform.
    destruct (findById db userId) as [v |] eqn:Hfind.
    + cbv zeta. cbn [snd].
      pose proof (fun w => findById_save db userId v w Hfind) as Hsave.
      rewrite !Hsave by reflexivity.
      intros Hu Hu'. injection Hu as <-. injection Hu' as <-.
      repeat split; reflexivity.
    + cbn [snd]. rewrite Hfind. discriminate.
Qed.

End SimulatedDetection.

(** ** Grading and the generative API *)

Lemma strict_equals_Str (v : JS.value) (s : string) :
  JS.strict_equals v (JS.Str s) = true <-> v = JS.Str s.
Proof.
  destruct v as [| | b | n | t | items | fields]; simpl;
    try (split; intros Habs; discriminate Habs).
  rewrite String.eqb_eq. split; [intros -> | intros Heq; injection Heq as ->]; reflexivity.
Qed.

Section GradingAndTheAPI.
Context `{External}.

(** X28.  Validate-answer turns to the generative API for coding answers only, and
    then once, with the evaluation prompt made of the question and the two
    answers.  A coding answer is answered with 200 exactly when the API
    replied, whatever it replied; when it did not, the answer is 500 and the
    account is left alone.  An sql answer is always answered with 500: no
    prompt is sent and the account is left alone. *)
Theorem grading_and_the_generative_api (user : User) (now : Z) (b : ValidateBody)
  (generateContent : Generator) :
  let codePrompt :=
    CodeEvaluationPrompt (val_question b) (val_answer b) (val_correctAnswer b) in
  (forall errors r user' sent,
      validateAnswer user now errors b generateContent = (r, user', sent) ->
      sent = []
      \/ (errors = [] /\ val_questionType b = JS.Str "coding" /\ sent = [codePrompt]))
  /\ (val_questionType b = JS.Str "coding" ->
      (status (fst (fst (validateAnswer user now [] b generateContent))) = 200
       <-> exists text, generateContent codePrompt = JS.Normal text)
      /\ (forall m, generateContent codePrompt = JS.Throw m ->
            fst (validateAnswer user now [] b generateContent)
            = (serverError "Failed to validate answer. Please try again." m, user)))
  /\ (val_questionType b = JS.Str "sql" ->
      validateAnswer user now [] b generateContent
      = (serverError "Failed to validate answer. Please try again."
           "Cannot access 'model' before initialization", user, [])).
Proof.
  intros codePrompt. split; [| split].
  - intros errors r user' sent. unfold validateAnswer, grade.
    destruct errors as [| e errors]; cbn [isEmpty negb];
      [| intros Hv; injection Hv as _ _ <-; left; reflexivity].
    destruct (JS.strict_equals (val_questionType b) (JS.Str "MCQ"));
      [intros Hv; injection Hv as _ _ <-; left; reflexivity |].
    destruct (JS.strict_equals (val_questionType b) (JS.Str "coding")) eqn:Hcoding.
    + apply strict_equals_Str in Hcoding.
      match goal with |- context [JS.bind ?c ?k] => destruct (JS.bind c k) end;
        intros Hv; injection Hv as _ _ <-; right; repeat split; assumption.
    + destruct (JS.strict_equals (val_questionType b) (JS.Str "sql"));
        intros Hv; injection Hv as _ _ <-; left; reflexivity.
  - intros Htype. unfold validateAnswer, grade. rewrite Htype. cbn [isEmpty negb].
    change (JS.strict_equals (JS.Str "coding") (JS.Str "MCQ")) with false.
    change (JS.strict_equals (JS.Str "coding") (JS.Str "coding")) with true.
    cbv iota. unfold createCodeEvaluationPrompt. fold codePrompt.
    destruct (generateContent codePrompt) as [text | m]; cbn [JS.bind].
    + destruct (proj1 (parseEvaluation_never_throws text)) as (v & ->). cbn.
      split; [split; [intros _; exists text; reflexivity | reflexivity] |].
      intros m Hm. discriminate Hm.
    + cbn. split.
      * split; [intros Hs; discriminate Hs | intros (text & Ht); discriminate Ht].
      * intros m' Hm'. injection Hm' as <-. reflexivity.
  - intros Htype. unfold validateAnswer, grade. rewrite Htype. reflexivity.
Qed.

End GradingAndTheAPI.

(** ** The subject routes side by side *)

(** X29.  The three routes under a subject refuse the same subjects, with the
    same message: a missing or inactive subject is a 404 on all of them.
    Where the subject route answers with a subject, the list route answers
    with the active ones among that subject's topics, so the topics that
    only the subject route shows are exactly the inactive ones. *)
Theorem subject_routes_agree (subjects : list Subject.t) (id : nat) :
  (code (getSubject subjects id) = 404 <-> code (getTopics subjects id) = 404)
  /\ (code (getSubject subjects id) = 404 ->
      message (getTopics subjects id) = message (getSubject subjects id)
      /\ forall topicId,
           code (getTopicOf subjects id topicId) = 404
           /\ message (getTopicOf subjects id topicId) = message (getSubject subjects id))
  /\ (forall s, data (getSubject subjects id) = Some s ->
        In s subjects /\ Subject._id s = id /\ Subject.isActive s = true
        /\ data (getTopics subjects id) = Some (Subject.getActiveTopics s, summary s)
        /\ forall topic, In topic (Subject.topics s) ->
             (In topic (Subject.getActiveTopics s) <-> Topic.isActive topic = true)).
Proof.
  unfold getSubject, getTopics, getTopicOf, Subject_findById.
  destruct (find (fun s => Nat.eqb (Subject._id s) id) subjects) as [s |] eqn:Hfind.
  - apply find_some in Hfind. destruct Hfind as [Hin Hid]. apply Nat.eqb_eq in Hid.
    destruct (Subject.isActive s) eqn:Hactive; cbn [negb].
    + split; [split; intros Hcode; discriminate Hcode |].
      split; [intros Hcode; discriminate Hcode |].
      intros s' Hdata. cbn [data] in Hdata. injection Hdata as <-.
      split; [exact Hin |]. split; [exact Hid |]. split; [exact Hactive |].
      split; [reflexivity |].
      intros topic Htopic. unfold Subject.getActiveTopics. rewrite filter_In. tauto.
    + split; [split; reflexivity |].
      split; [intros _; split; [reflexivity | intros topicId; split; reflexivity] |].
      intros s' Hdata. discriminate Hdata.
  - split; [split; reflexivity |].
    split; [intros _; split; [reflexivity | intros topicId; split; reflexivity] |].
    intros s' Hdata. discriminate Hdata.
Qed.
